(** * minnieml: benchmark routines and the LSP reproduction client

    A shallow embedding of [benchmark/factorial.py], [benchmark/sieve.py]
    and [tooling/repro_lsp.py].  Python integers are [Z]; a Python list of
    integers is a [list Z] read and written through stdpp's lookup and
    insert, with the interpreter's index check written out; a [while] loop
    is a fuelled fixpoint; an exception is a value of [exn] carried in the
    result type [res].  The child process, the file system and the JSON
    library are parameters of the session ([env], [runtime]); the limits
    of the interpreter (recursion depth, the digits of an integer's
    decimal text, memory) are not modelled. *)

From Stdlib Require Import ZArith Lia Zdivisibility Ascii String.
From Equations Require Import Equations.
From stdpp Require Import base list numbers.

Open Scope Z_scope.

(* ===================================================================== *)
(** * Part I: definitions                                                 *)
(* ===================================================================== *)

(** ** Results of running Python code *)

(** The exceptions the modelled code can meet.  All of them derive from
    Python's [Exception], so an [except Exception] clause catches each. *)
Inductive exn : Type :=
| IndexError
| ZeroDivisionError
| ValueError
| TypeError
| AttributeError
| UnicodeDecodeError
| JSONDecodeError
| KeyError
| UnicodeEncodeError
| OSError.

(** A computation returns a value, raises, or is still running when the
    fuel given to its loops is spent. *)
Inductive res (A : Type) : Type :=
| Ret (a : A)
| Raise (e : exn)
| OutOfFuel.
Arguments Ret {A} a.
Arguments Raise {A} e.
Arguments OutOfFuel {A}.

#[global] Instance res_bind : MBind res := fun A B k m =>
  match m with
  | Ret a => k a
  | Raise e => Raise e
  | OutOfFuel => OutOfFuel
  end.

(** ** benchmark/factorial.py *)

Equations? factorial (n : Z) : Z by wf (Z.to_nat n) lt :=
  factorial n with Z_le_gt_dec n 1 => {
    | left _ := 1;
    | right _ := n * factorial (n - 1) }.
Proof. lia. Qed.

(** ** benchmark/sieve.py *)

(** [arr[i]] and [arr[i] = v] on a Python list: a negative index counts
    from the end, anything outside [-len, len) raises [IndexError]. *)
Definition py_index (arr : list Z) (i : Z) : res nat :=
  let n := Z.of_nat (length arr) in
  if (0 <=? i) && (i <? n) then Ret (Z.to_nat i)
  else if (- n <=? i) && (i <? 0) then Ret (Z.to_nat (n + i))
  else Raise IndexError.

Definition py_getitem (arr : list Z) (i : Z) : res Z :=
  k ← py_index arr i;
  match arr !! k with
  | Some v => Ret v
  | None => Raise IndexError
  end.

Definition py_setitem (arr : list Z) (i v : Z) : res (list Z) :=
  k ← py_index arr i;
  Ret (<[k := v]> arr).

Fixpoint init_sieve (fuel : nat) (arr : list Z) (i size : Z) : res (list Z) :=
  match fuel with
  | O => OutOfFuel
  | S fuel' =>
      if i <? size then
        arr' ← py_setitem arr i 1;
        init_sieve fuel' arr' (i + 1) size
      else Ret arr
  end.

Fixpoint clear_multiples (fuel : nat) (arr : list Z) (factor num size : Z)
  : res (list Z) :=
  match fuel with
  | O => OutOfFuel
  | S fuel' =>
      if num <? size then
        arr' ← py_setitem arr num 0;
        clear_multiples fuel' arr' factor (num + factor) size
      else Ret arr
  end.

Fixpoint find_next_prime (fuel : nat) (arr : list Z) (i limit : Z) : res Z :=
  match fuel with
  | O => OutOfFuel
  | S fuel' =>
      if i <=? limit then
        v ← py_getitem arr i;
        if v =? 1 then Ret i
        else find_next_prime fuel' arr (i + 1) limit
      else Ret 0
  end.

(** [n // guess] raises on a zero divisor; elsewhere Python's floor
    division is [Z.div]. *)
Definition py_floordiv (a b : Z) : res Z :=
  if b =? 0 then Raise ZeroDivisionError else Ret (a / b).

Fixpoint isqrt (fuel : nat) (n guess : Z) : res Z :=
  match fuel with
  | O => OutOfFuel
  | S fuel' =>
      d ← py_floordiv n guess;
      let next_guess := (guess + d) / 2 in
      if next_guess >=? guess then Ret guess
      else isqrt fuel' n next_guess
  end.

Fixpoint count_primes_from (fuel : nat) (arr : list Z) (size count i : Z)
  : res Z :=
  match fuel with
  | O => OutOfFuel
  | S fuel' =>
      if i <? size then
        v ← py_getitem arr i;
        count_primes_from fuel' arr size (if v =? 1 then count + 1 else count)
          (i + 1)
      else Ret count
  end.

Definition count_primes (fuel : nat) (arr : list Z) (size : Z) : res Z :=
  count_primes_from fuel arr size 1 0.

(** The [while factor <= q] loop of [run_sieve]; [break] returns the
    array as it stands. *)
Fixpoint sieve_loop (fuel : nat) (arr : list Z) (factor q size : Z)
  : res (list Z) :=
  match fuel with
  | O => OutOfFuel
  | S fuel' =>
      if factor <=? q then
        next_prime ← find_next_prime (S fuel') arr (factor / 2) (q / 2);
        if next_prime =? 0 then Ret arr
        else
          let actual_factor := next_prime * 2 + 1 in
          let start := actual_factor * actual_factor / 2 in
          arr' ← clear_multiples (S fuel') arr actual_factor start size;
          sieve_loop fuel' arr' (actual_factor + 2) q size
      else Ret arr
  end.

Definition run_sieve (fuel : nat) (limit : Z) : res Z :=
  let size := (limit + 1) / 2 in
  let arr := replicate (Z.to_nat size) 0 in
  arr ← init_sieve fuel arr 0 size;
  arr ← py_setitem arr 0 0;
  q ← isqrt fuel limit (limit / 2);
  arr ← sieve_loop fuel arr 3 q size;
  count_primes fuel arr size.

(** *** What the sieve is to compute *)

(** [trial k p]: no [d] in [2, k + 1] divides [p]. *)
Fixpoint trial (k : nat) (p : Z) : bool :=
  match k with
  | O => true
  | S k' => trial k' p && negb (p mod (Z.of_nat k' + 2) =? 0)
  end.

Definition primeb (p : Z) : bool :=
  (1 <? p) && trial (Z.to_nat (p - 2)) p.

(** The number of primes in [2, limit]. *)
Definition prime_count (limit : Z) : Z :=
  Z.of_nat (length (filter (fun p => primeb p = true) (seqZ 2 (limit - 1)))).

(** The number of odd primes below [2 * k]. *)
Definition odd_prime_count (k : Z) : Z :=
  Z.of_nat (length (filter (fun j => primeb (2 * j + 1) = true) (seqZ 0 k))).

(** *** Vocabulary of the loop invariant *)

(** The indices cleared by [clear_multiples arr factor num size]. *)
Definition cleared (factor num j : Z) : Prop :=
  num <= j /\ (j - num) mod factor = 0.

(** [m] has no divisor in [(1, f)] other than itself. *)
Definition survives (f m : Z) : Prop :=
  forall d, 1 < d < f -> Z.divide d m -> d = m.

(** Index [j] of the array stands for the odd number [2 * j + 1]; before
    the iteration for [factor] an entry is 1 exactly when its number has
    survived every smaller factor. *)
Definition sieve_inv (size factor : Z) (arr : list Z) : Prop :=
  Z.of_nat (length arr) = size /\
  forall j, 0 <= j < size ->
    exists v, arr !! Z.to_nat j = Some v /\
      (v = 1 <-> 1 <= j /\ survives factor (2 * j + 1)).

Definition sieved (size : Z) (arr : list Z) : Prop :=
  Z.of_nat (length arr) = size /\
  forall j, 0 <= j < size ->
    exists v, arr !! Z.to_nat j = Some v /\ (v = 1 <-> Z.prime (2 * j + 1)).

(** ** tooling/repro_lsp.py: text and bytes *)

(** A [bytes] object is the list of its byte values, a [str] the list of
    its Unicode code points; both are [list Z].  [lit] reads a literal of
    printable ASCII characters, which is the same list under both views. *)
Definition lit (s : string) : list Z :=
  map (fun a => Z.of_nat (nat_of_ascii a)) (list_ascii_of_string s).

Definition CRLF : list Z := [13; 10].

Definition in_range (lo hi c : Z) : bool := (lo <=? c) && (c <? hi).

(** [s.encode('utf-8')]: lone surrogates cannot be encoded. *)
Definition utf8_encode_cp (c : Z) : res (list Z) :=
  if in_range 0 128 c then Ret [c]
  else if in_range 128 2048 c then Ret [192 + c / 64; 128 + c mod 64]
  else if in_range 2048 65536 c then
    if in_range 55296 57344 c then Raise UnicodeEncodeError
    else Ret [224 + c / 4096; 128 + (c / 64) mod 64; 128 + c mod 64]
  else if in_range 65536 1114112 c then
    Ret [240 + c / 262144; 128 + (c / 4096) mod 64;
         128 + (c / 64) mod 64; 128 + c mod 64]
  else Raise UnicodeEncodeError.

Fixpoint utf8_encode (s : list Z) : res (list Z) :=
  match s with
  | [] => Ret []
  | c :: s' =>
      b ← utf8_encode_cp c;
      bs ← utf8_encode s';
      Ret (b ++ bs)
  end.

(** [b.decode('utf-8')], strict: stray or missing continuation bytes,
    overlong forms, surrogates and values above U+10FFFF are errors. *)
Definition is_cont (b : Z) : bool := in_range 128 192 b.

Fixpoint utf8_decode (bs : list Z) : res (list Z) :=
  match bs with
  | [] => Ret []
  | b0 :: t =>
      if in_range 0 128 b0 then
        s ← utf8_decode t; Ret (b0 :: s)
      else if in_range 192 224 b0 then
        match t with
        | b1 :: t1 =>
            let c := (b0 - 192) * 64 + (b1 - 128) in
            if is_cont b1 && (128 <=? c) then
              s ← utf8_decode t1; Ret (c :: s)
            else Raise UnicodeDecodeError
        | _ => Raise UnicodeDecodeError
        end
      else if in_range 224 240 b0 then
        match t with
        | b1 :: b2 :: t2 =>
            let c := (b0 - 224) * 4096 + (b1 - 128) * 64 + (b2 - 128) in
            if is_cont b1 && is_cont b2 && (2048 <=? c)
               && negb (in_range 55296 57344 c) then
              s ← utf8_decode t2; Ret (c :: s)
            else Raise UnicodeDecodeError
        | _ => Raise UnicodeDecodeError
        end
      else if in_range 240 248 b0 then
        match t with
        | b1 :: b2 :: b3 :: t3 =>
            let c := (b0 - 240) * 262144 + (b1 - 128) * 4096
                     + (b2 - 128) * 64 + (b3 - 128) in
            if is_cont b1 && is_cont b2 && is_cont b3
               && in_range 65536 1114112 c then
              s ← utf8_decode t3; Ret (c :: s)
            else Raise UnicodeDecodeError
        | _ => Raise UnicodeDecodeError
        end
      else Raise UnicodeDecodeError
  end.

(** [s.startswith(p)] *)
Fixpoint startswith (s p : list Z) {struct p} : bool :=
  match p, s with
  | [], _ => true
  | x :: p', y :: s' => (x =? y) && startswith s' p'
  | _ :: _, [] => false
  end.

(** [s.split(sep)] for a one-character separator: every occurrence
    splits, so the result has one more piece than there are separators. *)
Fixpoint py_split (sep : Z) (s : list Z) : list (list Z) :=
  match s with
  | [] => [[]]
  | c :: s' =>
      if c =? sep then [] :: py_split sep s'
      else match py_split sep s' with
           | piece :: pieces => (c :: piece) :: pieces
           | [] => [[c]]
           end
  end.

(** [l[i]] on a list of strings, for an index that is not negative. *)
Definition py_item {A} (l : list A) (i : nat) : res A :=
  match l !! i with
  | Some x => Ret x
  | None => Raise IndexError
  end.

(** The characters [str.strip()] removes: ASCII white space, the four
    information separators and the Unicode space characters. *)
Definition py_isspace (c : Z) : bool :=
  in_range 9 14 c || in_range 28 33 c || (c =? 133) || (c =? 160)
  || (c =? 5760) || in_range 8192 8203 c || (c =? 8232) || (c =? 8233)
  || (c =? 8239) || (c =? 8287) || (c =? 12288).

Fixpoint lstrip (s : list Z) : list Z :=
  match s with
  | c :: s' => if py_isspace c then lstrip s' else s
  | [] => []
  end.

Definition py_strip (s : list Z) : list Z :=
  reverse (lstrip (reverse (lstrip s))).

(** [str(n)]: the decimal digits of an integer. *)
Fixpoint digits_of (fuel : nat) (n : Z) : list Z :=
  match fuel with
  | O => []
  | S fuel' =>
      if n <? 10 then [48 + n]
      else digits_of fuel' (n / 10) ++ [48 + n mod 10]
  end.

Definition py_str_int (n : Z) : list Z :=
  if n <? 0 then 45 :: digits_of (S (Z.to_nat (Z.log2 (- n)))) (- n)
  else digits_of (S (Z.to_nat (Z.log2 n))) n.

(** [int(s)] in base 10.  The interpreter first maps every non-ASCII
    space to a blank and every non-ASCII decimal digit to its ASCII digit
    ([unicode_decimal] is that table of the Unicode database); then it
    reads blanks, a sign, digits with single underscores between them,
    and blanks.  The limit on the number of digits is not modelled. *)
Definition c_isspace (c : Z) : bool := in_range 9 14 c || (c =? 32).
Definition is_digit (c : Z) : bool := in_range 48 58 c.

Definition int_normalize (unicode_decimal : Z -> option Z) (c : Z) : Z :=
  if c <? 127 then c
  else if py_isspace c then 32
  else match unicode_decimal c with
       | Some d => 48 + d
       | None => 63
       end.

Fixpoint skip_c_space (s : list Z) : list Z :=
  match s with
  | c :: s' => if c_isspace c then skip_c_space s' else s
  | [] => []
  end.

(** The digits after the first one: [prev_us] tells that the previous
    character was an underscore. *)
Fixpoint int_digits (s : list Z) (acc : Z) (prev_us : bool)
  : option (Z * list Z) :=
  match s with
  | c :: s' =>
      if is_digit c then int_digits s' (acc * 10 + (c - 48)) false
      else if c =? 95 then
        if prev_us then None else int_digits s' acc true
      else if prev_us then None else Some (acc, s)
  | [] => if prev_us then None else Some (acc, [])
  end.

Definition int_unsigned (s : list Z) : option Z :=
  match s with
  | c :: _ =>
      if is_digit c then
        match int_digits s 0 false with
        | Some (n, rest) =>
            match skip_c_space rest with
            | [] => Some n
            | _ :: _ => None
            end
        | None => None
        end
      else None
  | [] => None
  end.

Definition py_int (unicode_decimal : Z -> option Z) (s : list Z) : res Z :=
  let t := skip_c_space (map (int_normalize unicode_decimal) s) in
  let r := match t with
           | c :: t' =>
               if c =? 45 then option_map Z.opp (int_unsigned t')
               else if c =? 43 then int_unsigned t'
               else int_unsigned t
           | [] => None
           end in
  match r with
  | Some n => Ret n
  | None => Raise ValueError
  end.

(** [pipe.readline()] on the bytes still to come: up to and including the
    first newline, or everything when the stream ends first; the empty
    result is end-of-stream. *)
Fixpoint readline (s : list Z) : list Z * list Z :=
  match s with
  | [] => ([], [])
  | c :: s' =>
      if c =? 10 then ([c], s')
      else let (l, r) := readline s' in (c :: l, r)
  end.

(** ** tooling/repro_lsp.py: message values *)

(** What [json.loads] returns and [json.dumps] takes.  A float is kept as
    its IEEE-754 bit pattern; a dict as the list of its items in
    insertion order. *)
#[warnings="-register-all"]
Inductive json : Type :=
| JNull
| JBool (b : bool)
| JInt (n : Z)
| JFloat (bits : Z)
| JStr (s : list Z)
| JArr (items : list json)
| JObj (fields : list (list Z * json)).

Fixpoint str_eqb (a b : list Z) : bool :=
  match a, b with
  | [], [] => true
  | x :: a', y :: b' => (x =? y) && str_eqb a' b'
  | _, _ => false
  end.

Fixpoint dict_get (fields : list (list Z * json)) (key : list Z) : option json :=
  match fields with
  | [] => None
  | (k, v) :: rest => if str_eqb k key then Some v else dict_get rest key
  end.

Definition has_key (fields : list (list Z * json)) (key : list Z) : bool :=
  match dict_get fields key with Some _ => true | None => false end.

Fixpoint is_substring (key s : list Z) : bool :=
  startswith s key ||
  match s with
  | [] => false
  | _ :: s' => is_substring key s'
  end.

(** [key in msg] *)
Definition py_contains (key : list Z) (msg : json) : res bool :=
  match msg with
  | JObj fields => Ret (has_key fields key)
  | JArr items =>
      Ret (existsb (fun x => match x with
                             | JStr s => str_eqb s key
                             | _ => false
                             end) items)
  | JStr s => Ret (is_substring key s)
  | _ => Raise TypeError
  end.

(** [msg[key]] for a string key *)
Definition py_subscript (msg : json) (key : list Z) : res json :=
  match msg with
  | JObj fields =>
      match dict_get fields key with
      | Some v => Ret v
      | None => Raise KeyError
      end
  | _ => Raise TypeError
  end.

(** [msg.get(key)]: [None] is Python's [None]. *)
Definition py_get (msg : json) (key : list Z) : res (option json) :=
  match msg with
  | JObj fields => Ret (dict_get fields key)
  | _ => Raise AttributeError
  end.

(** The parts of the interpreter's library the script calls and this
    development takes as given.  A library call returns or raises: its
    result is a sum, with the exception on the left. *)
Record runtime : Type := {
  json_dumps : json -> exn + list Z;
  json_loads : list Z -> exn + json;
  unicode_decimal : Z -> option Z
}.

Definition of_sum {A} (r : exn + A) : res A :=
  match r with
  | inl e => Raise e
  | inr a => Ret a
  end.

(** ** tooling/repro_lsp.py: the session *)

(** One line of the printed trace. *)
Inductive event : Type :=
| PStarting
| PSent (method : option json)
| PSentDocumentSymbol
| PSentDefinition
| PRecvError (msg : json)
| PRecvNotif (method : json)
| PRecvResp (id : option json)
| PError (e : exn)
| PDiag (name line : list Z)
| PReaderError (name : list Z) (e : exn).

(** What the main task does to the world, in order.  [ACallSend] and
    [ADecoded] are ghost entries: the argument [send] is entered with and
    the value bound to [msg] in the read loop. *)
Inductive action : Type :=
| ASpawn
| ACallSend (msg : json)
| AStdinWrite (data : list Z)
| AStdinFlush
| AOpenInput
| AStdoutReadline (line : list Z)
| AStdoutRead (n : Z) (data : list Z)
| ADecoded (msg : json)
| APrint (e : event)
| ATerminate.

(** The child as [Popen.terminate] sees it. *)
Inductive proc_state : Type :=
| Running
| Signalled
| Exited.

(** What the surroundings decide: whether the executable starts, which
    operations on the child's input fail (by their position among the
    writes and flushes), what reading the sample file gives, the bytes
    the child writes to its output before closing it, and whether the
    child has exited by itself when the cleanup runs. *)
Record env : Type := {
  spawn_ok : bool;
  stdin_fault : nat -> bool;
  input_file : exn + list Z;
  child_stdout : list Z;
  child_exited : bool
}.

Record world : Type := {
  log : list action;
  stdout_rest : list Z;
  stdin_ops : nat;
  proc : proc_state
}.

Definition M (A : Type) : Type := world -> res A * world.

#[global] Instance M_ret : MRet M := fun A a w => (Ret a, w).

#[global] Instance M_bind : MBind M := fun A B k m w =>
  match m w with
  | (Ret a, w') => k a w'
  | (Raise e, w') => (Raise e, w')
  | (OutOfFuel, w') => (OutOfFuel, w')
  end.

Definition lift {A} (r : res A) : M A := fun w => (r, w).

Definition emit (a : action) : M unit := fun w =>
  (Ret tt, {| log := log w ++ [a]; stdout_rest := stdout_rest w;
              stdin_ops := stdin_ops w; proc := proc w |}).

Definition print (e : event) : M unit := emit (APrint e).

Definition initial_world (ev : env) : world :=
  {| log := []; stdout_rest := child_stdout ev; stdin_ops := 0;
     proc := if child_exited ev then Exited else Running |}.

(** [process.stdout.readline()] and [process.stdout.read(n)]: [read(-1)]
    reads to the end, a smaller argument is refused. *)
Definition stdout_readline : M (list Z) := fun w =>
  let (line, rest) := readline (stdout_rest w) in
  (Ret line, {| log := log w ++ [AStdoutReadline line]; stdout_rest := rest;
                stdin_ops := stdin_ops w; proc := proc w |}).

Definition stdout_read (n : Z) : M (list Z) := fun w =>
  if n <? -1 then (Raise ValueError, w)
  else
    let k := if n =? -1 then length (stdout_rest w) else Z.to_nat n in
    let data := take k (stdout_rest w) in
    (Ret data, {| log := log w ++ [AStdoutRead n data];
                  stdout_rest := drop k (stdout_rest w);
                  stdin_ops := stdin_ops w; proc := proc w |}).

(** [Popen.terminate()]: nothing is sent to a child known to have exited,
    and a child that vanished meanwhile is not an error. *)
Definition terminate : M unit := fun w =>
  (Ret tt, {| log := log w ++ [ATerminate]; stdout_rest := stdout_rest w;
              stdin_ops := stdin_ops w;
              proc := match proc w with
                      | Exited => Exited
                      | _ => Signalled
                      end |}).

(** The [if 'error' in msg ... elif 'method' in msg ... else] of the read
    loop: the line it prints. *)
Definition classify_incoming (msg : json) : res event :=
  e ← py_contains (lit "error") msg;
  if (e : bool) then Ret (PRecvError msg)
  else
    m ← py_contains (lit "method") msg;
    if (m : bool) then
      v ← py_subscript msg (lit "method");
      Ret (PRecvNotif v)
    else
      i ← py_get msg (lit "id");
      Ret (PRecvResp i).

Section Session.
Context (rt : runtime) (ev : env).

Definition stdin_op (a : action) : M unit := fun w =>
  let w' := {| log := log w; stdout_rest := stdout_rest w;
               stdin_ops := S (stdin_ops w); proc := proc w |} in
  if stdin_fault ev (stdin_ops w) then (Raise OSError, w')
  else emit a w'.

Definition stdin_write (data : list Z) : M unit := stdin_op (AStdinWrite data).
Definition stdin_flush : M unit := stdin_op AStdinFlush.

Definition frame_header (l : Z) : list Z :=
  lit "Content-Type: application/vscode-jsonrpc; charset=utf-8" ++ CRLF
  ++ lit "Content-Length: " ++ py_str_int l ++ CRLF ++ CRLF.

Definition send (msg : json) : M unit :=
  _ ← emit (ACallSend msg);
  content ← lift (of_sum (json_dumps rt msg));
  encoded ← lift (utf8_encode content);
  let l := Z.of_nat (length encoded) in
  let h := frame_header l in
  hb ← lift (utf8_encode h);
  _ ← stdin_write hb;
  cb ← lift (utf8_encode content);
  _ ← stdin_write cb;
  _ ← stdin_flush;
  m ← lift (py_get msg (lit "method"));
  print (PSent m).

Definition is_empty (b : list Z) : bool :=
  match b with [] => true | _ :: _ => false end.

Fixpoint read_loop (fuel : nat) : M unit :=
  match fuel with
  | O => lift OutOfFuel
  | S fuel' =>
      line ← stdout_readline;
      if is_empty line then mret tt
      else
        line ← lift (utf8_decode line);
        if startswith line (lit "Content-Length:") then
          field ← lift (py_item (py_split 58 line) 1);
          cl ← lift (py_int (unicode_decimal rt) (py_strip field));
          _ ← stdout_readline;
          body ← stdout_read cl;
          body ← lift (utf8_decode body);
          msg ← lift (of_sum (json_loads rt body));
          _ ← emit (ADecoded msg);
          line ← lift (classify_incoming msg);
          _ ← print line;
          read_loop fuel'
        else read_loop fuel'
  end.

Definition uri : json := JStr (lit "file:///tmp/astar.mml").

Definition msg_initialize : json :=
  JObj [(lit "jsonrpc", JStr (lit "2.0")); (lit "method", JStr (lit "initialize"));
        (lit "params", JObj []); (lit "id", JInt 1)].

Definition msg_initialized : json :=
  JObj [(lit "jsonrpc", JStr (lit "2.0")); (lit "method", JStr (lit "initialized"));
        (lit "params", JObj [])].

Definition msg_didOpen (txt : list Z) : json :=
  JObj [(lit "jsonrpc", JStr (lit "2.0"));
        (lit "method", JStr (lit "textDocument/didOpen"));
        (lit "params",
          JObj [(lit "textDocument",
                  JObj [(lit "uri", uri); (lit "languageId", JStr (lit "mml"));
                        (lit "version", JInt 1); (lit "text", JStr txt)])])].

Definition msg_semanticTokens : json :=
  JObj [(lit "jsonrpc", JStr (lit "2.0"));
        (lit "method", JStr (lit "textDocument/semanticTokens/full"));
        (lit "params", JObj [(lit "textDocument", JObj [(lit "uri", uri)])]);
        (lit "id", JInt 2)].

Definition msg_documentSymbol : json :=
  JObj [(lit "jsonrpc", JStr (lit "2.0"));
        (lit "method", JStr (lit "textDocument/documentSymbol"));
        (lit "params", JObj [(lit "textDocument", JObj [(lit "uri", uri)])]);
        (lit "id", JInt 3)].

Definition msg_definition : json :=
  JObj [(lit "jsonrpc", JStr (lit "2.0"));
        (lit "method", JStr (lit "textDocument/definition"));
        (lit "params",
          JObj [(lit "textDocument", JObj [(lit "uri", uri)]);
                (lit "position",
                  JObj [(lit "line", JInt 130); (lit "character", JInt 6)])]);
        (lit "id", JInt 4)].

Definition open_input : M (list Z) :=
  _ ← emit AOpenInput;
  lift (of_sum (input_file ev)).

(** The body of the [try] block: the scripted sends, then the read
    loop. *)
Definition scenario_sends : M unit :=
  _ ← send msg_initialize;
  _ ← send msg_initialized;
  txt ← open_input;
  _ ← send (msg_didOpen txt);
  _ ← send msg_semanticTokens;
  _ ← send msg_documentSymbol;
  _ ← print PSentDocumentSymbol;
  _ ← send msg_definition;
  print PSentDefinition.

Definition scenario_body (fuel : nat) : M unit :=
  _ ← scenario_sends;
  read_loop fuel.

(** [try: ... except Exception as e: print(...) finally: terminate()] *)
Definition scenario (fuel : nat) : M unit := fun w =>
  match scenario_body fuel w with
  | (Ret _, w') => terminate w'
  | (Raise e, w') => (_ ← print (PError e); terminate) w'
  | (OutOfFuel, w') => (OutOfFuel, w')
  end.

Definition spawn : M unit :=
  if spawn_ok ev then emit ASpawn else lift (Raise OSError).

Definition run (fuel : nat) : res unit * world :=
  (_ ← print PStarting;
   _ ← spawn;
   scenario fuel) (initial_world ev).
End Session.

(** *** The error-stream reader *)

(** One call of [pipe.readline()] on the child's error stream. *)
Inductive read_result : Type :=
| Line (data : list Z)
| Fails (e : exn).

(** [reader(pipe, name)]: [pipe k] is what the [k]-th call of
    [readline] gives; the empty line is end-of-stream. *)
Fixpoint reader_loop (fuel : nat) (pipe : nat -> read_result) (name : list Z)
    (k : nat) (out : list event) : res unit * list event :=
  match fuel with
  | O => (OutOfFuel, out)
  | S fuel' =>
      match pipe k with
      | Line [] => (Ret tt, out)
      | Line line =>
          match utf8_decode line with
          | Ret s =>
              reader_loop fuel' pipe name (S k) (out ++ [PDiag name (py_strip s)])
          | Raise e => (Raise e, out)
          | OutOfFuel => (OutOfFuel, out)
          end
      | Fails e => (Raise e, out)
      end
  end.

Definition reader (fuel : nat) (pipe : nat -> read_result) (name : list Z)
  : res unit * list event :=
  match reader_loop fuel pipe name 0 [] with
  | (Raise e, out) => (Ret tt, out ++ [PReaderError name e])
  | r => r
  end.


(** ** A reference runtime *)

(** An executable [json.dumps] and [json.loads] over the values above,
    following the library's defaults ([", "] and [": "] separators,
    [ensure_ascii], strict strings), for running the session on concrete
    inputs.  It covers the fragment without floats: a float value is not
    printed and a number with a fraction or an exponent, [NaN] and
    [Infinity] are not read.  It knows no decimal digit outside ASCII.
    On the plain values (no float, no surrogate in a string, no key twice
    in a dict) it reads back what it prints: [ref_loads_dumps] below. *)

Definition hex_digit (d : Z) : Z := if d <? 10 then 48 + d else 87 + d.

Definition hex4 (n : Z) : list Z :=
  [hex_digit (n / 4096 mod 16); hex_digit (n / 256 mod 16);
   hex_digit (n / 16 mod 16); hex_digit (n mod 16)].

Definition escape_char (c : Z) : list Z :=
  if c =? 34 then [92; 34]
  else if c =? 92 then [92; 92]
  else if c =? 10 then [92; 110]
  else if c =? 13 then [92; 114]
  else if c =? 9 then [92; 116]
  else if c =? 8 then [92; 98]
  else if c =? 12 then [92; 102]
  else if in_range 32 127 c then [c]
  else if c <? 65536 then 92 :: 117 :: hex4 c
  else (92 :: 117 :: hex4 (55296 + (c - 65536) / 1024))
       ++ (92 :: 117 :: hex4 (56320 + (c - 65536) mod 1024)).

Definition json_string (s : list Z) : list Z :=
  34 :: concat (map escape_char s) ++ [34].

#[global] Instance sum_exn_bind : MBind (sum exn) := fun A B k m =>
  match m with
  | inl e => inl e
  | inr a => k a
  end.

Fixpoint ref_dumps (v : json) : exn + list Z :=
  match v with
  | JNull => inr (lit "null")
  | JBool true => inr (lit "true")
  | JBool false => inr (lit "false")
  | JInt n => inr (py_str_int n)
  | JFloat _ => inl ValueError
  | JStr s => inr (json_string s)
  | JArr items =>
      let fix go (l : list json) (first : bool) : exn + list Z :=
        match l with
        | [] => inr []
        | x :: l' =>
            s ← ref_dumps x;
            r ← go l' false;
            inr ((if first then [] else lit ", ") ++ s ++ r)
        end in
      body ← go items true;
      inr (91 :: body ++ [93])
  | JObj fields =>
      let fix go (l : list (list Z * json)) (first : bool) : exn + list Z :=
        match l with
        | [] => inr []
        | (k, x) :: l' =>
            s ← ref_dumps x;
            r ← go l' false;
            inr ((if first then [] else lit ", ")
                 ++ json_string k ++ lit ": " ++ s ++ r)
        end in
      body ← go fields true;
      inr (123 :: body ++ [125])
  end.

Definition json_ws (c : Z) : bool :=
  (c =? 32) || (c =? 9) || (c =? 10) || (c =? 13).

Fixpoint skip_ws (s : list Z) : list Z :=
  match s with
  | c :: s' => if json_ws c then skip_ws s' else s
  | [] => []
  end.

Definition hex_value (c : Z) : option Z :=
  if in_range 48 58 c then Some (c - 48)
  else if in_range 97 103 c then Some (c - 87)
  else if in_range 65 71 c then Some (c - 55)
  else None.

Definition hex4_value (a b c d : Z) : option Z :=
  match hex_value a, hex_value b, hex_value c, hex_value d with
  | Some x, Some y, Some z, Some w => Some (((x * 16 + y) * 16 + z) * 16 + w)
  | _, _, _, _ => None
  end.

Definition unescape (e : Z) : option Z :=
  if e =? 34 then Some 34
  else if e =? 92 then Some 92
  else if e =? 47 then Some 47
  else if e =? 98 then Some 8
  else if e =? 102 then Some 12
  else if e =? 110 then Some 10
  else if e =? 114 then Some 13
  else if e =? 116 then Some 9
  else None.

(** The characters of a string after its opening quote, up to the
    closing one; [acc] holds those read so far, last first. *)
Fixpoint scan_string (s : list Z) (acc : list Z) : option (list Z * list Z) :=
  match s with
  | [] => None
  | c :: s' =>
      if c =? 34 then Some (reverse acc, s')
      else if c =? 92 then
        match s' with
        | [] => None
        | e :: s'' =>
            if e =? 117 then
              match s'' with
              | h1 :: h2 :: h3 :: h4 :: s3 =>
                  match hex4_value h1 h2 h3 h4 with
                  | None => None
                  | Some u =>
                      let lone := scan_string s3 (u :: acc) in
                      if in_range 55296 56320 u then
                        match s3 with
                        | 92 :: 117 :: g1 :: g2 :: g3 :: g4 :: s4 =>
                            match hex4_value g1 g2 g3 g4 with
                            | Some u2 =>
                                if in_range 56320 57344 u2 then
                                  scan_string s4
                                    ((65536 + (u - 55296) * 1024 + (u2 - 56320))
                                     :: acc)
                                else lone
                            | None => lone
                            end
                        | _ => lone
                        end
                      else lone
                  end
              | _ => None
              end
            else
              match unescape e with
              | Some ch => scan_string s'' (ch :: acc)
              | None => None
              end
        end
      else if c <? 32 then None
      else scan_string s' (c :: acc)
  end.

Fixpoint scan_digits (s : list Z) (acc : Z) : Z * list Z :=
  match s with
  | c :: s' => if is_digit c then scan_digits s' (acc * 10 + (c - 48)) else (acc, s)
  | [] => (acc, [])
  end.

(** An integer literal; one continued by a fraction or an exponent is
    outside the fragment. *)
Definition scan_int (s : list Z) : option (Z * list Z) :=
  let after (r : Z * list Z) : option (Z * list Z) :=
    match snd r with
    | c :: _ => if (c =? 46) || (c =? 101) || (c =? 69) then None else Some r
    | [] => Some r
    end in
  match s with
  | c :: s' =>
      if c =? 48 then after (0, s')
      else if in_range 49 58 c then after (scan_digits s 0)
      else None
  | [] => None
  end.

Fixpoint dict_set (fields : list (list Z * json)) (k : list Z) (v : json)
  : list (list Z * json) :=
  match fields with
  | [] => [(k, v)]
  | (k', v') :: rest =>
      if str_eqb k' k then (k', v) :: rest
      else (k', v') :: dict_set rest k v
  end.

Definition strip_prefix (p s : list Z) : option (list Z) :=
  if startswith s p then Some (drop (length p) s) else None.

Fixpoint parse_value (fuel : nat) (s : list Z) : res (json * list Z) :=
  match fuel with
  | O => OutOfFuel
  | S fuel' =>
      match s with
      | [] => Raise JSONDecodeError
      | c :: s' =>
          if c =? 34 then
            match scan_string s' [] with
            | Some (str, rest) => Ret (JStr str, rest)
            | None => Raise JSONDecodeError
            end
          else if c =? 123 then
            match skip_ws s' with
            | 125 :: rest => Ret (JObj [], rest)
            | s1 => parse_members fuel' s1 []
            end
          else if c =? 91 then
            match skip_ws s' with
            | 93 :: rest => Ret (JArr [], rest)
            | s1 => parse_elements fuel' s1 []
            end
          else if c =? 45 then
            match scan_int s' with
            | Some (n, rest) => Ret (JInt (- n), rest)
            | None => Raise JSONDecodeError
            end
          else
            match strip_prefix (lit "null") s, strip_prefix (lit "true") s,
                  strip_prefix (lit "false") s with
            | Some rest, _, _ => Ret (JNull, rest)
            | _, Some rest, _ => Ret (JBool true, rest)
            | _, _, Some rest => Ret (JBool false, rest)
            | None, None, None =>
                match scan_int s with
                | Some (n, rest) => Ret (JInt n, rest)
                | None => Raise JSONDecodeError
                end
            end
      end
  end
with parse_members (fuel : nat) (s : list Z) (acc : list (list Z * json))
  : res (json * list Z) :=
  match fuel with
  | O => OutOfFuel
  | S fuel' =>
      match s with
      | 34 :: s' =>
          match scan_string s' [] with
          | None => Raise JSONDecodeError
          | Some (key, s1) =>
              match skip_ws s1 with
              | 58 :: s2 =>
                  '(v, s3) ← parse_value fuel' (skip_ws s2);
                  let acc' := dict_set acc key v in
                  match skip_ws s3 with
                  | 125 :: rest => Ret (JObj acc', rest)
                  | 44 :: s4 => parse_members fuel' (skip_ws s4) acc'
                  | _ => Raise JSONDecodeError
                  end
              | _ => Raise JSONDecodeError
              end
          end
      | _ => Raise JSONDecodeError
      end
  end
with parse_elements (fuel : nat) (s : list Z) (acc : list json)
  : res (json * list Z) :=
  match fuel with
  | O => OutOfFuel
  | S fuel' =>
      '(v, s1) ← parse_value fuel' s;
      match skip_ws s1 with
      | 93 :: rest => Ret (JArr (acc ++ [v]), rest)
      | 44 :: s2 => parse_elements fuel' (skip_ws s2) (acc ++ [v])
      | _ => Raise JSONDecodeError
      end
  end.

(** The fuel, above twice the length of the text, is more than the
    parser uses ([parse_fuel] below), so the last case is never reached. *)
Definition ref_loads (s : list Z) : exn + json :=
  match parse_value (S (2 * length s)) (skip_ws s) with
  | Ret (v, rest) =>
      match skip_ws rest with
      | [] => inr v
      | _ :: _ => inl JSONDecodeError
      end
  | Raise e => inl e
  | OutOfFuel => inl JSONDecodeError
  end.

Definition ref_runtime : runtime :=
  {| json_dumps := ref_dumps; json_loads := ref_loads;
     unicode_decimal := fun _ => None |}.


(** ** Vocabulary of the reference runtime's round trip *)

(** A code point that is not a surrogate. *)
Definition scalar (c : Z) : bool :=
  in_range 0 55296 c || in_range 57344 1114112 c.

Fixpoint has_str (keys : list (list Z)) (k : list Z) : bool :=
  match keys with
  | [] => false
  | k' :: keys' => str_eqb k' k || has_str keys' k
  end.

Fixpoint distinct (keys : list (list Z)) : bool :=
  match keys with
  | [] => true
  | k :: keys' => negb (has_str keys' k) && distinct keys'
  end.

(** The values the reference runtime prints and reads back: no float,
    strings and keys of scalar code points, no key twice in a dict. *)
Fixpoint plain (v : json) : bool :=
  match v with
  | JNull | JBool _ | JInt _ => true
  | JFloat _ => false
  | JStr s => forallb scalar s
  | JArr items => forallb plain items
  | JObj fields =>
      forallb (fun kv => forallb scalar (fst kv) && plain (snd kv)) fields
      && distinct (map fst fields)
  end.

(** The printer's loops over the items of a list and of a dict. *)
Fixpoint dumps_items (l : list json) (first : bool) : exn + list Z :=
  match l with
  | [] => inr []
  | x :: l' =>
      s ← ref_dumps x;
      r ← dumps_items l' false;
      inr ((if first then [] else lit ", ") ++ s ++ r)
  end.

Fixpoint dumps_fields (l : list (list Z * json)) (first : bool) : exn + list Z :=
  match l with
  | [] => inr []
  | (k, x) :: l' =>
      s ← ref_dumps x;
      r ← dumps_fields l' false;
      inr ((if first then [] else lit ", ")
           ++ json_string k ++ lit ": " ++ s ++ r)
  end.

(** What may follow a value in a text: nothing, or a character that ends
    a number. *)
Definition ends_number (rest : list Z) : bool :=
  match rest with
  | [] => true
  | c :: _ => negb (is_digit c || (c =? 46) || (c =? 101) || (c =? 69))
  end.

(** The characters a printed value starts with. *)
Definition starter (c : Z) : bool :=
  is_digit c || (c =? 45) || (c =? 34) || (c =? 91) || (c =? 123)
  || (c =? 110) || (c =? 116) || (c =? 102).

Fixpoint json_size (v : json) : nat :=
  match v with
  | JArr items => S (list_sum (map json_size items))
  | JObj fields => S (list_sum (map (fun kv => json_size (snd kv)) fields))
  | _ => 1
  end.

(** A value that the reader returns from its printed text, whatever
    follows that may follow a value. *)
Definition reads_back (v : json) : Prop :=
  forall (text rest : list Z) (fuel : nat),
    ref_dumps v = inr text -> ends_number rest = true ->
    (2 * length (text ++ rest) < fuel)%nat ->
    parse_value fuel (text ++ rest) = Ret (v, rest).


(** ** Vocabulary of the session proofs *)

Definition is_ascii (c : Z) : bool := in_range 0 128 c.

Definition digits_value (ds : list Z) (acc : Z) : Z :=
  fold_left (fun a d => a * 10 + (d - 48)) ds acc.

Definition world_of (stream : list Z) : world :=
  {| log := []; stdout_rest := stream; stdin_ops := 0; proc := Running |}.

Definition with_out (w : world) (acts : list action) (rest : list Z) : world :=
  {| log := log w ++ acts; stdout_rest := rest;
     stdin_ops := stdin_ops w; proc := proc w |}.

Definition relog (lg : list action) (w : world) : world :=
  {| log := lg; stdout_rest := stdout_rest w;
     stdin_ops := stdin_ops w; proc := proc w |}.

Definition cl_line (n : Z) : list Z :=
  lit "Content-Length: " ++ py_str_int n ++ CRLF.

Definition handle_body (rt : runtime) (data : list Z) : M unit :=
  body ← lift (utf8_decode data);
  msg ← lift (of_sum (json_loads rt body));
  _ ← emit (ADecoded msg);
  line ← lift (classify_incoming msg);
  print line.

Definition handle_line (rt : runtime) (line : list Z) : M unit :=
  line ← lift (utf8_decode line);
  if startswith line (lit "Content-Length:") then
    field ← lift (py_item (py_split 58 line) 1);
    cl ← lift (py_int (unicode_decimal rt) (py_strip field));
    _ ← stdout_readline;
    body ← stdout_read cl;
    handle_body rt body
  else mret tt.

Definition read_turn (rt : runtime) : M bool :=
  line ← stdout_readline;
  if is_empty line then mret false
  else _ ← handle_line rt line; mret true.

Definition Framed {A} (m : M A) : Prop :=
  forall w, exists delta, forall lg,
    m (relog lg w) = (fst (m w), relog (lg ++ delta) (snd (m w))).

Definition Steady {A} (m : M A) : Prop :=
  forall w, fst (m w) <> OutOfFuel /\
            (length (stdout_rest (snd (m w))) <= length (stdout_rest w))%nat.

(** A line the read loop passes over: it ends with its only newline,
    decodes, and does not start with [Content-Length:]. *)
Definition skippable (l : list Z) : bool :=
  match reverse l with
  | 10 :: r =>
      forallb (fun c => negb (c =? 10)) r
      && match utf8_decode l with
         | Ret s => negb (startswith s (lit "Content-Length:"))
         | _ => false
         end
  | _ => false
  end.

(** What a run of the read loop shows: how it ended, the messages it
    decoded and the lines it printed; the reads themselves are left out. *)
Definition is_read (a : action) : bool :=
  match a with
  | AStdoutReadline _ | AStdoutRead _ _ => true
  | _ => false
  end.

Definition decode_result (rt : runtime) (stream : list Z)
  : res unit * list action :=
  let r := read_loop rt (S (length stream)) (world_of stream) in
  (fst r, List.filter (fun a => negb (is_read a)) (log (snd r))).

(** The read loop with fuel for the whole of what is still to come. *)
Definition run_loop (rt : runtime) : M unit := fun w =>
  read_loop rt (S (length (stdout_rest w))) w.

(** The bytes written to the child's input. *)
Fixpoint written (l : list action) : list Z :=
  match l with
  | [] => []
  | AStdinWrite data :: l' => data ++ written l'
  | _ :: l' => written l'
  end.

Definition ct_line : list Z :=
  lit "Content-Type: application/vscode-jsonrpc; charset=utf-8" ++ CRLF.

(** The three ways the read loop reports a message. *)
Inductive kind : Type :=
| ErrorReply
| Notification
| Response.

Definition kind_of (line : event) : option kind :=
  match line with
  | PRecvError _ => Some ErrorReply
  | PRecvNotif _ => Some Notification
  | PRecvResp _ => Some Response
  | _ => None
  end.

(** The report on a dict, by its keys. *)
Definition classify_fields (fields : list (list Z * json)) : event :=
  if has_key fields (lit "error") then PRecvError (JObj fields)
  else match dict_get fields (lit "method") with
       | Some v => PRecvNotif v
       | None => PRecvResp (dict_get fields (lit "id"))
       end.

(** ** Concrete inputs *)

(** An environment in which everything works: the sample file holds one
    line and the child answers nothing. *)
Definition demo_env : env :=
  {| spawn_ok := true; stdin_fault := fun _ => false;
     input_file := inr (lit "fn main() = 0;");
     child_stdout := []; child_exited := false |}.

(** The ten bytes of the object with the one member [id], 123, written
    without blanks. *)
Definition short_body : list Z :=
  lit "{" ++ json_string (lit "id") ++ lit ":123}".

Definition extra_header : list Z := lit "X-Trace: 1" ++ CRLF.

(** ** Vocabulary of the scenario proofs *)

(** The messages [send] was called with, in order. *)
Fixpoint calls (l : list action) : list json :=
  match l with
  | [] => []
  | ACallSend m :: l' => m :: calls l'
  | _ :: l' => calls l'
  end.

(** The script of [run], for the text of the sample file. *)
Definition script (txt : list Z) : list json :=
  [msg_initialize; msg_initialized; msg_didOpen txt;
   msg_semanticTokens; msg_documentSymbol; msg_definition].

(** As much of the script as the environment lets [run] reach at best. *)
Definition script_of (ev : env) : list json :=
  match input_file ev with
  | inr txt => script txt
  | inl _ => [msg_initialize; msg_initialized]
  end.

Definition msg_id (m : json) : option json :=
  match m with
  | JObj fields => dict_get fields (lit "id")
  | _ => None
  end.

Definition msg_method (m : json) : option json :=
  match m with
  | JObj fields => dict_get fields (lit "method")
  | _ => None
  end.

Definition is_call (a : action) : bool :=
  match a with ACallSend _ => true | _ => false end.

Definition is_terminate (a : action) : bool :=
  match a with ATerminate => true | _ => false end.

(** Actions of the sending phase: no read of the child's output, no
    cleanup.  Actions of the reading phase: no call of [send], no cleanup. *)
Definition sending (a : action) : bool :=
  negb (is_read a) && negb (is_terminate a).

Definition reading (a : action) : bool :=
  negb (is_call a) && negb (is_terminate a).

(** [m] appends to the log only actions that satisfy [P]; the calls of
    [send] among them are the first of [cs], and all of [cs] when [m]
    returns. *)
Definition Sends {A} (P : action -> bool) (cs : list json) (m : M A) : Prop :=
  forall w, exists d,
    log (snd (m w)) = log w ++ d /\ forallb P d = true /\
    calls d `prefix_of` cs /\
    (forall a, fst (m w) = Ret a -> calls d = cs).

(** Method and identifier of each message of the script. *)
Definition script_ids : list (option json * option json) :=
  [(Some (JStr (lit "initialize")), Some (JInt 1));
   (Some (JStr (lit "initialized")), None);
   (Some (JStr (lit "textDocument/didOpen")), None);
   (Some (JStr (lit "textDocument/semanticTokens/full")), Some (JInt 2));
   (Some (JStr (lit "textDocument/documentSymbol")), Some (JInt 3));
   (Some (JStr (lit "textDocument/definition")), Some (JInt 4))].

Definition method_and_id (m : json) : option json * option json :=
  (msg_method m, msg_id m).

(** ** Vocabulary of the further properties *)

(** What a call of [send] that returns does, in order: nothing when the
    message cannot be sent. *)
Definition sent (rt : runtime) (m : json) : list action :=
  match json_dumps rt m with
  | inr content =>
      match utf8_encode content, py_get m (lit "method") with
      | Ret enc, Ret meth =>
          [ACallSend m; AStdinWrite (frame_header (Z.of_nat (length enc)));
           AStdinWrite enc; AStdinFlush; APrint (PSent meth)]
      | _, _ => []
      end
  | inl _ => []
  end.

(** What the sending phase of [run] does when nothing fails. *)
Definition sending_phase (rt : runtime) (txt : list Z) : list action :=
  sent rt msg_initialize ++ sent rt msg_initialized ++ [AOpenInput]
  ++ sent rt (msg_didOpen txt) ++ sent rt msg_semanticTokens
  ++ sent rt msg_documentSymbol ++ [APrint PSentDocumentSymbol]
  ++ sent rt msg_definition ++ [APrint PSentDefinition].

(** What the read loop shows of a message it has decoded. *)
Definition report (m : json) : list action :=
  match classify_incoming m with
  | Ret line => [ADecoded m; APrint line]
  | _ => [ADecoded m]
  end.

(** The world after [k] more operations on the child's input that added
    [acts] to the log. *)
Definition after_ops (w : world) (k : nat) (acts : list action) : world :=
  {| log := log w ++ acts; stdout_rest := stdout_rest w;
     stdin_ops := (k + stdin_ops w)%nat; proc := proc w |}.

(** An environment whose executable does not start, one whose sample
    file is missing, and one whose child does not take the first write. *)
Definition no_child_env : env :=
  {| spawn_ok := false; stdin_fault := fun _ => false;
     input_file := inr []; child_stdout := []; child_exited := false |}.

Definition no_file_env : env :=
  {| spawn_ok := true; stdin_fault := fun _ => false;
     input_file := inl OSError; child_stdout := lit "unread";
     child_exited := false |}.

Definition broken_pipe_env : env :=
  {| spawn_ok := true; stdin_fault := fun k => Nat.eqb k 7;
     input_file := inr []; child_stdout := lit "unread";
     child_exited := false |}.

(** A frame as the read loop expects it: the [Content-Length] line with
    the number of bytes of the body, the blank line, the body. *)
Definition frame (body : list Z) : list Z :=
  cl_line (Z.of_nat (length body)) ++ CRLF ++ body.

(** The bytes [body] decode, parse to [m] and [m] is reported. *)
Definition reads_as (rt : runtime) (body : list Z) (m : json) : Prop :=
  exists s line,
    utf8_decode body = Ret s /\ json_loads rt s = inr m /\
    classify_incoming m = Ret line.



(** A blank inside a header line: space, tab or carriage return. *)
Definition blank (c : Z) : bool := (c =? 32) || (c =? 9) || (c =? 13).

(** A [Content-Length] line with any blanks around the number and a bare
    newline at its end. *)
Definition lax_line (pad1 pad2 : list Z) (n : Z) : list Z :=
  lit "Content-Length:" ++ pad1 ++ py_str_int n ++ pad2 ++ [10].

(* ===================================================================== *)
(** * Part II: properties                                                 *)
(* ===================================================================== *)

(** ** Factorial *)

Lemma factorial_base (n : Z) : n <= 1 -> factorial n = 1.
Proof.
  intros Hn. simp factorial. destruct (Z_le_gt_dec n 1); [reflexivity | lia].
Qed.

Lemma factorial_step (n : Z) : 1 < n -> factorial n = n * factorial (n - 1).
Proof.
  intros Hn. rewrite factorial_equation_1.
  destruct (Z_le_gt_dec n 1); [lia | reflexivity].
Qed.

Lemma factorial_of_nat (k : nat) : factorial (Z.of_nat k) = Z.of_nat (fact k).
Proof.
  induction k as [|k IH].
  - apply factorial_base. lia.
  - destruct k as [|k].
    + apply factorial_base. lia.
    + rewrite factorial_step by lia.
      replace (Z.of_nat (S (S k)) - 1) with (Z.of_nat (S k)) by lia.
      rewrite IH. change (fact (S (S k))) with (S (S k) * fact (S k))%nat.
      lia.
Qed.

(** C9: on every non-negative integer the function returns the factorial,
    and on every integer at most 1, negative ones included, it returns 1. *)
Theorem factorial_spec (n : Z) :
  (0 <= n -> factorial n = Z.of_nat (fact (Z.to_nat n))) /\
  (n <= 1 -> factorial n = 1).
Proof.
  split.
  - intros Hn. rewrite <- (Z2Nat.id n) at 1 by assumption.
    apply factorial_of_nat.
  - apply factorial_base.
Qed.

Lemma factorial_spec_witness :
  factorial 5 = 120 /\ factorial (-3) = 1.
Proof.
  split.
  - rewrite (proj1 (factorial_spec 5)) by lia. reflexivity.
  - apply (proj2 (factorial_spec (-3))). lia.
Defined.

Example factorial_5 : factorial 5 = 120.
Proof. reflexivity. Qed.

Example run_sieve_100 : run_sieve 200 100 = Ret 25.
Proof. vm_compute. reflexivity. Qed.

Example run_sieve_2 : run_sieve 200 2 = Ret 1.
Proof. vm_compute. reflexivity. Qed.

(** ** Sieve: list access *)

Lemma py_index_in (arr : list Z) (i : Z) :
  0 <= i < Z.of_nat (length arr) -> py_index arr i = Ret (Z.to_nat i).
Proof.
  intros Hi. unfold py_index.
  destruct (0 <=? i) eqn:E1; [|lia].
  destruct (i <? Z.of_nat (length arr)) eqn:E2; [reflexivity | lia].
Qed.

Lemma py_setitem_in (arr : list Z) (i v : Z) :
  0 <= i < Z.of_nat (length arr) ->
  py_setitem arr i v = Ret (<[Z.to_nat i := v]> arr).
Proof. intros Hi. unfold py_setitem. rewrite py_index_in by assumption. reflexivity. Qed.

Lemma py_getitem_in (arr : list Z) (i v : Z) :
  0 <= i -> arr !! Z.to_nat i = Some v -> py_getitem arr i = Ret v.
Proof.
  intros Hi Hv. unfold py_getitem.
  rewrite py_index_in.
  - cbn. rewrite Hv. reflexivity.
  - apply lookup_lt_Some in Hv. lia.
Qed.

(** ** Sieve: the inner loops *)

Lemma init_sieve_spec (fuel : nat) (arr : list Z) (i size : Z) :
  0 <= i -> size = Z.of_nat (length arr) ->
  (0 < fuel)%nat -> size - i < Z.of_nat fuel ->
  exists arr', init_sieve fuel arr i size = Ret arr' /\
    length arr' = length arr /\
    forall j, 0 <= j < size ->
      arr' !! Z.to_nat j = if decide (i <= j) then Some 1 else arr !! Z.to_nat j.
Proof.
  revert arr i. induction fuel as [|fuel IH]; intros arr i Hi Hsz Hf0 Hf; [lia|].
  cbn [init_sieve]. destruct (i <? size) eqn:E.
  - apply Z.ltb_lt in E. rewrite py_setitem_in by lia. cbn.
    destruct (IH (<[Z.to_nat i := 1]> arr) (i + 1)) as (arr' & Hr & Hl & Hp).
    + lia.
    + rewrite length_insert. assumption.
    + lia.
    + lia.
    + exists arr'. rewrite length_insert in Hl. split; [assumption|]. split; [assumption|].
      intros j Hj. rewrite Hp by assumption.
      destruct (decide (i + 1 <= j)), (decide (i <= j)); try lia; try reflexivity.
      * assert (j = i) by lia. subst j. apply list_lookup_insert_eq. lia.
      * apply list_lookup_insert_ne. lia.
  - apply Z.ltb_ge in E. exists arr. split; [reflexivity|]. split; [reflexivity|].
    intros j Hj. destruct (decide (i <= j)); [lia | reflexivity].
Qed.

Lemma clear_multiples_spec (fuel : nat) (arr : list Z) (factor num size : Z) :
  0 < factor -> 0 <= num -> size = Z.of_nat (length arr) ->
  (0 < fuel)%nat -> size - num < Z.of_nat fuel ->
  exists arr', clear_multiples fuel arr factor num size = Ret arr' /\
    length arr' = length arr /\
    forall j, 0 <= j < size ->
      arr' !! Z.to_nat j =
        if decide (cleared factor num j) then Some 0 else arr !! Z.to_nat j.
Proof.
  intros Hfac. revert arr num.
  induction fuel as [|fuel IH]; intros arr num Hn Hsz Hf0 Hf; [lia|].
  cbn [clear_multiples]. destruct (num <? size) eqn:E.
  - apply Z.ltb_lt in E. rewrite py_setitem_in by lia. cbn.
    destruct (IH (<[Z.to_nat num := 0]> arr) (num + factor)) as (arr' & Hr & Hl & Hp).
    + lia.
    + rewrite length_insert. assumption.
    + lia.
    + lia.
    + exists arr'. rewrite length_insert in Hl. split; [assumption|]. split; [assumption|].
      intros j Hj. rewrite Hp by assumption. unfold cleared.
      destruct (decide (j = num)) as [->|Hne].
      * rewrite list_lookup_insert_eq by lia.
        rewrite (decide_True (P := num <= num /\ _)).
        2:{ split; [lia|]. replace (num - num) with 0 by lia. apply Z.mod_0_l. lia. }
        destruct (decide _); reflexivity.
      * rewrite list_lookup_insert_ne by lia.
        assert (Heq : (num + factor <= j /\ (j - (num + factor)) mod factor = 0) <->
                      (num <= j /\ (j - num) mod factor = 0)).
        { replace (j - (num + factor)) with ((j - num) + (-1) * factor) by lia.
          rewrite Z_mod_plus_full. split; intros [H1 H2]; (split; [|assumption]).
          - lia.
          - destruct (Z.eq_dec (j - num) 0); [lia|].
            destruct (Z_lt_le_dec (j - num) factor) as [Hlt|]; [|lia].
            rewrite Z.mod_small in H2 by lia. lia. }
        destruct (decide (num + factor <= j /\ _)), (decide (num <= j /\ _));
          tauto || reflexivity.
  - apply Z.ltb_ge in E. exists arr. split; [reflexivity|]. split; [reflexivity|].
    intros j Hj. rewrite decide_False; [reflexivity|]. unfold cleared. lia.
Qed.

Lemma find_next_prime_spec (fuel : nat) (arr : list Z) (i limit : Z) :
  0 <= i -> limit < Z.of_nat (length arr) ->
  (0 < fuel)%nat -> limit + 1 - i < Z.of_nat fuel ->
  exists r, find_next_prime fuel arr i limit = Ret r /\
    ((r = 0 /\ forall j, i <= j <= limit -> arr !! Z.to_nat j <> Some 1) \/
     (i <= r <= limit /\ arr !! Z.to_nat r = Some 1 /\
      forall j, i <= j < r -> arr !! Z.to_nat j <> Some 1)).
Proof.
  revert i. induction fuel as [|fuel IH]; intros i Hi Hlim Hf0 Hf; [lia|].
  cbn [find_next_prime]. destruct (i <=? limit) eqn:E.
  - apply Z.leb_le in E.
    destruct (lookup_lt_is_Some_2 arr (Z.to_nat i)) as [v Hv]; [lia|].
    rewrite (py_getitem_in _ _ _ Hi Hv). cbn.
    destruct (v =? 1) eqn:Ev.
    + apply Z.eqb_eq in Ev. subst v. exists i. split; [reflexivity|].
      right. split; [lia|]. split; [assumption|]. intros j Hj. lia.
    + apply Z.eqb_neq in Ev.
      destruct (IH (i + 1)) as (r & Hr & Hcase); [lia | lia | lia | lia |].
      exists r. split; [assumption|].
      assert (Hi1 : forall j, j = i -> arr !! Z.to_nat j <> Some 1).
      { intros j -> Heq. rewrite Hv in Heq. congruence. }
      destruct Hcase as [[-> Hnone] | (Hrange & Hone & Hnone)].
      * left. split; [reflexivity|]. intros j Hj.
        destruct (Z.eq_dec j i); [auto | apply Hnone; lia].
      * right. split; [lia|]. split; [assumption|]. intros j Hj.
        destruct (Z.eq_dec j i); [auto | apply Hnone; lia].
  - apply Z.leb_gt in E. exists 0. split; [reflexivity|].
    left. split; [reflexivity|]. intros j Hj. lia.
Qed.

Lemma isqrt_spec (fuel : nat) (n guess : Z) :
  1 <= n -> Z.sqrt n <= guess ->
  guess - Z.sqrt n < Z.of_nat fuel ->
  isqrt fuel n guess = Ret (Z.sqrt n).
Proof.
  intros Hn. pose proof (Z.sqrt_spec n ltac:(lia)) as Hs. cbv zeta in Hs.
  assert (Hs1 : 1 <= Z.sqrt n).
  { destruct (Z_lt_le_dec (Z.sqrt n) 1); [|assumption].
    pose proof (Z.sqrt_nonneg n). assert (Z.sqrt n = 0) as H0 by lia.
    rewrite H0 in Hs. lia. }
  revert guess. induction fuel as [|fuel IH]; intros guess Hg Hf; [lia|].
  cbn [isqrt]. unfold py_floordiv.
  destruct (guess =? 0) eqn:E0; [apply Z.eqb_eq in E0; lia|]. cbn.
  assert (Hlow : 2 * Z.sqrt n - guess <= n / guess).
  { apply Z.div_le_lower_bound; [lia|]. nia. }
  destruct ((guess + n / guess) / 2 >=? guess) eqn:E.
  - apply Z.geb_le in E.
    destruct (Z.eq_dec guess (Z.sqrt n)) as [->|Hne]; [reflexivity|].
    exfalso.
    assert (Hq : n / guess < guess).
    { apply Z.div_lt_upper_bound; [lia|]. nia. }
    assert ((guess + n / guess) / 2 < guess).
    { apply Z.div_lt_upper_bound; lia. }
    lia.
  - assert (Hlt : (guess + n / guess) / 2 < guess).
    { destruct (Z_lt_le_dec ((guess + n / guess) / 2) guess); [assumption|].
      rewrite (proj2 (Z.geb_le _ _)) in E by assumption. discriminate. }
    apply IH.
    + apply Z.div_le_lower_bound; lia.
    + lia.
Qed.

Lemma count_primes_from_spec (fuel : nat) (arr : list Z) (size count i : Z) :
  0 <= i -> size = Z.of_nat (length arr) ->
  (0 < fuel)%nat -> size - i < Z.of_nat fuel ->
  count_primes_from fuel arr size count i =
    Ret (count + Z.of_nat (length (filter (fun v => v = 1) (drop (Z.to_nat i) arr)))).
Proof.
  revert count i. induction fuel as [|fuel IH]; intros count i Hi Hsz Hf0 Hf; [lia|].
  cbn [count_primes_from]. destruct (i <? size) eqn:E.
  - apply Z.ltb_lt in E.
    destruct (lookup_lt_is_Some_2 arr (Z.to_nat i)) as [v Hv]; [lia|].
    rewrite (py_getitem_in _ _ _ Hi Hv). cbn.
    rewrite IH by lia.
    rewrite (drop_S _ _ _ Hv). replace (Z.to_nat (i + 1)) with (S (Z.to_nat i)) by lia.
    f_equal. rewrite filter_cons.
    destruct (v =? 1) eqn:Ev.
    + apply Z.eqb_eq in Ev. rewrite decide_True by assumption. cbn [length]. lia.
    + apply Z.eqb_neq in Ev. rewrite decide_False by assumption. lia.
  - apply Z.ltb_ge in E. rewrite drop_ge by lia. cbn. f_equal. lia.
Qed.

(** ** Sieve: number theory *)

Lemma trial_spec (k : nat) (p : Z) :
  trial k p = true <->
  forall d, 2 <= d <= Z.of_nat k + 1 -> ~ Z.divide d p.
Proof.
  induction k as [|k IH]; cbn [trial].
  - split; [intros _ d Hd; lia | reflexivity].
  - rewrite andb_true_iff, negb_true_iff, Z.eqb_neq, IH.
    rewrite Z.mod_divide by lia. split.
    + intros [Hlow Hk] d Hd.
      destruct (Z.eq_dec d (Z.of_nat k + 2)) as [->|Hne]; [assumption|].
      apply Hlow. lia.
    + intros H. split.
      * intros d Hd. apply H. lia.
      * apply H. lia.
Qed.

Lemma primeb_spec (p : Z) : primeb p = true <-> Z.prime p.
Proof.
  unfold primeb, Z.prime. rewrite andb_true_iff, Z.ltb_lt, trial_spec.
  split; intros [Hp H]; (split; [assumption|]); intros d Hd; apply H; lia.
Qed.

Lemma prime_dec (p : Z) : {Z.prime p} + {~ Z.prime p}.
Proof.
  destruct (primeb p) eqn:E.
  - left. apply primeb_spec. assumption.
  - right. intros H. apply primeb_spec in H. congruence.
Qed.

Lemma trial_false_divisor (k : nat) (p : Z) :
  trial k p = false ->
  exists d, 2 <= d <= Z.of_nat k + 1 /\ Z.divide d p.
Proof.
  induction k as [|k IH]; cbn [trial]; [discriminate|].
  intros H. apply andb_false_iff in H. destruct H as [H|H].
  - destruct (IH H) as (d & Hd & Hdiv). exists d. split; [lia | assumption].
  - apply negb_false_iff, Z.eqb_eq in H. rewrite Z.mod_divide in H by lia.
    exists (Z.of_nat k + 2). split; [lia | assumption].
Qed.

Lemma not_prime_divide (n : Z) :
  1 < n -> ~ Z.prime n -> exists d, 1 < d < n /\ Z.divide d n.
Proof.
  intros Hn Hnp. destruct (trial (Z.to_nat (n - 2)) n) eqn:E.
  - exfalso. apply Hnp, primeb_spec. unfold primeb.
    rewrite E. rewrite (proj2 (Z.ltb_lt 1 n)) by assumption. reflexivity.
  - destruct (trial_false_divisor _ _ E) as (d & Hd & Hdiv).
    exists d. split; [lia | assumption].
Qed.

Lemma prime_survives (f p : Z) : Z.prime p -> survives f p.
Proof.
  intros Hp d Hd Hdiv. pose proof (Z.prime_ge_2 p Hp).
  destruct (Z.divide_prime_r d p Hp Hdiv) as [?|[?|[?|?]]]; lia.
Qed.

Lemma prime_factor_exists (n : Z) :
  1 < n -> exists p, Z.prime p /\ Z.divide p n.
Proof.
  intros Hn. assert (Hpos : 0 <= n) by lia. revert Hn.
  pattern n. apply Z_lt_induction; [|assumption].
  clear n Hpos. intros n IH Hn.
  destruct (prime_dec n) as [Hp|Hnp].
  - exists n. split; [assumption | apply Z.divide_refl].
  - destruct (not_prime_divide n Hn Hnp) as (d & Hd & Hdiv).
    destruct (IH d ltac:(lia) ltac:(lia)) as (p & Hp & Hpd).
    exists p. split; [assumption | eapply Z.divide_trans; eassumption].
Qed.

Lemma composite_prime_factor (m : Z) :
  1 < m -> ~ Z.prime m -> exists p, Z.prime p /\ Z.divide p m /\ p * p <= m.
Proof.
  intros Hm Hnp.
  destruct (not_prime_divide m Hm Hnp) as (d & Hd & [k Hk]).
  assert (Hk1 : 1 < k) by nia.
  destruct (Z_le_gt_dec d k) as [Hle|Hgt].
  - destruct (prime_factor_exists d ltac:(lia)) as (p & Hp & Hpd).
    exists p. split; [assumption|]. split.
    + eapply Z.divide_trans; [eassumption|]. exists k. assumption.
    + pose proof (Z.divide_pos_le p d ltac:(lia) Hpd).
      pose proof (Z.prime_ge_2 p Hp). nia.
  - destruct (prime_factor_exists k ltac:(lia)) as (p & Hp & Hpk).
    exists p. split; [assumption|]. split.
    + eapply Z.divide_trans; [eassumption|]. exists d. lia.
    + pose proof (Z.divide_pos_le p k ltac:(lia) Hpk).
      pose proof (Z.prime_ge_2 p Hp). nia.
Qed.

(** Widening the range of excluded divisors across a gap with no prime. *)
Lemma survives_gap (f g m : Z) :
  0 < m ->
  (forall p, Z.prime p -> f <= p < g -> False) ->
  survives f m -> survives g m.
Proof.
  intros Hm Hgap Hs d Hd Hdiv.
  destruct (prime_factor_exists d ltac:(lia)) as (p & Hp & Hpd).
  pose proof (Z.divide_pos_le p d ltac:(lia) Hpd) as Hple.
  pose proof (Z.divide_pos_le d m Hm Hdiv) as Hdle.
  pose proof (Z.prime_ge_2 p Hp) as Hp1.
  destruct (Z_lt_le_dec p f) as [Hlt|Hge].
  - assert (p = m) by (apply Hs; [lia | eapply Z.divide_trans; eassumption]). lia.
  - exfalso. apply (Hgap p Hp). lia.
Qed.

Lemma survives_mono (f g m : Z) : g <= f -> survives f m -> survives g m.
Proof. intros Hle Hs d Hd. apply Hs. lia. Qed.

Lemma odd_prime_shape (p : Z) : Z.prime p -> 3 <= p -> p = 2 * (p / 2) + 1.
Proof.
  intros Hp H3. pose proof (Z.div_mod p 2 ltac:(lia)) as Hdm.
  pose proof (Z.mod_pos_bound p 2 ltac:(lia)) as Hb.
  destruct (Z.eq_dec (p mod 2) 0) as [H0|H1]; [|lia].
  exfalso. assert (Hdiv : Z.divide 2 p) by (exists (p / 2); lia).
  destruct (Z.divide_prime_r 2 p Hp Hdiv) as [?|[?|[?|?]]]; lia.
Qed.

(** The indices that [clear_multiples] clears from the square of an odd
    factor on are those of its odd multiples from the square on. *)
Lemma cleared_iff (r j : Z) :
  0 <= r -> 0 <= j ->
  cleared (r * 2 + 1) ((r * 2 + 1) * (r * 2 + 1) / 2) j <->
  (Z.divide (r * 2 + 1) (2 * j + 1) /\ (r * 2 + 1) * (r * 2 + 1) <= 2 * j + 1).
Proof.
  intros Hr Hj. unfold cleared.
  assert (Hstart : (r * 2 + 1) * (r * 2 + 1) / 2 = 2 * r * r + 2 * r).
  { replace ((r * 2 + 1) * (r * 2 + 1)) with (1 + (2 * r * r + 2 * r) * 2) by ring.
    rewrite Z.div_add by lia. reflexivity. }
  rewrite Hstart. rewrite Z.mod_divide by lia.
  split.
  - intros [Hle [t Ht]]. split.
    + exists (r * 2 + 1 + 2 * t). nia.
    + nia.
  - intros [[k Hk] Hsq].
    assert (Hkaf : r * 2 + 1 <= k) by nia.
    assert (Hodd : exists t, k - (r * 2 + 1) = 2 * t).
    { exists ((k - (r * 2 + 1)) / 2).
      pose proof (Z.div_mod (k - (r * 2 + 1)) 2 ltac:(lia)) as Hdm.
      pose proof (Z.mod_pos_bound (k - (r * 2 + 1)) 2 ltac:(lia)) as Hb.
      destruct (Z.eq_dec ((k - (r * 2 + 1)) mod 2) 0) as [H0|H1]; [lia|].
      exfalso.
      assert (Hk' : k = 2 * (r + (k - (r * 2 + 1)) / 2 + 1)) by lia.
      rewrite Hk' in Hk. lia. }
    destruct Hodd as [t Ht]. split.
    + nia.
    + exists t. nia.
Qed.

(** ** Sieve: the main loop *)

Lemma no_ones_no_primes (size f : Z) (arr : list Z) (a b : Z) :
  sieve_inv size f arr -> 1 <= a -> b < size ->
  (forall j, a <= j <= b -> arr !! Z.to_nat j <> Some 1) ->
  forall p, Z.prime p -> 2 * a + 1 <= p < 2 * b + 3 -> False.
Proof.
  intros [_ Hinv] Ha Hb Hnone p Hp Hrange.
  pose proof (odd_prime_shape p Hp ltac:(lia)) as Hshape.
  destruct (Hinv (p / 2) ltac:(lia)) as (v & Hv & Hiff).
  apply (Hnone (p / 2)); [lia|].
  rewrite Hv. f_equal. apply Hiff. split; [lia|].
  rewrite <- Hshape. apply prime_survives. assumption.
Qed.

Lemma sieve_inv_gap (size f g : Z) (arr : list Z) :
  sieve_inv size f arr ->
  (forall p, Z.prime p -> f <= p < g -> False) ->
  f <= g ->
  sieve_inv size g arr.
Proof.
  intros [Hlen Hinv] Hgap Hle. split; [assumption|].
  intros j Hj. destruct (Hinv j Hj) as (v & Hv & Hiff).
  exists v. split; [assumption|]. rewrite Hiff. split; intros [H1 H2]; (split; [assumption|]).
  - eapply survives_gap; [lia | eassumption | assumption].
  - eapply survives_mono; eassumption.
Qed.

Lemma sieve_step (size g r : Z) (arr arr' : list Z) :
  sieve_inv size (2 * g + 1) arr ->
  1 <= g -> g <= r < size ->
  (forall j, g <= j < r -> arr !! Z.to_nat j <> Some 1) ->
  length arr' = length arr ->
  (forall j, 0 <= j < size ->
     arr' !! Z.to_nat j =
       if decide (cleared (r * 2 + 1) ((r * 2 + 1) * (r * 2 + 1) / 2) j)
       then Some 0 else arr !! Z.to_nat j) ->
  sieve_inv size (2 * (r + 1) + 1) arr'.
Proof.
  intros Hinv Hg Hr Hnone Hlen Hpt.
  assert (Hinv' : sieve_inv size (r * 2 + 1) arr).
  { eapply sieve_inv_gap; [eassumption | | lia].
    intros p Hp Hrange.
    destruct (Z.eq_dec r g) as [->|Hne]; [lia|].
    eapply (no_ones_no_primes size (2 * g + 1) arr g (r - 1)); try eassumption; try lia.
    intros j Hj. apply Hnone. lia. }
  destruct Hinv' as [Hl Hinv']. split; [lia|].
  intros j Hj. rewrite Hpt by assumption.
  destruct (Hinv' j Hj) as (v & Hv & Hiff).
  assert (Hstep : survives (2 * (r + 1) + 1) (2 * j + 1) <->
                  survives (r * 2 + 1) (2 * j + 1) /\
                  (Z.divide (r * 2 + 1) (2 * j + 1) -> r * 2 + 1 = 2 * j + 1)).
  { split.
    - intros Hs. split.
      + eapply survives_mono; [|eassumption]. lia.
      + intros Hd. apply Hs; [lia | assumption].
    - intros [Hs Hd] d Hrange Hdiv.
      destruct (Z_lt_le_dec d (r * 2 + 1)); [apply Hs; [lia | assumption]|].
      destruct (Z.eq_dec d (r * 2 + 1)) as [->|Hne]; [apply Hd; assumption|].
      assert (d = 2 * (r + 1)) by lia. subst d.
      destruct Hdiv as [k Hk]. lia. }
  destruct (decide (cleared _ _ j)) as [Hc|Hnc].
  - exists 0. split; [reflexivity|]. split; [lia|].
    intros [Hj1 Hs]. exfalso.
    apply cleared_iff in Hc; [|lia|lia]. destruct Hc as [Hd Hsq].
    apply Hstep in Hs. destruct Hs as [_ Heq]. specialize (Heq Hd). nia.
  - exists v. split; [assumption|]. rewrite Hiff, Hstep.
    split; [|tauto]. intros [Hj1 Hs]. split; [assumption|]. split; [assumption|].
    intros [k Hk].
    destruct (Z.eq_dec k 1) as [->|Hk1]; [lia|].
    exfalso. assert (1 < k) by nia.
    destruct (Z_lt_le_dec k (r * 2 + 1)) as [Hlt|Hge].
    + assert (k = 2 * j + 1) by (apply Hs; [lia | exists (r * 2 + 1); lia]). nia.
    + apply Hnc. apply cleared_iff; [lia | lia |].
      split; [exists k; assumption | nia].
Qed.

Lemma sieve_exit (limit q size g : Z) (arr : list Z) :
  0 <= q -> q * q <= limit < (q + 1) * (q + 1) ->
  size = (limit + 1) / 2 ->
  sieve_inv size (2 * g + 1) arr -> 1 <= g ->
  (q < 2 * g + 1 \/
   (q / 2 < size /\ forall j, g <= j <= q / 2 -> arr !! Z.to_nat j <> Some 1)) ->
  sieved size arr.
Proof.
  intros Hq Hsqrt Hsize Hinv Hg Hexit.
  pose proof Hinv as [Hlen Hpt]. split; [assumption|].
  intros j Hj. destruct (Hpt j Hj) as (v & Hv & Hiff).
  exists v. split; [assumption|]. rewrite Hiff.
  assert (Hm : 2 * j + 1 <= limit).
  { pose proof (Z.div_mod (limit + 1) 2 ltac:(lia)).
    pose proof (Z.mod_pos_bound (limit + 1) 2 ltac:(lia)). lia. }
  split.
  - intros [Hj1 Hs].
    destruct (prime_dec (2 * j + 1)) as [Hp|Hnp]; [assumption|]. exfalso.
    destruct (composite_prime_factor (2 * j + 1) ltac:(lia) Hnp)
      as (p & Hp & Hdiv & Hsq).
    pose proof (Z.prime_ge_2 p Hp) as Hp2.
    assert (Hpq : p <= q) by nia.
    destruct (Z_lt_le_dec p (2 * g + 1)) as [Hlt|Hge].
    + assert (p = 2 * j + 1) by (apply Hs; [lia | assumption]). nia.
    + destruct Hexit as [Hlt | [Hq2 Hnone]]; [lia|].
      eapply (no_ones_no_primes size (2 * g + 1) arr g (q / 2));
        try eassumption.
      pose proof (Z.div_mod q 2 ltac:(lia)).
      pose proof (Z.mod_pos_bound q 2 ltac:(lia)). lia.
  - intros Hp. pose proof (Z.prime_ge_2 _ Hp). split; [lia|].
    apply prime_survives. assumption.
Qed.

Lemma sieve_loop_spec (limit q size : Z) :
  0 <= q -> q * q <= limit < (q + 1) * (q + 1) ->
  size = (limit + 1) / 2 -> q / 2 + 1 <= size ->
  forall (fuel : nat) (arr : list Z) (g : Z),
    sieve_inv size (2 * g + 1) arr -> 1 <= g <= size ->
    size - g < Z.of_nat fuel ->
    exists arr', sieve_loop fuel arr (2 * g + 1) q size = Ret arr' /\
                 sieved size arr'.
Proof.
  intros Hq Hsqrt Hsize Hq2.
  induction fuel as [|fuel IH]; intros arr g Hinv Hg Hf; [lia|].
  cbn [sieve_loop]. destruct (2 * g + 1 <=? q) eqn:E.
  - apply Z.leb_le in E.
    assert (Hhalf : (2 * g + 1) / 2 = g).
    { replace (2 * g + 1) with (1 + g * 2) by ring.
      rewrite Z.div_add by lia. reflexivity. }
    rewrite Hhalf. pose proof Hinv as [Hlen _].
    destruct (find_next_prime_spec (S fuel) arr g (q / 2))
      as (r & Hr & Hcase); [lia | lia | lia | lia |].
    rewrite Hr. cbn [mbind res_bind]. cbv zeta.
    destruct (r =? 0) eqn:Er.
    + apply Z.eqb_eq in Er. subst r. exists arr. split; [reflexivity|].
      destruct Hcase as [[_ Hnone] | [Hrange _]]; [|lia].
      eapply sieve_exit; try eassumption; [lia|]. right. split; [lia | assumption].
    + apply Z.eqb_neq in Er.
      destruct Hcase as [[H0 _] | (Hrange & Hone & Hnone)]; [contradiction|].
      destruct (clear_multiples_spec (S fuel) arr (r * 2 + 1)
                  ((r * 2 + 1) * (r * 2 + 1) / 2) size)
        as (arr' & Hc & Hl' & Hpt).
      * lia.
      * apply Z.div_pos; nia.
      * lia.
      * lia.
      * assert (r <= (r * 2 + 1) * (r * 2 + 1) / 2).
        { apply Z.div_le_lower_bound; nia. }
        lia.
      * rewrite Hc. cbn [mbind res_bind].
        replace (r * 2 + 1 + 2) with (2 * (r + 1) + 1) by ring.
        apply IH; [|lia|lia].
        eapply sieve_step; try eassumption; lia.
  - apply Z.leb_gt in E. exists arr. split; [reflexivity|].
    eapply sieve_exit; try eassumption; [lia|]. left. assumption.
Qed.

(** ** Sieve: counting *)

Lemma filter_ones_count (arr : list Z) (k : Z) :
  (forall i : nat, (i < length arr)%nat ->
     exists v, arr !! i = Some v /\
       (v = 1 <-> primeb (2 * (k + Z.of_nat i) + 1) = true)) ->
  length (filter (fun v => v = 1) arr) =
  length (filter (fun j => primeb (2 * j + 1) = true)
            (seqZ k (Z.of_nat (length arr)))).
Proof.
  revert k. induction arr as [|x arr IH]; intros k H; [reflexivity|].
  cbn [length]. rewrite seqZ_cons by lia.
  replace (Z.pred (Z.of_nat (S (length arr)))) with (Z.of_nat (length arr)) by lia.
  rewrite !filter_cons.
  destruct (H 0%nat ltac:(cbn; lia)) as (v & Hv & Hiff).
  cbn in Hv. injection Hv as <-. replace (k + Z.of_nat 0) with k in Hiff by lia.
  assert (Hrest : length (filter (fun v => v = 1) arr) =
                  length (filter (fun j => primeb (2 * j + 1) = true)
                            (seqZ (Z.succ k) (Z.of_nat (length arr))))).
  { apply IH. intros i Hi. destruct (H (S i) ltac:(cbn; lia)) as (w & Hw & Hiffw).
    exists w. split; [exact Hw|].
    replace (Z.succ k + Z.of_nat i) with (k + Z.of_nat (S i)) by lia. exact Hiffw. }
  destruct (decide (x = 1)) as [Hx|Hx], (decide (primeb (2 * k + 1) = true)) as [Hk|Hk];
    cbn [length]; try tauto; rewrite Hrest; reflexivity.
Qed.

Lemma prime_count_succ (n : Z) :
  1 <= n ->
  prime_count (n + 1) = prime_count n + (if primeb (n + 1) then 1 else 0).
Proof.
  intros Hn. unfold prime_count.
  replace (n + 1 - 1) with ((n - 1) + 1) by lia.
  rewrite seqZ_app by lia. rewrite list.filter_app, length_app.
  replace (2 + (n - 1)) with (n + 1) by lia.
  change (seqZ (n + 1) 1) with [n + 1]. rewrite filter_cons, filter_nil.
  destruct (primeb (n + 1)) eqn:E.
  - rewrite decide_True by reflexivity. cbn [length]. lia.
  - rewrite decide_False by discriminate. cbn [length]. lia.
Qed.

Lemma odd_prime_count_succ (k : Z) :
  0 <= k ->
  odd_prime_count (k + 1) =
  odd_prime_count k + (if primeb (2 * k + 1) then 1 else 0).
Proof.
  intros Hk. unfold odd_prime_count.
  rewrite seqZ_app by lia. rewrite list.filter_app, length_app.
  replace (0 + k) with k by lia.
  change (seqZ k 1) with [k]. rewrite filter_cons, filter_nil.
  destruct (primeb (2 * k + 1)) eqn:E.
  - rewrite decide_True by reflexivity. cbn [length]. lia.
  - rewrite decide_False by discriminate. cbn [length]. lia.
Qed.

Lemma primeb_even (k : Z) : 1 <= k -> primeb (2 * k + 2) = false.
Proof.
  intros Hk. destruct (primeb (2 * k + 2)) eqn:E; [|reflexivity].
  apply primeb_spec in E. destruct E as [_ H].
  exfalso. apply (H 2); [lia|]. exists (k + 1). lia.
Qed.

Lemma prime_count_even (k : nat) :
  prime_count (2 * Z.of_nat (S k)) = 1 + odd_prime_count (Z.of_nat (S k)).
Proof.
  induction k as [|k IH]; [reflexivity|].
  replace (2 * Z.of_nat (S (S k))) with (2 * Z.of_nat (S k) + 1 + 1) by lia.
  rewrite prime_count_succ by lia. rewrite prime_count_succ by lia. rewrite IH.
  replace (Z.of_nat (S (S k))) with (Z.of_nat (S k) + 1) by lia.
  rewrite odd_prime_count_succ by lia.
  replace (2 * Z.of_nat (S k) + 1 + 1) with (2 * Z.of_nat (S k) + 2) by lia.
  rewrite primeb_even by lia. lia.
Qed.

Lemma prime_count_halves (limit : Z) :
  2 <= limit -> prime_count limit = 1 + odd_prime_count ((limit + 1) / 2).
Proof.
  intros Hl.
  pose proof (Z.div_mod limit 2 ltac:(lia)) as Hdm.
  pose proof (Z.mod_pos_bound limit 2 ltac:(lia)) as Hb.
  assert (Hk : exists k : nat, limit / 2 = Z.of_nat (S k)).
  { exists (Z.to_nat (limit / 2 - 1)). lia. }
  destruct Hk as [k Hk].
  destruct (Z.eq_dec (limit mod 2) 0) as [H0|H1].
  - assert (limit = 2 * Z.of_nat (S k)) as -> by lia.
    replace (2 * Z.of_nat (S k) + 1) with (1 + Z.of_nat (S k) * 2) by ring.
    rewrite Z.div_add by lia. change (1 / 2) with 0. rewrite Z.add_0_l.
    apply prime_count_even.
  - assert (limit = 2 * Z.of_nat (S k) + 1) as -> by lia.
    replace (2 * Z.of_nat (S k) + 1 + 1) with (0 + (Z.of_nat (S k) + 1) * 2) by ring.
    rewrite Z.div_add by lia. change (0 / 2) with 0. rewrite Z.add_0_l.
    rewrite prime_count_succ by lia. rewrite prime_count_even.
    rewrite odd_prime_count_succ by lia. lia.
Qed.

Lemma sieved_count (size : Z) (arr : list Z) :
  sieved size arr ->
  Z.of_nat (length (filter (fun v => v = 1) arr)) = odd_prime_count size.
Proof.
  intros [Hlen Hpt]. unfold odd_prime_count. rewrite <- Hlen.
  rewrite (filter_ones_count arr 0); [reflexivity|].
  intros i Hi. destruct (Hpt (Z.of_nat i) ltac:(lia)) as (v & Hv & Hiff).
  exists v. rewrite Nat2Z.id in Hv. split; [assumption|].
  rewrite Hiff, primeb_spec. replace (0 + Z.of_nat i) with (Z.of_nat i) by lia.
  reflexivity.
Qed.

(** ** Sieve: the whole run *)

Lemma sqrt_le_half (limit : Z) : 2 <= limit -> Z.sqrt limit <= limit / 2.
Proof.
  intros Hl. pose proof (Z.sqrt_spec limit ltac:(lia)) as Hs. cbv zeta in Hs.
  pose proof (Z.sqrt_nonneg limit).
  apply Z.div_le_lower_bound; [lia|].
  destruct (Z_le_gt_dec (Z.sqrt limit) 1); [lia | nia].
Qed.

(** C10: for every limit of at least 2 the run ends, with any fuel above
    the limit, and returns the number of primes up to the limit. *)
Theorem run_sieve_correct (limit : Z) (fuel : nat) :
  2 <= limit -> limit < Z.of_nat fuel ->
  run_sieve fuel limit = Ret (prime_count limit).
Proof.
  intros Hl Hf. unfold run_sieve.
  pose proof (Z.div_mod (limit + 1) 2 ltac:(lia)) as Hdm.
  pose proof (Z.mod_pos_bound (limit + 1) 2 ltac:(lia)) as Hb.
  set (size := (limit + 1) / 2) in *.
  assert (Hsz : 1 <= size <= limit) by lia.
  pose proof (Z.sqrt_spec limit ltac:(lia)) as Hs. cbv zeta in Hs.
  pose proof (Z.sqrt_nonneg limit) as Hs0.
  pose proof (sqrt_le_half limit Hl) as Hhalf.
  pose proof (Z.div_mod limit 2 ltac:(lia)) as Hdm2.
  pose proof (Z.mod_pos_bound limit 2 ltac:(lia)) as Hb2.
  destruct (init_sieve_spec fuel (replicate (Z.to_nat size) 0) 0 size)
    as (arr1 & Hinit & Hlen1 & Hpt1).
  { lia. } { rewrite length_replicate. lia. } { lia. } { lia. }
  rewrite length_replicate in Hlen1.
  rewrite Hinit. cbn [mbind res_bind].
  rewrite py_setitem_in by lia. cbn [mbind res_bind].
  rewrite isqrt_spec; [|lia|assumption|lia]. cbn [mbind res_bind].
  destruct (sieve_loop_spec limit (Z.sqrt limit) size Hs0 ltac:(lia) eq_refl
              ltac:(pose proof (Z.div_mod (Z.sqrt limit) 2 ltac:(lia));
                    pose proof (Z.mod_pos_bound (Z.sqrt limit) 2 ltac:(lia));
                    lia)
              fuel (<[Z.to_nat 0 := 0]> arr1) 1)
    as (arr2 & Hloop & Hsieved).
  - split; [rewrite length_insert; lia|].
    intros j Hj. destruct (Z.eq_dec j 0) as [->|Hne].
    + exists 0. split; [apply list_lookup_insert_eq; lia|]. lia.
    + exists 1. split.
      * rewrite list_lookup_insert_ne by lia. rewrite Hpt1 by lia.
        rewrite decide_True by lia. reflexivity.
      * split; [|reflexivity]. intros _. split; [lia|].
        intros d Hd [k Hk]. assert (d = 2) by lia. subst d. lia.
  - lia.
  - lia.
  - change (2 * 1 + 1) with 3 in Hloop. rewrite Hloop. cbn [mbind res_bind].
    unfold count_primes. pose proof Hsieved as [Hlen2 _].
    rewrite count_primes_from_spec by lia.
    change (Z.to_nat 0) with 0%nat. rewrite drop_0.
    rewrite (sieved_count _ _ Hsieved). rewrite prime_count_halves by assumption.
    reflexivity.
Qed.

Lemma run_sieve_correct_witness : run_sieve 31 30 = Ret 10.
Proof. apply (run_sieve_correct 30 31); lia. Defined.

(** ** Text: UTF-8 *)

Ltac dlia := Z.div_mod_to_equations; lia.

Lemma in_range_true (lo hi c : Z) : lo <= c < hi -> in_range lo hi c = true.
Proof. intros H. unfold in_range. apply andb_true_iff. split; lia. Qed.

Lemma in_range_false (lo hi c : Z) : c < lo \/ hi <= c -> in_range lo hi c = false.
Proof. intros H. unfold in_range. apply andb_false_iff. lia. Qed.

Lemma in_range_spec (lo hi c : Z) : in_range lo hi c = true <-> lo <= c < hi.
Proof. unfold in_range. rewrite andb_true_iff. lia. Qed.

Lemma in_range_cases (lo hi c : Z) :
  (in_range lo hi c = true /\ lo <= c < hi) \/
  (in_range lo hi c = false /\ (c < lo \/ hi <= c)).
Proof.
  destruct (in_range lo hi c) eqn:E.
  - left. split; [reflexivity|]. apply in_range_spec. assumption.
  - right. split; [reflexivity|].
    destruct (Z_lt_le_dec c lo); [lia|]. destruct (Z_lt_le_dec c hi); [|lia].
    rewrite in_range_true in E by lia. discriminate.
Qed.

Lemma utf8_decode_encode_cp (c : Z) (b rest : list Z) :
  utf8_encode_cp c = Ret b ->
  utf8_decode (b ++ rest) = (s ← utf8_decode rest; Ret (c :: s)).
Proof.
  unfold utf8_encode_cp.
  destruct (in_range_cases 0 128 c) as [[-> H1]|[-> H1]].
  { intros [= <-]. cbn [app utf8_decode]. rewrite in_range_true by lia. reflexivity. }
  destruct (in_range_cases 128 2048 c) as [[-> H2]|[-> H2]].
  { intros [= <-]. cbn [app utf8_decode]. cbv zeta. unfold is_cont.
    rewrite (in_range_false 0 128) by dlia.
    rewrite (in_range_true 192 224) by dlia.
    rewrite (in_range_true 128 192) by dlia.
    replace ((192 + c / 64 - 192) * 64 + (128 + c mod 64 - 128)) with c by dlia.
    rewrite (proj2 (Z.leb_le 128 c)) by lia. reflexivity. }
  destruct (in_range_cases 2048 65536 c) as [[-> H3]|[-> H3]].
  { destruct (in_range_cases 55296 57344 c) as [[-> H4]|[E4 H4]]; [discriminate|].
    rewrite E4. intros [= <-]. cbn [app utf8_decode]. cbv zeta. unfold is_cont.
    rewrite (in_range_false 0 128) by dlia.
    rewrite (in_range_false 192 224) by dlia.
    rewrite (in_range_true 224 240) by dlia.
    rewrite !(in_range_true 128 192) by dlia.
    replace ((224 + c / 4096 - 224) * 4096 + (128 + (c / 64) mod 64 - 128) * 64
             + (128 + c mod 64 - 128)) with c by dlia.
    rewrite (proj2 (Z.leb_le 2048 c)) by lia. rewrite E4. reflexivity. }
  destruct (in_range_cases 65536 1114112 c) as [[E5 H5]|[-> H5]]; [|discriminate].
  rewrite E5. intros [= <-]. cbn [app utf8_decode]. cbv zeta. unfold is_cont.
  rewrite (in_range_false 0 128) by dlia.
  rewrite (in_range_false 192 224) by dlia.
  rewrite (in_range_false 224 240) by dlia.
  rewrite (in_range_true 240 248) by dlia.
  rewrite !(in_range_true 128 192) by dlia.
  replace ((240 + c / 262144 - 240) * 262144 + (128 + (c / 4096) mod 64 - 128) * 4096
           + (128 + (c / 64) mod 64 - 128) * 64 + (128 + c mod 64 - 128))
    with c by dlia.
  rewrite E5. reflexivity.
Qed.

(** What [encode] produces, [decode] reads back. *)
Lemma utf8_decode_encode (s b : list Z) :
  utf8_encode s = Ret b -> utf8_decode b = Ret s.
Proof.
  revert b. induction s as [|c s IH]; intros b; cbn [utf8_encode].
  - intros [= <-]. reflexivity.
  - destruct (utf8_encode_cp c) as [bc| |] eqn:Ec; cbn; try discriminate.
    destruct (utf8_encode s) as [bs| |] eqn:Es; cbn; try discriminate.
    intros [= <-]. rewrite (utf8_decode_encode_cp _ _ _ Ec).
    rewrite (IH bs eq_refl). reflexivity.
Qed.

Lemma utf8_encode_ascii (s : list Z) :
  forallb is_ascii s = true -> utf8_encode s = Ret s.
Proof.
  induction s as [|c s IH]; cbn [forallb utf8_encode]; [reflexivity|].
  intros H. apply andb_true_iff in H. destruct H as [Hc Hs].
  unfold utf8_encode_cp. unfold is_ascii in Hc. rewrite Hc. cbn.
  rewrite IH by assumption. reflexivity.
Qed.

Lemma utf8_decode_ascii (s : list Z) :
  forallb is_ascii s = true -> utf8_decode s = Ret s.
Proof.
  intros H. apply utf8_decode_encode, utf8_encode_ascii. assumption.
Qed.

(** ** Text: decimal numbers *)

Lemma log2_tenth (n : Z) : 10 <= n -> Z.log2 (n / 10) < Z.log2 n.
Proof.
  intros Hn. assert (Hm : 0 < n / 10) by dlia.
  pose proof (Z.log2_double (n / 10) Hm) as Hd.
  pose proof (Z.log2_le_mono (2 * (n / 10)) n ltac:(dlia)). lia.
Qed.

Lemma digits_of_spec (fuel : nat) (n : Z) :
  0 <= n -> Z.log2 n < Z.of_nat fuel ->
  digits_of fuel n <> [] /\
  forallb is_digit (digits_of fuel n) = true /\
  digits_value (digits_of fuel n) 0 = n.
Proof.
  revert n. induction fuel as [|fuel IH]; intros n Hn Hf.
  - pose proof (Z.log2_nonneg n). lia.
  - cbn [digits_of]. destruct (n <? 10) eqn:E.
    + apply Z.ltb_lt in E. split; [discriminate|]. split.
      * cbn. unfold is_digit. rewrite in_range_true by lia. reflexivity.
      * cbn. lia.
    + apply Z.ltb_ge in E. pose proof (log2_tenth n E) as Hl.
      destruct (IH (n / 10) ltac:(dlia) ltac:(lia)) as (Hne & Hd & Hv).
      split; [|split].
      * intros H. apply app_eq_nil in H. destruct H as [_ H]. discriminate.
      * rewrite forallb_app, Hd. cbn. unfold is_digit.
        rewrite in_range_true by dlia. reflexivity.
      * unfold digits_value in *. rewrite fold_left_app, Hv. cbn. dlia.
Qed.

Lemma py_str_int_nonneg (n : Z) :
  0 <= n ->
  py_str_int n <> [] /\
  forallb is_digit (py_str_int n) = true /\
  digits_value (py_str_int n) 0 = n.
Proof.
  intros Hn. unfold py_str_int.
  rewrite (proj2 (Z.ltb_ge n 0)) by assumption.
  apply digits_of_spec; [assumption|]. pose proof (Z.log2_nonneg n). lia.
Qed.

Lemma is_digit_facts (c : Z) :
  is_digit c = true ->
  (c <? 127) = true /\ c_isspace c = false /\ py_isspace c = false /\
  (c =? 45) = false /\ (c =? 43) = false /\ (c =? 95) = false /\
  (c =? 58) = false /\ (c =? 10) = false /\ is_ascii c = true.
Proof.
  unfold is_digit. intros H. apply in_range_spec in H.
  unfold c_isspace, py_isspace, is_ascii.
  rewrite !(in_range_false _ _ c) by lia. rewrite (in_range_true 0 128) by lia.
  repeat split; try (apply Z.ltb_lt; lia); try (apply Z.eqb_neq; lia).
  all: repeat (rewrite (proj2 (Z.eqb_neq c _)) by lia); reflexivity.
Qed.

Lemma int_digits_app (ds rest : list Z) (acc : Z) :
  forallb is_digit ds = true ->
  int_digits (ds ++ rest) acc false = int_digits rest (digits_value ds acc) false.
Proof.
  revert acc. induction ds as [|d ds IH]; intros acc H; [reflexivity|].
  cbn [forallb] in H. apply andb_true_iff in H. destruct H as [Hd Hds].
  cbn [app int_digits]. rewrite Hd. rewrite IH by assumption. reflexivity.
Qed.

Lemma py_int_digits (ud : Z -> option Z) (ds : list Z) :
  ds <> [] -> forallb is_digit ds = true ->
  py_int ud ds = Ret (digits_value ds 0).
Proof.
  intros Hne Hd. unfold py_int.
  assert (Hmap : map (int_normalize ud) ds = ds).
  { clear Hne. induction ds as [|d ds IH]; [reflexivity|].
    cbn [forallb] in Hd. apply andb_true_iff in Hd. destruct Hd as [H1 H2].
    cbn [map]. rewrite IH by assumption. unfold int_normalize.
    destruct (is_digit_facts d H1) as (-> & _). reflexivity. }
  rewrite Hmap. destruct ds as [|d ds]; [contradiction|].
  cbn [forallb] in Hd. apply andb_true_iff in Hd. destruct Hd as [H1 H2].
  destruct (is_digit_facts d H1) as (_ & Hsp & _ & H45 & H43 & _).
  cbn [skip_c_space]. rewrite Hsp, H45, H43.
  unfold int_unsigned. rewrite H1.
  pose proof (int_digits_app (d :: ds) [] 0) as Happ.
  rewrite app_nil_r in Happ. rewrite Happ.
  - reflexivity.
  - cbn [forallb]. rewrite H1, H2. reflexivity.
Qed.

(** ** Text: lines, fields and blanks *)

Lemma readline_line (l rest : list Z) :
  forallb (fun c => negb (c =? 10)) l = true ->
  readline (l ++ 10 :: rest) = (l ++ [10], rest).
Proof.
  induction l as [|c l IH]; intros H; [reflexivity|].
  cbn [forallb] in H. apply andb_true_iff in H. destruct H as [Hc Hl].
  apply negb_true_iff in Hc. cbn [app readline]. rewrite Hc.
  rewrite IH by assumption. reflexivity.
Qed.

Lemma readline_eof (l : list Z) :
  forallb (fun c => negb (c =? 10)) l = true -> readline l = (l, []).
Proof.
  induction l as [|c l IH]; intros H; [reflexivity|].
  cbn [forallb] in H. apply andb_true_iff in H. destruct H as [Hc Hl].
  apply negb_true_iff in Hc. cbn [readline]. rewrite Hc.
  rewrite IH by assumption. reflexivity.
Qed.

Lemma py_split_none (sep : Z) (b : list Z) :
  forallb (fun c => negb (c =? sep)) b = true -> py_split sep b = [b].
Proof.
  induction b as [|c b IH]; intros H; [reflexivity|].
  cbn [forallb] in H. apply andb_true_iff in H. destruct H as [Hc Hb].
  apply negb_true_iff in Hc. cbn [py_split]. rewrite Hc, IH by assumption.
  reflexivity.
Qed.

Lemma py_split_first (sep : Z) (a b : list Z) :
  forallb (fun c => negb (c =? sep)) a = true ->
  py_split sep (a ++ sep :: b) = a :: py_split sep b.
Proof.
  induction a as [|c a IH]; intros H.
  - cbn [app py_split]. rewrite Z.eqb_refl. reflexivity.
  - cbn [forallb] in H. apply andb_true_iff in H. destruct H as [Hc Ha].
    apply negb_true_iff in Hc. cbn [app py_split]. rewrite Hc, IH by assumption.
    reflexivity.
Qed.

Lemma forallb_reverse {A} (p : A -> bool) (l : list A) :
  forallb p (reverse l) = forallb p l.
Proof.
  induction l as [|x l IH]; [reflexivity|].
  rewrite reverse_cons, forallb_app, IH. cbn. rewrite andb_true_r.
  apply andb_comm.
Qed.

Lemma lstrip_digits (ds rest : list Z) :
  ds <> [] -> forallb is_digit ds = true -> lstrip (ds ++ rest) = ds ++ rest.
Proof.
  intros Hne Hd. destruct ds as [|d ds]; [contradiction|].
  cbn [forallb] in Hd. apply andb_true_iff in Hd. destruct Hd as [H1 _].
  destruct (is_digit_facts d H1) as (_ & _ & Hsp & _).
  cbn [app lstrip]. rewrite Hsp. reflexivity.
Qed.

(** The field of a [Content-Length] line, as [send] writes it, strips to
    the digits. *)
Lemma py_strip_field (ds : list Z) :
  ds <> [] -> forallb is_digit ds = true ->
  py_strip (32 :: ds ++ CRLF) = ds.
Proof.
  intros Hne Hd. unfold py_strip.
  change (lstrip (32 :: ds ++ CRLF)) with (lstrip (ds ++ CRLF)).
  rewrite lstrip_digits by assumption.
  unfold CRLF. rewrite reverse_app.
  change (reverse [13; 10]) with [10; 13].
  change (lstrip ([10; 13] ++ reverse ds)) with (lstrip (reverse ds)).
  pose proof (lstrip_digits (reverse ds) []) as H. rewrite !app_nil_r in H.
  rewrite H.
  - apply reverse_involutive.
  - intros E. apply Hne. rewrite <- (reverse_involutive ds), E. reflexivity.
  - rewrite forallb_reverse. assumption.
Qed.

(** ** The reference runtime: strings *)

Lemma hex_value_digit (d : Z) : 0 <= d < 16 -> hex_value (hex_digit d) = Some d.
Proof.
  intros Hd. unfold hex_value, hex_digit. destruct (d <? 10) eqn:E.
  - apply Z.ltb_lt in E. rewrite in_range_true by lia. f_equal. lia.
  - apply Z.ltb_ge in E. rewrite in_range_false by lia.
    rewrite in_range_true by lia. f_equal. lia.
Qed.

Lemma hex4_value_hex4 (n : Z) (rest : list Z) :
  0 <= n < 65536 ->
  exists h1 h2 h3 h4, hex4 n = [h1; h2; h3; h4] /\ hex4_value h1 h2 h3 h4 = Some n.
Proof.
  intros Hn. unfold hex4. do 4 eexists. split; [reflexivity|].
  unfold hex4_value. rewrite !hex_value_digit by dlia. f_equal. dlia.
Qed.

Lemma scan_string_unicode (n : Z) (rest acc : list Z) :
  0 <= n < 65536 -> in_range 55296 56320 n = false ->
  scan_string (92 :: 117 :: hex4 n ++ rest) acc = scan_string rest (n :: acc).
Proof.
  intros Hn Hs. destruct (hex4_value_hex4 n rest Hn) as (h1 & h2 & h3 & h4 & -> & Hv).
  cbn [app]. cbn [scan_string]. change (92 =? 34) with false. change (92 =? 92) with true.
  change (117 =? 117) with true. cbv beta iota. rewrite Hv, Hs. reflexivity.
Qed.

Lemma scan_string_pair (c : Z) (rest acc : list Z) :
  65536 <= c < 1114112 ->
  scan_string ((92 :: 117 :: hex4 (55296 + (c - 65536) / 1024))
               ++ (92 :: 117 :: hex4 (56320 + (c - 65536) mod 1024)) ++ rest) acc
  = scan_string rest (c :: acc).
Proof.
  intros Hc.
  destruct (hex4_value_hex4 (55296 + (c - 65536) / 1024) rest ltac:(dlia))
    as (h1 & h2 & h3 & h4 & -> & Hv1).
  destruct (hex4_value_hex4 (56320 + (c - 65536) mod 1024) rest ltac:(dlia))
    as (g1 & g2 & g3 & g4 & -> & Hv2).
  cbn [app]. cbn [scan_string]. change (92 =? 34) with false. change (92 =? 92) with true.
  change (117 =? 117) with true. cbv beta iota. rewrite Hv1.
  rewrite (in_range_true 55296 56320) by dlia. rewrite Hv2.
  rewrite (in_range_true 56320 57344) by dlia.
  f_equal. f_equal. dlia.
Qed.

Lemma scan_string_escape (c : Z) (rest acc : list Z) :
  scalar c = true ->
  scan_string (escape_char c ++ rest) acc = scan_string rest (c :: acc).
Proof.
  intros Hc. unfold scalar in Hc. apply orb_true_iff in Hc.
  assert (Hrange : 0 <= c < 55296 \/ 57344 <= c < 1114112).
  { destruct Hc as [Hc|Hc]; apply in_range_spec in Hc; lia. }
  clear Hc. unfold escape_char.
  destruct (Z.eqb_spec c 34) as [->|H34]; [reflexivity|].
  destruct (Z.eqb_spec c 92) as [->|H92]; [reflexivity|].
  destruct (Z.eqb_spec c 10) as [->|H10]; [reflexivity|].
  destruct (Z.eqb_spec c 13) as [->|H13]; [reflexivity|].
  destruct (Z.eqb_spec c 9) as [->|H9]; [reflexivity|].
  destruct (Z.eqb_spec c 8) as [->|H8]; [reflexivity|].
  destruct (Z.eqb_spec c 12) as [->|H12]; [reflexivity|].
  destruct (in_range_cases 32 127 c) as [[-> H]|[-> H]].
  - cbn [app scan_string].
    rewrite (proj2 (Z.eqb_neq c 34)), (proj2 (Z.eqb_neq c 92)) by assumption.
    rewrite (proj2 (Z.ltb_ge c 32)) by lia. reflexivity.
  - destruct (c <? 65536) eqn:E.
    + apply Z.ltb_lt in E. apply scan_string_unicode; [lia|].
      apply in_range_false. lia.
    + apply Z.ltb_ge in E. rewrite <- app_assoc. apply scan_string_pair. lia.
Qed.

Lemma scan_string_body (s rest acc : list Z) :
  forallb scalar s = true ->
  scan_string (concat (map escape_char s) ++ 34 :: rest) acc
  = Some (reverse acc ++ s, rest).
Proof.
  revert acc. induction s as [|c s IH]; intros acc Hs.
  - cbn [map concat app scan_string]. rewrite app_nil_r. reflexivity.
  - cbn [forallb] in Hs. apply andb_true_iff in Hs. destruct Hs as [Hc Hs].
    cbn [map concat]. rewrite <- app_assoc, scan_string_escape by assumption.
    rewrite IH by assumption. rewrite reverse_cons, <- app_assoc. reflexivity.
Qed.

(** A printed string is read back. *)
Lemma scan_json_string (s rest : list Z) :
  forallb scalar s = true ->
  exists tail, json_string s ++ rest = 34 :: tail /\
               scan_string tail [] = Some (s, rest).
Proof.
  intros Hs. exists (concat (map escape_char s) ++ 34 :: rest). split.
  - unfold json_string. cbn [app]. rewrite <- app_assoc. reflexivity.
  - apply (scan_string_body s rest [] Hs).
Qed.

(** ** The reference runtime: integers *)

Lemma digits_of_head (fuel : nat) (n : Z) :
  1 <= n -> Z.log2 n < Z.of_nat fuel ->
  exists d ds, digits_of fuel n = d :: ds /\ in_range 49 58 d = true.
Proof.
  revert n. induction fuel as [|fuel IH]; intros n Hn Hf.
  - pose proof (Z.log2_nonneg n). lia.
  - cbn [digits_of]. destruct (n <? 10) eqn:E.
    + apply Z.ltb_lt in E. exists (48 + n), []. split; [reflexivity|].
      apply in_range_true. lia.
    + apply Z.ltb_ge in E. pose proof (log2_tenth n E).
      destruct (IH (n / 10) ltac:(dlia) ltac:(lia)) as (d & ds & -> & Hd).
      exists d, (ds ++ [48 + n mod 10]). split; [reflexivity | assumption].
Qed.

Lemma scan_digits_app (ds rest : list Z) (acc : Z) :
  forallb is_digit ds = true -> ends_number rest = true ->
  scan_digits (ds ++ rest) acc = (digits_value ds acc, rest).
Proof.
  intros Hd Hr. revert acc. induction ds as [|d ds IH]; intros acc.
  - cbn [app digits_value fold_left]. destruct rest as [|c rest]; [reflexivity|].
    cbn [scan_digits]. cbn [ends_number] in Hr.
    apply negb_true_iff in Hr. rewrite !orb_false_iff in Hr.
    destruct Hr as [[[-> _] _] _]. reflexivity.
  - cbn [forallb] in Hd. apply andb_true_iff in Hd. destruct Hd as [H1 H2].
    cbn [app scan_digits]. rewrite H1. apply (IH H2).
Qed.

Lemma ends_number_dot (rest : list Z) :
  ends_number rest = true ->
  match rest with
  | [] => true
  | c :: _ => negb ((c =? 46) || (c =? 101) || (c =? 69))
  end = true.
Proof.
  destruct rest as [|c rest]; [reflexivity|]. cbn [ends_number].
  intros H. apply negb_true_iff in H. rewrite !orb_false_iff in H.
  destruct H as [[[_ ->] ->] ->]. reflexivity.
Qed.

Lemma scan_int_str (n : Z) (rest : list Z) :
  0 <= n -> ends_number rest = true ->
  scan_int (py_str_int n ++ rest) = Some (n, rest).
Proof.
  intros Hn Hr. pose proof (ends_number_dot rest Hr) as Hdot.
  destruct (Z.eq_dec n 0) as [->|Hnz].
  - change (py_str_int 0) with [48]. cbn [app scan_int].
    change (48 =? 48) with true. cbv beta iota. cbn [snd].
    destruct rest as [|c rest]; [reflexivity|].
    apply negb_true_iff in Hdot. rewrite Hdot. reflexivity.
  - destruct (py_str_int_nonneg n Hn) as (Hne & Hd & Hv).
    assert (Hhead : exists d ds, py_str_int n = d :: ds /\ in_range 49 58 d = true).
    { unfold py_str_int. rewrite (proj2 (Z.ltb_ge n 0)) by assumption.
      apply digits_of_head; [lia|]. pose proof (Z.log2_nonneg n). lia. }
    destruct Hhead as (d & ds & Heq & Hd1).
    pose proof (scan_digits_app (py_str_int n) rest 0 Hd Hr) as Hscan.
    rewrite Hv in Hscan. rewrite Heq in *. cbn [app] in *.
    unfold scan_int. apply in_range_spec in Hd1.
    rewrite (proj2 (Z.eqb_neq d 48)) by lia.
    rewrite (in_range_true 49 58) by lia.
    rewrite Hscan. cbn [snd].
    destruct rest as [|c rest]; [reflexivity|].
    apply negb_true_iff in Hdot. rewrite Hdot. reflexivity.
Qed.

(** ** The reference runtime: what is printed *)

Lemma ref_dumps_arr (items : list json) :
  ref_dumps (JArr items) =
  (body ← dumps_items items true; inr (91 :: body ++ [93])).
Proof. reflexivity. Qed.

Lemma ref_dumps_obj (fields : list (list Z * json)) :
  ref_dumps (JObj fields) =
  (body ← dumps_fields fields true; inr (123 :: body ++ [125])).
Proof. reflexivity. Qed.

Lemma py_str_int_head (n : Z) :
  exists c t, py_str_int n = c :: t /\ (is_digit c = true \/ c = 45).
Proof.
  unfold py_str_int. destruct (n <? 0) eqn:E.
  - eexists _, _. split; [reflexivity|]. right. reflexivity.
  - apply Z.ltb_ge in E. destruct (py_str_int_nonneg n E) as (Hne & Hd & _).
    unfold py_str_int in *. rewrite (proj2 (Z.ltb_ge n 0)) in * by assumption.
    destruct (digits_of _ n) as [|c t]; [contradiction|].
    cbn [forallb] in Hd. apply andb_true_iff in Hd. destruct Hd as [Hc _].
    exists c, t. split; [reflexivity|]. left. assumption.
Qed.

Lemma ref_dumps_head (v : json) (text : list Z) :
  ref_dumps v = inr text ->
  exists c t, text = c :: t /\ starter c = true.
Proof.
  destruct v as [|[|]|n| |s|items|fields].
  - intros [= <-]. eexists _, _. split; reflexivity.
  - intros [= <-]. eexists _, _. split; reflexivity.
  - intros [= <-]. eexists _, _. split; reflexivity.
  - cbn [ref_dumps]. intros [= <-].
    destruct (py_str_int_head n) as (c & t & -> & [Hc| ->]).
    + exists c, t. split; [reflexivity|]. unfold starter. rewrite Hc. reflexivity.
    + eexists _, _. split; reflexivity.
  - discriminate.
  - intros [= <-]. eexists _, _. split; reflexivity.
  - rewrite ref_dumps_arr. destruct (dumps_items items true); cbn; [discriminate|].
    intros [= <-]. eexists _, _. split; reflexivity.
  - rewrite ref_dumps_obj. destruct (dumps_fields fields true); cbn; [discriminate|].
    intros [= <-]. eexists _, _. split; reflexivity.
Qed.

Lemma starter_facts (c : Z) :
  starter c = true ->
  json_ws c = false /\ (c =? 93) = false /\ (c =? 125) = false.
Proof.
  unfold starter, json_ws, is_digit. intros H.
  repeat (apply orb_true_iff in H; destruct H as [H|H]);
    try (apply in_range_spec in H);
    try (apply Z.eqb_eq in H; subst c; repeat split; reflexivity).
  repeat split; try (apply Z.eqb_neq; lia).
  rewrite !(proj2 (Z.eqb_neq c _)) by lia. reflexivity.
Qed.

(** ** The reference runtime: lists and dicts *)

Lemma skip_ws_stop (c : Z) (t : list Z) :
  json_ws c = false -> skip_ws (c :: t) = c :: t.
Proof. intros H. cbn [skip_ws]. rewrite H. reflexivity. Qed.

Lemma skip_ws_space (s : list Z) : skip_ws (32 :: s) = skip_ws s.
Proof. reflexivity. Qed.

Lemma skip_ws_printed (v : json) (text rest : list Z) :
  ref_dumps v = inr text -> skip_ws (text ++ rest) = text ++ rest.
Proof.
  intros H. destruct (ref_dumps_head v text H) as (c & t & -> & Hc).
  apply skip_ws_stop. apply (starter_facts c Hc).
Qed.

Lemma parse_elements_S (f : nat) (s : list Z) (acc : list json) :
  parse_elements (S f) s acc =
  ('(v, s1) ← parse_value f s;
   match skip_ws s1 with
   | 93 :: rest => Ret (JArr (acc ++ [v]), rest)
   | 44 :: s2 => parse_elements f (skip_ws s2) (acc ++ [v])
   | _ => Raise JSONDecodeError
   end).
Proof. reflexivity. Qed.

Lemma parse_members_S (f : nat) (s' : list Z) (acc : list (list Z * json)) :
  parse_members (S f) (34 :: s') acc =
  match scan_string s' [] with
  | None => Raise JSONDecodeError
  | Some (key, s1) =>
      match skip_ws s1 with
      | 58 :: s2 =>
          '(v, s3) ← parse_value f (skip_ws s2);
          let acc' := dict_set acc key v in
          match skip_ws s3 with
          | 125 :: rest => Ret (JObj acc', rest)
          | 44 :: s4 => parse_members f (skip_ws s4) acc'
          | _ => Raise JSONDecodeError
          end
      | _ => Raise JSONDecodeError
      end
  end.
Proof. reflexivity. Qed.

Lemma parse_value_arr (f : nat) (c : Z) (t : list Z) :
  starter c = true ->
  parse_value (S f) (91 :: c :: t) = parse_elements f (c :: t) [].
Proof.
  intros Hc. destruct (starter_facts c Hc) as (Hws & H93 & _).
  apply Z.eqb_neq in H93.
  change (parse_value (S f) (91 :: c :: t)) with
    (match skip_ws (c :: t) with
     | 93 :: rest => Ret (JArr [], rest)
     | s1 => parse_elements f s1 []
     end).
  rewrite (skip_ws_stop c t Hws).
  destruct c as [|p|p]; try reflexivity.
  do 7 (try (destruct p as [p|p|]; try reflexivity)).
  contradiction H93. reflexivity.
Qed.

Lemma parse_value_digit (f : nat) (c : Z) (s : list Z) :
  is_digit c = true ->
  parse_value (S f) (c :: s) =
  match scan_int (c :: s) with
  | Some (n, rest) => Ret (JInt n, rest)
  | None => Raise JSONDecodeError
  end.
Proof.
  intros Hc. apply in_range_spec in Hc.
  cbn [parse_value].
  rewrite !(proj2 (Z.eqb_neq c _)) by lia.
  unfold strip_prefix.
  change (lit "null") with [110; 117; 108; 108].
  change (lit "true") with [116; 114; 117; 101].
  change (lit "false") with [102; 97; 108; 115; 101].
  cbn [startswith].
  rewrite !(proj2 (Z.eqb_neq _ c)) by lia. reflexivity.
Qed.

Lemma str_eqb_sym (a b : list Z) : str_eqb a b = str_eqb b a.
Proof.
  revert b. induction a as [|x a IH]; intros [|y b]; try reflexivity.
  cbn [str_eqb]. rewrite IH, Z.eqb_sym. reflexivity.
Qed.

Lemma has_str_app (l1 l2 : list (list Z)) (k : list Z) :
  has_str (l1 ++ l2) k = has_str l1 k || has_str l2 k.
Proof.
  induction l1 as [|k' l1 IH]; [reflexivity|].
  cbn [app has_str]. rewrite IH, orb_assoc. reflexivity.
Qed.

Lemma has_str_false (keys : list (list Z)) (k : list Z) :
  has_str keys k = false -> Forall (fun k' => str_eqb k' k = false) keys.
Proof.
  induction keys as [|k' keys IH]; intros H; [constructor|].
  cbn [has_str] in H. apply orb_false_iff in H. destruct H as [H1 H2].
  constructor; [assumption | apply (IH H2)].
Qed.

Lemma dict_set_new (acc : list (list Z * json)) (k : list Z) (v : json) :
  has_str (map fst acc) k = false -> dict_set acc k v = acc ++ [(k, v)].
Proof.
  induction acc as [|[k' v'] acc IH]; intros H; [reflexivity|].
  cbn [map fst has_str] in H. apply orb_false_iff in H. destruct H as [H1 H2].
  cbn [dict_set app]. rewrite H1, (IH H2). reflexivity.
Qed.

Ltac lengths H :=
  repeat (first [rewrite length_app in H | progress (cbn [length] in H)]);
  repeat (first [rewrite length_app | progress (cbn [length])]);
  lia.

Lemma elements_read_back (items : list json) :
  forall (x : json) (acc : list json) (rest : list Z) (fuel : nat)
         (tx body : list Z),
    Forall reads_back (x :: items) ->
    ref_dumps x = inr tx -> dumps_items items false = inr body ->
    (2 * length (tx ++ body ++ 93%Z :: rest) + 1 < fuel)%nat ->
    parse_elements fuel (tx ++ body ++ 93 :: rest) acc
    = Ret (JArr (acc ++ x :: items), rest).
Proof.
  induction items as [|y items IH]; intros x acc rest fuel tx body Hall Hx Hb Hf.
  - cbn [dumps_items] in Hb. injection Hb as <-. cbn [app] in *.
    destruct fuel as [|f]; [lia|]. rewrite parse_elements_S.
    apply Forall_cons_1 in Hall. destruct Hall as [Hrx _].
    rewrite (Hrx tx (93 :: rest) f Hx eq_refl) by (lengths Hf).
    reflexivity.
  - cbn [dumps_items] in Hb. change (lit ", ") with [44; 32] in Hb.
    destruct (ref_dumps y) as [|ty] eqn:Hy; [discriminate|].
    destruct (dumps_items items false) as [|r] eqn:Hr; [discriminate|].
    cbn [mbind sum_exn_bind app] in Hb. injection Hb as <-.
    destruct fuel as [|f]; [lia|]. rewrite parse_elements_S.
    apply Forall_cons_1 in Hall. destruct Hall as [Hrx Hall].
    cbn [app] in Hf |- *. rewrite <- !app_assoc.
    rewrite (Hrx tx (44 :: 32 :: ty ++ r ++ 93 :: rest) f Hx eq_refl)
      by (lengths Hf).
    cbn [mbind res_bind].
    rewrite (skip_ws_stop 44) by reflexivity.
    rewrite skip_ws_space, (skip_ws_printed y ty _ Hy).
    rewrite (IH y (acc ++ [x]) rest f ty r Hall Hy eq_refl).
    + rewrite <- app_assoc. reflexivity.
    + lengths Hf.
Qed.

Lemma dumps_fields_cons (k : list Z) (x : json) (l : list (list Z * json))
    (first : bool) :
  dumps_fields ((k, x) :: l) first =
  (s ← ref_dumps x;
   r ← dumps_fields l false;
   inr ((if first then [] else lit ", ") ++ json_string k ++ lit ": " ++ s ++ r)).
Proof. reflexivity. Qed.

Lemma members_read_back (fields : list (list Z * json)) :
  forall (k : list Z) (x : json) (acc : list (list Z * json))
         (rest : list Z) (fuel : nat) (tx body : list Z),
    Forall (fun kv => forallb scalar (fst kv) = true /\ reads_back (snd kv))
      ((k, x) :: fields) ->
    Forall (fun k' => has_str (map fst acc) k' = false) (k :: map fst fields) ->
    distinct (k :: map fst fields) = true ->
    ref_dumps x = inr tx -> dumps_fields fields false = inr body ->
    (2 * length (json_string k ++ 58%Z :: 32%Z :: tx ++ body ++ 125%Z :: rest)
     + 1 < fuel)%nat ->
    parse_members fuel (json_string k ++ 58 :: 32 :: tx ++ body ++ 125 :: rest) acc
    = Ret (JObj (acc ++ (k, x) :: fields), rest).
Proof.
  induction fields as [|[k2 y] fields IH];
    intros k x acc rest fuel tx body Hall Hnew Hdis Hx Hb Hf.
  - cbn [dumps_fields] in Hb. injection Hb as <-. cbn [app] in *.
    destruct fuel as [|f]; [lia|].
    apply Forall_cons_1 in Hall. destruct Hall as [[Hk Hrx] _].
    cbn [fst snd] in Hk, Hrx.
    destruct (scan_json_string k (58 :: 32 :: tx ++ 125 :: rest) Hk)
      as (tail & Heq & Hscan).
    assert (Hf1 : (2 * length (tx ++ 125%Z :: rest) < f)%nat) by (lengths Hf).
    rewrite Heq. rewrite parse_members_S, Hscan.
    rewrite (skip_ws_stop 58) by reflexivity.
    rewrite skip_ws_space, (skip_ws_printed x tx _ Hx).
    rewrite (Hrx tx (125 :: rest) f Hx eq_refl Hf1).
    cbn [mbind res_bind].
    apply Forall_cons_1 in Hnew. destruct Hnew as [Hnk _].
    rewrite (dict_set_new acc k x Hnk). reflexivity.
  - rewrite dumps_fields_cons in Hb.
    change (lit ", ") with [44; 32] in Hb. change (lit ": ") with [58; 32] in Hb.
    destruct (ref_dumps y) as [|ty] eqn:Hy; [discriminate|].
    destruct (dumps_fields fields false) as [|r] eqn:Hr; [discriminate|].
    remember (json_string k) as q eqn:Eq. remember (json_string k2) as q2 eqn:Eq2.
    cbn [mbind sum_exn_bind app] in Hb. injection Hb as <-.
    destruct fuel as [|f]; [lia|].
    apply Forall_cons_1 in Hall. destruct Hall as [[Hk Hrx] Hall].
    cbn [fst snd] in Hk, Hrx.
    repeat (first [rewrite <- app_assoc | progress (cbn [app])]).
    subst q q2.
    destruct (scan_json_string k
                (58 :: 32 :: tx ++ 44 :: 32 :: json_string k2 ++ 58 :: 32 :: ty
                 ++ r ++ 125 :: rest) Hk) as (tail & Heq & Hscan).
    assert (Hf1 : (2 * length (tx ++ 44%Z :: 32%Z :: json_string k2 ++ 58%Z
                               :: 32%Z :: ty ++ r ++ 125%Z :: rest) < f)%nat)
      by (lengths Hf).
    assert (Hf2 : (2 * length (json_string k2 ++ 58%Z :: 32%Z :: ty ++ r
                               ++ 125%Z :: rest) + 1 < f)%nat)
      by (lengths Hf).
    rewrite Heq. rewrite parse_members_S, Hscan.
    rewrite (skip_ws_stop 58) by reflexivity.
    rewrite skip_ws_space, (skip_ws_printed x tx _ Hx).
    rewrite (Hrx tx (44 :: 32 :: json_string k2 ++ 58 :: 32 :: ty ++ r
                     ++ 125 :: rest) f Hx eq_refl Hf1).
    cbn [mbind res_bind].
    apply Forall_cons_1 in Hnew. destruct Hnew as [Hnk Hnew].
    rewrite (dict_set_new acc k x Hnk).
    rewrite (skip_ws_stop 44) by reflexivity.
    rewrite skip_ws_space.
    assert (Hq : skip_ws (json_string k2 ++ 58 :: 32 :: ty ++ r ++ 125 :: rest)
                 = json_string k2 ++ 58 :: 32 :: ty ++ r ++ 125 :: rest)
      by reflexivity.
    rewrite Hq.
    cbn [distinct map fst] in Hdis. apply andb_true_iff in Hdis.
    destruct Hdis as [Hk1 Hdis]. apply negb_true_iff in Hk1.
    rewrite (IH k2 y (acc ++ [(k, x)]) rest f ty r Hall); try assumption.
    + rewrite <- app_assoc. reflexivity.
    + cbn [map fst] in Hnew. rewrite map_app. cbn [map fst].
      apply has_str_false in Hk1.
      rewrite Forall_forall in Hnew, Hk1. apply Forall_forall.
      intros k' Hin. rewrite has_str_app, (Hnew k' Hin). cbn [has_str orb].
      rewrite str_eqb_sym, (Hk1 k' Hin). reflexivity.
    + reflexivity.
Qed.

(** ** The reference runtime reads back what it prints *)

Lemma list_sum_cons (a : nat) (l : list nat) :
  list_sum (a :: l) = (a + list_sum l)%nat.
Proof. reflexivity. Qed.

Lemma json_size_item (x : json) (items : list json) :
  In x items -> (json_size x <= list_sum (map json_size items))%nat.
Proof.
  induction items as [|y items IH]; intros Hin; [destruct Hin|].
  cbn [map]. rewrite list_sum_cons. destruct Hin as [->|Hin]; [lia|].
  specialize (IH Hin). lia.
Qed.

Lemma json_size_field (kv : list Z * json) (fields : list (list Z * json)) :
  In kv fields ->
  (json_size (snd kv) <= list_sum (map (fun kv => json_size (snd kv)) fields))%nat.
Proof.
  induction fields as [|y fields IH]; intros Hin; [destruct Hin|].
  cbn [map]. rewrite list_sum_cons. destruct Hin as [->|Hin]; [lia|].
  specialize (IH Hin). lia.
Qed.

Lemma json_size_arr (items : list json) :
  json_size (JArr items) = S (list_sum (map json_size items)).
Proof. reflexivity. Qed.

Lemma json_size_obj (fields : list (list Z * json)) :
  json_size (JObj fields)
  = S (list_sum (map (fun kv => json_size (snd kv)) fields)).
Proof. reflexivity. Qed.

Lemma plain_reads_back (n : nat) :
  forall v : json, (json_size v <= n)%nat -> plain v = true -> reads_back v.
Proof.
  induction n as [|n IH]; intros v Hsize Hplain.
  { destruct v; cbn [json_size] in Hsize; lia. }
  destruct v as [|b|z|bits|s|items|fields].
  - intros text rest fuel [= <-] _ Hf. destruct fuel as [|f]; [lia|]. reflexivity.
  - intros text rest fuel Hd _ Hf. destruct fuel as [|f]; [lia|].
    destruct b; injection Hd as <-; reflexivity.
  - intros text rest fuel Hd Hrest Hf. destruct fuel as [|f]; [lia|].
    cbn [ref_dumps] in Hd. injection Hd as <-.
    destruct (Z.ltb_spec z 0) as [Hneg|Hpos].
    + assert (Hstr : py_str_int z = 45 :: py_str_int (- z)).
      { unfold py_str_int. rewrite (proj2 (Z.ltb_lt z 0)) by assumption.
        rewrite (proj2 (Z.ltb_ge (- z) 0)) by lia. reflexivity. }
      rewrite Hstr. cbn [app].
      change (parse_value (S f) (45 :: py_str_int (- z) ++ rest)) with
        (match scan_int (py_str_int (- z) ++ rest) with
         | Some (m, rest') => Ret (JInt (- m), rest')
         | None => Raise JSONDecodeError
         end).
      rewrite scan_int_str by (assumption || lia).
      rewrite Z.opp_involutive. reflexivity.
    + pose proof (scan_int_str z rest Hpos Hrest) as Hscan.
      destruct (py_str_int_head z) as (c & t & Heq & [Hc|Hc]).
      * rewrite Heq in *. cbn [app] in *.
        rewrite (parse_value_digit f c _ Hc), Hscan. reflexivity.
      * exfalso. destruct (py_str_int_nonneg z Hpos) as (_ & Hd & _).
        rewrite Heq, Hc in Hd. discriminate.
  - discriminate.
  - intros text rest fuel [= <-] _ Hf. destruct fuel as [|f]; [lia|].
    cbn [plain] in Hplain.
    destruct (scan_json_string s rest Hplain) as (tail & Heq & Hscan).
    rewrite Heq.
    change (parse_value (S f) (34 :: tail)) with
      (match scan_string tail [] with
       | Some (str, rest') => Ret (JStr str, rest')
       | None => Raise JSONDecodeError
       end).
    rewrite Hscan. reflexivity.
  - intros text rest fuel Hd Hrest Hf. destruct fuel as [|f]; [lia|].
    rewrite ref_dumps_arr in Hd.
    destruct items as [|x items].
    + cbn in Hd. injection Hd as <-. reflexivity.
    + cbn [dumps_items] in Hd.
      destruct (ref_dumps x) as [|tx] eqn:Hx; [discriminate|].
      destruct (dumps_items items false) as [|body] eqn:Hb; [discriminate|].
      cbn [mbind sum_exn_bind app] in Hd. injection Hd as <-.
      assert (Hall : Forall reads_back (x :: items)).
      { apply List.Forall_forall. intros y Hin. apply IH.
        - rewrite json_size_arr in Hsize.
          pose proof (json_size_item y (x :: items) Hin). lia.
        - cbn [plain] in Hplain. rewrite forallb_forall in Hplain.
          apply Hplain. assumption. }
      destruct (ref_dumps_head x tx Hx) as (c & t & -> & Hc).
      cbn [app] in Hf |- *. rewrite <- !app_assoc. cbn [app].
      rewrite (parse_value_arr f c _ Hc).
      apply (elements_read_back items x [] rest f (c :: t) body Hall Hx Hb).
      lengths Hf.
  - intros text rest fuel Hd Hrest Hf. destruct fuel as [|f]; [lia|].
    rewrite ref_dumps_obj in Hd.
    destruct fields as [|[k x] fields].
    + cbn in Hd. injection Hd as <-. reflexivity.
    + rewrite dumps_fields_cons in Hd.
      change (lit ": ") with [58; 32] in Hd.
      destruct (ref_dumps x) as [|tx] eqn:Hx; [discriminate|].
      destruct (dumps_fields fields false) as [|body] eqn:Hb; [discriminate|].
      remember (json_string k) as q eqn:Eq.
      cbn [mbind sum_exn_bind app] in Hd. injection Hd as <-.
      cbn [plain] in Hplain. apply andb_true_iff in Hplain.
      destruct Hplain as [Hpl Hdis]. rewrite forallb_forall in Hpl.
      assert (Hall : Forall (fun kv => forallb scalar (fst kv) = true
                                       /\ reads_back (snd kv))
                       ((k, x) :: fields)).
      { apply List.Forall_forall. intros kv Hin.
        specialize (Hpl kv Hin). apply andb_true_iff in Hpl.
        destruct Hpl as [Hk Hv]. split; [assumption|]. apply IH; [|assumption].
        rewrite json_size_obj in Hsize.
        pose proof (json_size_field kv ((k, x) :: fields) Hin). lia. }
      repeat (first [rewrite <- app_assoc | progress (cbn [app])]).
      assert (Hf1 : (2 * length (q ++ 58%Z :: 32%Z :: tx ++ body ++ 125%Z :: rest)
                     + 1 < f)%nat) by (lengths Hf).
      subst q.
      assert (Hq : exists tail, json_string k = 34 :: tail)
        by (eexists; reflexivity).
      destruct Hq as [tail Hq].
      change (parse_value (S f)
                (123 :: json_string k ++ 58 :: 32 :: tx ++ body ++ 125 :: rest))
        with
        (match skip_ws (json_string k ++ 58 :: 32 :: tx ++ body ++ 125 :: rest)
         with
         | 125 :: rest' => Ret (JObj [], rest')
         | s1 => parse_members f s1 []
         end).
      assert (Hskip : skip_ws (json_string k ++ 58 :: 32 :: tx ++ body
                               ++ 125 :: rest)
                      = json_string k ++ 58 :: 32 :: tx ++ body ++ 125 :: rest)
        by reflexivity.
      rewrite Hskip.
      transitivity (parse_members f (json_string k ++ 58 :: 32 :: tx ++ body
                                     ++ 125 :: rest) []).
      * rewrite Hq. reflexivity.
      * apply (members_read_back fields k x [] rest f tx body Hall);
          try assumption.
        apply List.Forall_forall. intros; reflexivity.
Qed.

(** The reference runtime reads back every plain value it prints. *)
Lemma ref_loads_dumps (v : json) (text : list Z) :
  plain v = true -> ref_dumps v = inr text -> ref_loads text = inr v.
Proof.
  intros Hplain Hd. unfold ref_loads.
  rewrite <- (app_nil_r text) at 2.
  rewrite (skip_ws_printed v text [] Hd).
  rewrite (plain_reads_back (json_size v) v (le_n _) Hplain text []
             (S (2 * length text)) Hd eq_refl).
  - reflexivity.
  - rewrite app_nil_r. lia.
Qed.

(** Every plain value is printed. *)
Lemma ref_dumps_plain (n : nat) :
  forall v : json, (json_size v <= n)%nat -> plain v = true ->
                   exists text, ref_dumps v = inr text.
Proof.
  induction n as [|n IH]; intros v Hsize Hplain.
  { destruct v; cbn [json_size] in Hsize; lia. }
  destruct v as [|[|]|z|bits|s|items|fields]; try (eexists; reflexivity).
  - discriminate.
  - rewrite ref_dumps_arr. rewrite json_size_arr in Hsize.
    cbn [plain] in Hplain.
    assert (Hitems : forall first, exists body, dumps_items items first = inr body).
    { induction items as [|x items IHi]; intros first; [eexists; reflexivity|].
      cbn [forallb] in Hplain. apply andb_true_iff in Hplain.
      destruct Hplain as [Hx Hrest]. cbn [map] in Hsize. rewrite list_sum_cons in Hsize.
      destruct (IH x ltac:(lia) Hx) as [tx Htx].
      destruct (IHi ltac:(lia) Hrest false) as [body Hbody].
      cbn [dumps_items]. rewrite Htx, Hbody. eexists; reflexivity. }
    destruct (Hitems true) as [body ->]. eexists; reflexivity.
  - rewrite ref_dumps_obj. rewrite json_size_obj in Hsize.
    cbn [plain] in Hplain. apply andb_true_iff in Hplain.
    destruct Hplain as [Hplain _].
    assert (Hfields : forall first, exists body, dumps_fields fields first = inr body).
    { induction fields as [|[k x] fields IHi]; intros first; [eexists; reflexivity|].
      cbn [forallb] in Hplain. apply andb_true_iff in Hplain.
      destruct Hplain as [Hx Hrest]. apply andb_true_iff in Hx.
      destruct Hx as [_ Hx]. cbn [snd] in Hx. cbn [map snd] in Hsize. rewrite list_sum_cons in Hsize.
      destruct (IH x ltac:(lia) Hx) as [tx Htx].
      destruct (IHi ltac:(lia) Hrest false) as [body Hbody].
      rewrite dumps_fields_cons, Htx, Hbody. eexists; reflexivity. }
    destruct (Hfields true) as [body ->]. eexists; reflexivity.
Qed.

Lemma ref_dumps_returns (v : json) :
  plain v = true -> exists text, ref_dumps v = inr text.
Proof. exact (ref_dumps_plain (json_size v) v (le_n _)). Qed.

(** The messages of the script are plain when the text of the input file
    has no surrogate; the reference runtime then reads each of them back. *)
Lemma script_plain (txt : list Z) :
  forallb scalar txt = true -> forallb plain (script txt) = true.
Proof.
  intros H. unfold script, msg_didOpen. cbn [forallb plain fst snd map].
  rewrite H. vm_compute. reflexivity.
Qed.

Lemma script_read_back (txt : list Z) (m : json) (content : list Z) :
  forallb scalar txt = true -> In m (script txt) ->
  json_dumps ref_runtime m = inr content ->
  json_loads ref_runtime content = inr m.
Proof.
  intros Htxt Hin Hd. pose proof (script_plain txt Htxt) as Hall.
  rewrite forallb_forall in Hall.
  exact (ref_loads_dumps m content (Hall m Hin) Hd).
Qed.

(** ** The read loop, one turn at a time *)

Lemma startswith_app (p s : list Z) : startswith (p ++ s) p = true.
Proof.
  induction p as [|x p IH]; [reflexivity|].
  cbn [app startswith]. rewrite Z.eqb_refl, IH. reflexivity.
Qed.

Lemma cl_line_facts (n : Z) :
  0 <= n ->
  forallb is_ascii (cl_line n) = true /\
  (forall rest, readline (cl_line n ++ rest) = (cl_line n, rest)) /\
  startswith (cl_line n) (lit "Content-Length:") = true /\
  py_item (py_split 58 (cl_line n)) 1 = Ret (32 :: py_str_int n ++ CRLF).
Proof.
  intros Hn. destruct (py_str_int_nonneg n Hn) as (Hne & Hd & Hv).
  assert (Hall : forall p : Z -> bool,
            (forall c, is_digit c = true -> p c = true) ->
            forallb p (py_str_int n) = true).
  { intros p Hp. clear Hne Hv. induction (py_str_int n) as [|d ds IH]; [reflexivity|].
    cbn [forallb] in *. apply andb_true_iff in Hd. destruct Hd as [H1 H2].
    rewrite (Hp d H1), IH by assumption. reflexivity. }
  split; [|split; [|split]].
  - unfold cl_line. rewrite !forallb_app. rewrite (Hall is_ascii).
    + reflexivity.
    + intros c Hc. apply is_digit_facts. assumption.
  - intros rest. unfold cl_line, CRLF.
    replace ((lit "Content-Length: " ++ py_str_int n ++ [13; 10]) ++ rest)
      with ((lit "Content-Length: " ++ py_str_int n ++ [13]) ++ 10 :: rest).
    2:{ rewrite <- !app_assoc. reflexivity. }
    rewrite readline_line.
    + rewrite <- !app_assoc. reflexivity.
    + rewrite !forallb_app. rewrite (Hall (fun c => negb (c =? 10))).
      * reflexivity.
      * intros c Hc. destruct (is_digit_facts c Hc) as (_&_&_&_&_&_&_&->&_). reflexivity.
  - unfold cl_line.
    change (lit "Content-Length: ") with (lit "Content-Length:" ++ [32]).
    rewrite <- app_assoc. apply startswith_app.
  - unfold cl_line.
    change (lit "Content-Length: " ++ py_str_int n ++ CRLF)
      with (lit "Content-Length" ++ 58 :: (32 :: py_str_int n ++ CRLF)).
    rewrite py_split_first by reflexivity.
    rewrite py_split_none; [reflexivity|].
    cbn [forallb]. rewrite forallb_app. rewrite (Hall (fun c => negb (c =? 58))).
    + reflexivity.
    + intros c Hc. destruct (is_digit_facts c Hc) as (_&_&_&_&_&_&->&_). reflexivity.
Qed.

Lemma read_loop_unfold (rt : runtime) (fuel : nat) (w : world) :
  read_loop rt (S fuel) w =
  (b ← read_turn rt; if (b : bool) then read_loop rt fuel else mret tt) w.
Proof.
  cbn [read_loop]. unfold read_turn, handle_line, handle_body, print.
  unfold mbind, M_bind, mret, M_ret, lift.
  repeat case_match; simplify_eq; try reflexivity.
Qed.

(** ** The session monad *)

Lemma relog_relog (lg lg' : list action) (w : world) :
  relog lg (relog lg' w) = relog lg w.
Proof. reflexivity. Qed.

Lemma relog_log (w : world) : relog (log w) w = w.
Proof. destruct w. reflexivity. Qed.

Lemma Framed_log {A} (m : M A) (w : world) :
  Framed m -> exists delta, log (snd (m w)) = log w ++ delta /\
    forall lg, m (relog lg w) = (fst (m w), relog (lg ++ delta) (snd (m w))).
Proof.
  intros H. destruct (H w) as [delta Hd]. exists delta. split; [|assumption].
  specialize (Hd (log w)). rewrite relog_log in Hd. rewrite Hd. reflexivity.
Qed.

Lemma Framed_lift {A} (r : res A) : Framed (lift r).
Proof. intros w. exists []. intros lg. cbn. rewrite app_nil_r. reflexivity. Qed.

Lemma Framed_ret {A} (a : A) : Framed (mret a : M A).
Proof. intros w. exists []. intros lg. cbn. rewrite app_nil_r. reflexivity. Qed.

Lemma Framed_emit (a : action) : Framed (emit a).
Proof. intros w. exists [a]. intros lg. reflexivity. Qed.

Lemma Framed_print (e : event) : Framed (print e).
Proof. apply Framed_emit. Qed.

Lemma Framed_terminate : Framed terminate.
Proof. intros w. exists [ATerminate]. intros lg. reflexivity. Qed.

Lemma Framed_stdout_readline : Framed stdout_readline.
Proof.
  intros w. exists [AStdoutReadline (fst (readline (stdout_rest w)))].
  intros lg. unfold stdout_readline. cbn [relog stdout_rest log stdin_ops proc].
  destruct (readline (stdout_rest w)). reflexivity.
Qed.

Lemma Framed_stdout_read (n : Z) : Framed (stdout_read n).
Proof.
  intros w. unfold stdout_read. destruct (n <? -1).
  - exists []. intros lg. cbn. rewrite app_nil_r. reflexivity.
  - exists [AStdoutRead n
              (take (if n =? -1 then length (stdout_rest w) else Z.to_nat n)
                 (stdout_rest w))].
    intros lg. reflexivity.
Qed.

Lemma Framed_stdin_op (ev : env) (a : action) : Framed (stdin_op ev a).
Proof.
  intros w. unfold stdin_op. cbn [relog stdout_rest log stdin_ops proc].
  destruct (stdin_fault ev (stdin_ops w)).
  - exists []. intros lg. cbn. rewrite app_nil_r. reflexivity.
  - exists [a]. intros lg. reflexivity.
Qed.

Lemma Framed_bind {A B} (m : M A) (k : A -> M B) :
  Framed m -> (forall a, Framed (k a)) -> Framed (m ≫= k).
Proof.
  intros Hm Hk w. destruct (Hm w) as [d1 H1].
  unfold mbind, M_bind. destruct (m w) as [[a|e|] w1] eqn:E; cbn [fst snd] in H1.
  - destruct (Hk a w1) as [d2 H2]. exists (d1 ++ d2). intros lg.
    rewrite H1, H2, app_assoc. reflexivity.
  - exists d1. intros lg. rewrite H1. reflexivity.
  - exists d1. intros lg. rewrite H1. reflexivity.
Qed.

Lemma Steady_lift {A} (r : res A) : r <> OutOfFuel -> Steady (lift r).
Proof. intros H w. split; [assumption | reflexivity]. Qed.

Lemma Steady_ret {A} (a : A) : Steady (mret a : M A).
Proof. intros w. split; [discriminate | reflexivity]. Qed.

Lemma Steady_emit (a : action) : Steady (emit a).
Proof. intros w. split; [discriminate | reflexivity]. Qed.

Lemma readline_length (s : list Z) :
  length s = (length (fst (readline s)) + length (snd (readline s)))%nat.
Proof.
  induction s as [|c s IH]; [reflexivity|].
  cbn [readline]. destruct (c =? 10); [reflexivity|].
  destruct (readline s) as [l r]. cbn [fst snd length] in *. lia.
Qed.

Lemma Steady_stdout_readline : Steady stdout_readline.
Proof.
  intros w. unfold stdout_readline.
  pose proof (readline_length (stdout_rest w)) as H.
  destruct (readline (stdout_rest w)) as [l r]. cbn [fst snd stdout_rest] in *.
  split; [discriminate | lia].
Qed.

Lemma Steady_stdout_read (n : Z) : Steady (stdout_read n).
Proof.
  intros w. unfold stdout_read. destruct (n <? -1); cbn [fst snd stdout_rest].
  - split; [discriminate | reflexivity].
  - split; [discriminate|]. rewrite length_drop. lia.
Qed.

Lemma Steady_bind {A B} (m : M A) (k : A -> M B) :
  Steady m -> (forall a, Steady (k a)) -> Steady (m ≫= k).
Proof.
  intros Hm Hk w. destruct (Hm w) as [H1 H2].
  unfold mbind, M_bind. destruct (m w) as [[a|e|] w1] eqn:E; cbn [fst snd] in *.
  - destruct (Hk a w1) as [H3 H4]. split; [assumption | lia].
  - split; [discriminate | assumption].
  - contradiction.
Qed.

Lemma of_sum_returns {A} (r : exn + A) : of_sum r <> OutOfFuel.
Proof. destruct r; discriminate. Qed.

Lemma utf8_decode_returns (b : list Z) : utf8_decode b <> OutOfFuel.
Proof.
  remember (length b) as n eqn:Hn. revert b Hn.
  induction n as [n IH] using lt_wf_ind. intros b Hn.
  destruct b as [|b0 t]; [discriminate|]. cbn [utf8_decode].
  assert (Hrec : forall t' c, (length t' < n)%nat ->
            (s ← utf8_decode t'; Ret (c :: s)) <> OutOfFuel).
  { intros t' c Hlt. specialize (IH _ Hlt t' eq_refl).
    destruct (utf8_decode t'); cbn; congruence. }
  cbn [length] in Hn.
  repeat case_match; try discriminate; apply Hrec; subst; cbn [length]; lia.
Qed.

Lemma py_item_returns {A} (l : list A) (i : nat) : py_item l i <> OutOfFuel.
Proof. unfold py_item. destruct (l !! i); discriminate. Qed.

Lemma py_int_returns (ud : Z -> option Z) (s : list Z) : py_int ud s <> OutOfFuel.
Proof. unfold py_int. repeat case_match; discriminate. Qed.

Lemma classify_incoming_returns (msg : json) : classify_incoming msg <> OutOfFuel.
Proof.
  unfold classify_incoming, py_contains, py_subscript, py_get.
  destruct msg; cbn; repeat case_match; discriminate.
Qed.

Lemma Framed_handle_body (rt : runtime) (data : list Z) : Framed (handle_body rt data).
Proof.
  unfold handle_body.
  repeat first [ apply Framed_bind; [|intros ?] | apply Framed_lift
               | apply Framed_emit | apply Framed_print ].
Qed.

Lemma Steady_handle_body (rt : runtime) (data : list Z) : Steady (handle_body rt data).
Proof.
  unfold handle_body, print.
  repeat first [ apply Steady_bind; [|intros ?] | apply Steady_emit
               | apply Steady_lift ];
    auto using utf8_decode_returns, of_sum_returns, classify_incoming_returns.
Qed.

Lemma Framed_handle_line (rt : runtime) (line : list Z) : Framed (handle_line rt line).
Proof.
  unfold handle_line. apply Framed_bind; [apply Framed_lift|]. intros s.
  destruct (startswith s _); [|apply Framed_ret].
  repeat first [ apply Framed_handle_body | apply Framed_bind; [|intros ?]
               | apply Framed_lift | apply Framed_stdout_readline
               | apply Framed_stdout_read ].
Qed.

Lemma Steady_handle_line (rt : runtime) (line : list Z) : Steady (handle_line rt line).
Proof.
  unfold handle_line. apply Steady_bind; [apply Steady_lift, utf8_decode_returns|].
  intros s. destruct (startswith s _); [|apply Steady_ret].
  repeat first [ apply Steady_handle_body | apply Steady_bind; [|intros ?]
               | apply Steady_stdout_readline | apply Steady_stdout_read
               | apply Steady_lift ];
    auto using py_item_returns, py_int_returns.
Qed.

Lemma Framed_read_turn (rt : runtime) : Framed (read_turn rt).
Proof.
  unfold read_turn. apply Framed_bind; [apply Framed_stdout_readline|].
  intros line. destruct (is_empty line); [apply Framed_ret|].
  apply Framed_bind; [apply Framed_handle_line | intros ?; apply Framed_ret].
Qed.

Lemma Framed_read_loop (rt : runtime) (fuel : nat) : Framed (read_loop rt fuel).
Proof.
  induction fuel as [|fuel IH]; [apply Framed_lift|].
  assert (H : Framed (b ← read_turn rt;
                      if (b : bool) then read_loop rt fuel else mret tt)).
  { apply Framed_bind; [apply Framed_read_turn|].
    intros [|]; [assumption | apply Framed_ret]. }
  intros w. destruct (H w) as [delta Hd]. exists delta. intros lg.
  rewrite !read_loop_unfold. apply Hd.
Qed.

(** One turn reads at least one byte unless the stream has ended. *)
Lemma read_turn_steady (rt : runtime) (w : world) :
  fst (read_turn rt w) <> OutOfFuel /\
  (fst (read_turn rt w) = Ret true ->
   (length (stdout_rest (snd (read_turn rt w))) < length (stdout_rest w))%nat).
Proof.
  unfold read_turn, mbind, M_bind, mret, M_ret, stdout_readline.
  pose proof (readline_length (stdout_rest w)) as Hlen.
  destruct (readline (stdout_rest w)) as [line rest]. cbn [fst snd] in Hlen.
  destruct line as [|c line]; cbn [is_empty].
  - split; [discriminate|]. discriminate.
  - set (w1 := {| log := _; stdout_rest := rest |}).
    destruct (Steady_handle_line rt (c :: line) w1) as [H1 H2].
    destruct (handle_line rt (c :: line) w1) as [[[]|e|] w2]; cbn [fst snd] in *.
    + split; [discriminate|]. intros _. subst w1. cbn [stdout_rest length] in *. lia.
    + split; discriminate.
    + contradiction.
Qed.

(** On a stream that ends, the loop ends: fuel above the number of bytes
    still to come is never used up, and more fuel changes nothing. *)
Lemma read_loop_fuel (rt : runtime) (f1 f2 : nat) (w : world) :
  (length (stdout_rest w) < f1)%nat -> (length (stdout_rest w) < f2)%nat ->
  fst (read_loop rt f1 w) <> OutOfFuel /\ read_loop rt f1 w = read_loop rt f2 w.
Proof.
  revert f2 w. induction f1 as [|f1 IH]; intros f2 w H1 H2; [lia|].
  destruct f2 as [|f2]; [lia|]. rewrite !read_loop_unfold.
  destruct (read_turn_steady rt w) as [Hne Hlt].
  unfold mbind, M_bind.
  destruct (read_turn rt w) as [[[|]|e|] w1]; cbn [fst snd] in *.
  - apply IH; specialize (Hlt eq_refl); lia.
  - split; [discriminate | reflexivity].
  - split; [discriminate | reflexivity].
  - contradiction.
Qed.

(** ** The read loop on known input *)

Lemma read_turn_eof (rt : runtime) (w : world) :
  stdout_rest w = [] ->
  read_turn rt w = (Ret false, with_out w [AStdoutReadline []] []).
Proof.
  intros Hw. unfold read_turn, mbind, M_bind, stdout_readline.
  rewrite Hw. reflexivity.
Qed.

Lemma skippable_spec (l : list Z) :
  skippable l = true ->
  l <> [] /\ (forall rest, readline (l ++ rest) = (l, rest)) /\
  exists s, utf8_decode l = Ret s /\
            startswith s (lit "Content-Length:") = false.
Proof.
  unfold skippable. destruct (reverse l) as [|c r] eqn:Er; [discriminate|].
  assert (Hl : l = reverse r ++ [c]).
  { rewrite <- (reverse_involutive l), Er, reverse_cons. reflexivity. }
  destruct (Z.eqb_spec c 10) as [->|Hc].
  2:{ repeat case_match; try discriminate; lia. }
  intros H. apply andb_true_iff in H. destruct H as [Hr Hd].
  split; [|split].
  - rewrite Hl. intros E. apply app_eq_nil in E. destruct E as [_ E]. discriminate.
  - intros rest. rewrite Hl, <- app_assoc. cbn [app].
    apply readline_line. rewrite forallb_reverse. assumption.
  - destruct (utf8_decode l) as [s| |]; try discriminate.
    exists s. split; [reflexivity|]. apply negb_true_iff. assumption.
Qed.

Lemma read_turn_skip (rt : runtime) (w : world) (l post : list Z) :
  skippable l = true -> stdout_rest w = l ++ post ->
  read_turn rt w = (Ret true, with_out w [AStdoutReadline l] post).
Proof.
  intros Hs Hw. destruct (skippable_spec l Hs) as (Hne & Hrl & s & Hdec & Hsw).
  unfold read_turn, mbind, M_bind, stdout_readline. rewrite Hw, Hrl.
  destruct l as [|c l]; [contradiction|]. cbn [is_empty].
  unfold handle_line, mbind, M_bind, lift. rewrite Hdec, Hsw. reflexivity.
Qed.

Lemma bind_lift_ret {A B} (a : A) (k : A -> M B) (w : world) :
  (lift (Ret a) ≫= k) w = k a w.
Proof. reflexivity. Qed.

Lemma bind_stdout_readline {B} (k : list Z -> M B) (w : world) :
  (stdout_readline ≫= k) w =
  k (fst (readline (stdout_rest w)))
    (with_out w [AStdoutReadline (fst (readline (stdout_rest w)))]
       (snd (readline (stdout_rest w)))).
Proof.
  unfold mbind, M_bind, stdout_readline.
  destruct (readline (stdout_rest w)). reflexivity.
Qed.

Lemma bind_stdout_read {B} (n : Z) (k : list Z -> M B) (w : world) :
  0 <= n ->
  (stdout_read n ≫= k) w =
  k (take (Z.to_nat n) (stdout_rest w))
    (with_out w [AStdoutRead n (take (Z.to_nat n) (stdout_rest w))]
       (drop (Z.to_nat n) (stdout_rest w))).
Proof.
  intros Hn. unfold mbind, M_bind, stdout_read.
  rewrite (proj2 (Z.ltb_ge n (-1))) by lia.
  rewrite (proj2 (Z.eqb_neq n (-1))) by lia. reflexivity.
Qed.

Lemma handle_line_frame (rt : runtime) (w : world) (n : Z) (rest : list Z) :
  0 <= n ->
  stdout_rest w = CRLF ++ rest ->
  handle_line rt (cl_line n) w =
  handle_body rt (take (Z.to_nat n) rest)
    (with_out w [AStdoutReadline CRLF; AStdoutRead n (take (Z.to_nat n) rest)]
       (drop (Z.to_nat n) rest)).
Proof.
  intros Hn Hw. destruct (py_str_int_nonneg n Hn) as (Hne & Hd & Hv).
  destruct (cl_line_facts n Hn) as (Hascii & Hrl & Hsw & Hfield).
  unfold handle_line.
  rewrite utf8_decode_ascii by assumption. rewrite bind_lift_ret.
  rewrite Hsw, Hfield, bind_lift_ret.
  rewrite py_strip_field by assumption.
  rewrite py_int_digits by assumption. rewrite Hv, bind_lift_ret.
  rewrite bind_stdout_readline, Hw.
  change (readline (CRLF ++ rest)) with (CRLF, rest). cbn [fst snd].
  rewrite bind_stdout_read by assumption.
  unfold with_out. cbn [stdout_rest log stdin_ops proc].
  rewrite <- !app_assoc. reflexivity.
Qed.

Lemma read_turn_frame (rt : runtime) (w : world) (n : Z) (rest : list Z) :
  0 <= n ->
  stdout_rest w = cl_line n ++ CRLF ++ rest ->
  read_turn rt w =
  (_ ← handle_body rt (take (Z.to_nat n) rest); mret true)
    (with_out w [AStdoutReadline (cl_line n); AStdoutReadline CRLF;
                 AStdoutRead n (take (Z.to_nat n) rest)]
       (drop (Z.to_nat n) rest)).
Proof.
  intros Hn Hw. destruct (cl_line_facts n Hn) as (_ & Hrl & _).
  unfold read_turn. rewrite bind_stdout_readline, Hw, Hrl. cbn [fst snd].
  assert (Hnz : is_empty (cl_line n) = false) by reflexivity.
  rewrite Hnz. unfold mbind at 1. unfold M_bind at 1.
  rewrite (handle_line_frame rt _ n rest Hn) by reflexivity.
  unfold with_out. cbn [stdout_rest log stdin_ops proc].
  rewrite <- !app_assoc. reflexivity.
Qed.

Lemma run_loop_unfold (rt : runtime) (w : world) :
  run_loop rt w =
  (b ← read_turn rt; if (b : bool) then run_loop rt else mret tt) w.
Proof.
  unfold run_loop at 1. rewrite read_loop_unfold.
  destruct (read_turn_steady rt w) as [Hne Hlt].
  unfold mbind, M_bind.
  destruct (read_turn rt w) as [[[|]|e|] w1]; cbn [fst snd] in *; try reflexivity.
  unfold run_loop. apply read_loop_fuel; specialize (Hlt eq_refl); lia.
Qed.

Lemma run_loop_eof (rt : runtime) (w : world) :
  stdout_rest w = [] ->
  run_loop rt w = (Ret tt, with_out w [AStdoutReadline []] []).
Proof.
  intros Hw. rewrite run_loop_unfold. unfold mbind, M_bind.
  rewrite read_turn_eof by assumption. reflexivity.
Qed.

Lemma run_loop_skip (rt : runtime) (w : world) (l post : list Z) :
  skippable l = true -> stdout_rest w = l ++ post ->
  run_loop rt w = run_loop rt (with_out w [AStdoutReadline l] post).
Proof.
  intros Hs Hw. rewrite run_loop_unfold. unfold mbind, M_bind.
  rewrite (read_turn_skip rt w l post) by assumption. reflexivity.
Qed.

Lemma decode_result_run_loop (rt : runtime) (stream : list Z) :
  decode_result rt stream =
  (fst (run_loop rt (world_of stream)),
   List.filter (fun a => negb (is_read a)) (log (snd (run_loop rt (world_of stream))))).
Proof. reflexivity. Qed.

(** ** Sending *)

Lemma frame_header_split (l : Z) :
  frame_header l = ct_line ++ cl_line l ++ CRLF.
Proof.
  unfold frame_header, ct_line, cl_line. rewrite <- !app_assoc. reflexivity.
Qed.

Lemma frame_header_ascii (l : Z) :
  0 <= l -> forallb is_ascii (frame_header l) = true.
Proof.
  intros Hl. rewrite frame_header_split.
  destruct (cl_line_facts l Hl) as (Hascii & _).
  rewrite !forallb_app, Hascii. reflexivity.
Qed.

(** What a call of [send] that returns has done. *)
Lemma send_ok (rt : runtime) (ev : env) (msg : json) (w w' : world) :
  send rt ev msg w = (Ret tt, w') ->
  exists content enc m,
    json_dumps rt msg = inr content /\ utf8_encode content = Ret enc /\
    py_get msg (lit "method") = Ret m /\
    log w' = log w ++ [ACallSend msg;
                       AStdinWrite (frame_header (Z.of_nat (length enc)));
                       AStdinWrite enc; AStdinFlush; APrint (PSent m)] /\
    stdout_rest w' = stdout_rest w.
Proof.
  unfold send. unfold mbind, M_bind, lift, print, emit, stdin_write, stdin_flush,
    stdin_op, emit.
  destruct (json_dumps rt msg) as [e|content]; cbn [of_sum]; [intros [=]|].
  destruct (utf8_encode content) as [enc| |] eqn:Eenc; [|intros [=]|intros [=]].
  rewrite utf8_encode_ascii by (apply frame_header_ascii; lia).
  cbn [log stdout_rest stdin_ops proc].
  destruct (stdin_fault ev (stdin_ops w)); [intros [=]|].
  cbn [log stdout_rest stdin_ops proc].
  destruct (stdin_fault ev (S (stdin_ops w))); [intros [=]|].
  cbn [log stdout_rest stdin_ops proc].
  destruct (stdin_fault ev (S (S (stdin_ops w)))); [intros [=]|].
  cbn [log stdout_rest stdin_ops proc].
  destruct (py_get msg (lit "method")) as [m| |] eqn:Em; [|intros [=]|intros [=]].
  intros [= <-]. exists content, enc, m. cbn [log stdout_rest].
  rewrite <- !app_assoc. repeat split; (reflexivity || assumption).
Qed.

(** ** Classification *)

Lemma classify_incoming_obj (fields : list (list Z * json)) :
  classify_incoming (JObj fields) = Ret (classify_fields fields).
Proof.
  unfold classify_incoming, classify_fields, py_contains, py_subscript, py_get.
  cbn [mbind res_bind]. destruct (has_key fields (lit "error")); [reflexivity|].
  unfold has_key. destruct (dict_get fields (lit "method")); reflexivity.
Qed.

(** C3, as the code has it: a dict with an [error] key is reported as an
    error reply, carrying the whole message; one without [error] but with
    [method] as a notification, carrying the method, whether or not it has
    an [id]; any other as a response, carrying the [id] or [None].  Every
    dict is reported as one of the three. *)
Theorem classify_incoming_cases (fields : list (list Z * json)) :
  exists line k,
    classify_incoming (JObj fields) = Ret line /\ kind_of line = Some k /\
    (k = ErrorReply <-> has_key fields (lit "error") = true) /\
    (k = Notification <->
       has_key fields (lit "error") = false /\
       has_key fields (lit "method") = true) /\
    (k = Response <->
       has_key fields (lit "error") = false /\
       has_key fields (lit "method") = false) /\
    (k = ErrorReply -> line = PRecvError (JObj fields)) /\
    (k = Notification ->
       exists v, dict_get fields (lit "method") = Some v /\ line = PRecvNotif v) /\
    (k = Response -> line = PRecvResp (dict_get fields (lit "id"))).
Proof.
  exists (classify_fields fields). rewrite classify_incoming_obj.
  unfold classify_fields, has_key.
  destruct (dict_get fields (lit "error")) as [e|].
  - exists ErrorReply. repeat split; try discriminate; try tauto.
    all: intros [H1 H2]; discriminate.
  - destruct (dict_get fields (lit "method")) as [v|].
    + exists Notification. repeat split; try discriminate; try tauto.
      * intros [H1 H2]. discriminate.
      * intros _. exists v. split; reflexivity.
    + exists Response. repeat split; try discriminate; try tauto.
      intros [H1 H2]. discriminate.
Qed.

(** A request from the server, with both [id] and [method], is reported as
    a notification; a message with none of [error], [method] and [id] is
    reported as a response with identifier [None]. *)
Lemma classify_incoming_counterexample :
  let request :=
    [(lit "jsonrpc", JStr (lit "2.0")); (lit "id", JInt 7);
     (lit "method", JStr (lit "workspace/configuration"));
     (lit "params", JObj [])] in
  let bare := [(lit "jsonrpc", JStr (lit "2.0"))] in
  (classify_incoming (JObj request)
     = Ret (PRecvNotif (JStr (lit "workspace/configuration")))
   /\ has_key request (lit "id") = true) /\
  (classify_incoming (JObj bare) = Ret (PRecvResp None)
   /\ has_key bare (lit "error") = false
   /\ has_key bare (lit "method") = false
   /\ has_key bare (lit "id") = false).
Proof. vm_compute. repeat split; reflexivity. Qed.

(** ** Round trip *)

Lemma written_app (l1 l2 : list action) :
  written (l1 ++ l2) = written l1 ++ written l2.
Proof.
  induction l1 as [|a l1 IH]; [reflexivity|].
  destruct a; cbn [app written]; rewrite ?IH, <- ?app_assoc; reflexivity.
Qed.

Lemma py_get_obj (msg : json) (key : list Z) (m : option json) :
  py_get msg key = Ret m -> exists fields, msg = JObj fields.
Proof. destruct msg; try discriminate. intros _. eexists. reflexivity. Qed.

Lemma ct_line_skippable : skippable ct_line = true.
Proof. vm_compute. reflexivity. Qed.

Lemma run_loop_frame (rt : runtime) (w : world) (n : Z) (rest : list Z) :
  0 <= n ->
  stdout_rest w = cl_line n ++ CRLF ++ rest ->
  run_loop rt w =
  (_ ← handle_body rt (take (Z.to_nat n) rest); run_loop rt)
    (with_out w [AStdoutReadline (cl_line n); AStdoutReadline CRLF;
                 AStdoutRead n (take (Z.to_nat n) rest)]
       (drop (Z.to_nat n) rest)).
Proof.
  intros Hn Hw. rewrite run_loop_unfold. unfold mbind at 1. unfold M_bind at 1.
  rewrite (read_turn_frame rt w n rest Hn Hw).
  unfold mbind, M_bind, mret, M_ret.
  destruct (handle_body rt _ _) as [[[]|e|] w1]; reflexivity.
Qed.

Lemma handle_body_ok (rt : runtime) (data s : list Z) (msg : json)
    (line : event) (w : world) :
  utf8_decode data = Ret s -> json_loads rt s = inr msg ->
  classify_incoming msg = Ret line ->
  handle_body rt data w =
  (Ret tt, with_out w [ADecoded msg; APrint line] (stdout_rest w)).
Proof.
  intros Hd Hl Hc. unfold handle_body.
  rewrite Hd, bind_lift_ret, Hl. cbn [of_sum]. rewrite bind_lift_ret.
  unfold mbind, M_bind, lift, print, emit. rewrite Hc.
  unfold with_out. cbn [log stdout_rest stdin_ops proc].
  rewrite <- app_assoc. reflexivity.
Qed.

(** C1: the bytes a returning [send] has written for a message that the
    JSON library reads back, given to the read loop as the child's whole
    output, are decoded to that message, which is reported once; the loop
    then ends at end-of-stream. *)
Theorem frame_roundtrip (rt : runtime) (ev : env) (m : json) (w w' : world) :
  send rt ev m w = (Ret tt, w') ->
  (forall content, json_dumps rt m = inr content ->
                   json_loads rt content = inr m) ->
  exists line,
    classify_incoming m = Ret line /\
    decode_result rt (written (drop (length (log w)) (log w')))
      = (Ret tt, [ADecoded m; APrint line]).
Proof.
  intros Hsend Hjson.
  destruct (send_ok rt ev m w w' Hsend) as (content & enc & meth & Hd & He & Hm & Hlog & _).
  destruct (py_get_obj _ _ _ Hm) as [fields ->].
  exists (classify_fields fields). split; [apply classify_incoming_obj|].
  rewrite Hlog, drop_app_length. cbn [written]. rewrite app_nil_r.
  set (l := Z.of_nat (length enc)).
  rewrite frame_header_split, <- !app_assoc.
  rewrite decode_result_run_loop.
  assert (Hrun : run_loop rt (world_of (ct_line ++ cl_line l ++ CRLF ++ enc)) =
                 (Ret tt,
                  with_out (world_of (ct_line ++ cl_line l ++ CRLF ++ enc))
                    [AStdoutReadline ct_line; AStdoutReadline (cl_line l);
                     AStdoutReadline CRLF; AStdoutRead l enc;
                     ADecoded (JObj fields); APrint (classify_fields fields);
                     AStdoutReadline []] [])).
  { rewrite (run_loop_skip rt _ ct_line (cl_line l ++ CRLF ++ enc));
      [|exact ct_line_skippable|reflexivity].
    rewrite (run_loop_frame rt _ l enc); [|lia|reflexivity].
    subst l. rewrite Nat2Z.id, firstn_all, drop_all.
    unfold mbind, M_bind.
    rewrite (handle_body_ok rt enc content (JObj fields) (classify_fields fields));
      [|exact (utf8_decode_encode _ _ He)|exact (Hjson content Hd)
       |apply classify_incoming_obj].
    rewrite run_loop_eof by reflexivity. reflexivity. }
  rewrite Hrun. reflexivity.
Qed.

Lemma frame_roundtrip_witness :
  exists line,
    classify_incoming msg_initialize = Ret line /\
    decode_result ref_runtime
      (written (drop (length (log (initial_world demo_env)))
                  (log (snd (send ref_runtime demo_env msg_initialize
                               (initial_world demo_env))))))
      = (Ret tt, [ADecoded msg_initialize; APrint line]).
Proof.
  apply (frame_roundtrip ref_runtime demo_env msg_initialize
           (initial_world demo_env)).
  - vm_compute. reflexivity.
  - intros content H. exact (ref_loads_dumps msg_initialize content eq_refl H).
Defined.

(** ** Frames whose declared length is not what arrives *)


Lemma Framed_run_loop (rt : runtime) : Framed (run_loop rt).
Proof.
  intros w. destruct (Framed_read_loop rt (S (length (stdout_rest w))) w) as [d Hd].
  exists d. intros lg. unfold run_loop. cbn [relog stdout_rest]. apply Hd.
Qed.

Lemma decode_result_relog (rt : runtime) (lg : list action) (stream : list Z) :
  forallb is_read lg = true ->
  (fst (run_loop rt (relog lg (world_of stream))),
   List.filter (fun a => negb (is_read a))
     (log (snd (run_loop rt (relog lg (world_of stream))))))
  = decode_result rt stream.
Proof.
  intros Hlg. rewrite decode_result_run_loop.
  destruct (Framed_log (run_loop rt) (world_of stream) (Framed_run_loop rt))
    as (d & Hd & Hre).
  rewrite Hre, Hd. cbn [fst snd relog log world_of app].
  rewrite List.filter_app. f_equal.
  assert (Hnil : List.filter (fun a => negb (is_read a)) lg = []).
  { clear -Hlg. induction lg as [|a lg IH]; [reflexivity|].
    cbn [forallb] in Hlg. apply andb_true_iff in Hlg. destruct Hlg as [Ha Hl].
    cbn [List.filter]. rewrite Ha. cbn. apply IH. assumption. }
  rewrite Hnil. reflexivity.
Qed.

Lemma decode_result_frame (rt : runtime) (n : Z) (rest : list Z) :
  0 <= n ->
  run_loop rt (world_of (cl_line n ++ CRLF ++ rest)) =
  (_ ← handle_body rt (take (Z.to_nat n) rest); run_loop rt)
    (relog [AStdoutReadline (cl_line n); AStdoutReadline CRLF;
            AStdoutRead n (take (Z.to_nat n) rest)]
       (world_of (drop (Z.to_nat n) rest))).
Proof.
  intros Hn. rewrite (run_loop_frame rt (world_of (cl_line n ++ CRLF ++ rest)) n rest Hn eq_refl).
  reflexivity.
Qed.




(** ** Extra header lines *)

Lemma decode_result_skip (rt : runtime) (l post : list Z) :
  skippable l = true ->
  decode_result rt (l ++ post) = decode_result rt post.
Proof.
  intros Hs. rewrite decode_result_run_loop.
  rewrite (run_loop_skip rt (world_of (l ++ post)) l post Hs eq_refl).
  apply (decode_result_relog rt [AStdoutReadline l] post). reflexivity.
Qed.

Lemma decode_result_skip_all (rt : runtime) (hdrs : list (list Z)) (post : list Z) :
  forallb skippable hdrs = true ->
  decode_result rt (concat hdrs ++ post) = decode_result rt post.
Proof.
  induction hdrs as [|h hdrs IH]; intros H; [reflexivity|].
  cbn [forallb] in H. apply andb_true_iff in H. destruct H as [Hh Hr].
  cbn [concat]. rewrite <- app_assoc, decode_result_skip by assumption.
  apply IH. assumption.
Qed.

(** C4, as the code has it: a line that the loop passes over, put
    anywhere among such lines ahead of what follows them (the
    [Content-Length] line, the blank line and the body), changes nothing
    in what is decoded and reported. *)
Theorem extra_header_before (rt : runtime) (hdrs1 hdrs2 : list (list Z))
    (l post : list Z) :
  forallb skippable hdrs1 = true -> forallb skippable hdrs2 = true ->
  skippable l = true ->
  decode_result rt (concat hdrs1 ++ l ++ concat hdrs2 ++ post)
  = decode_result rt (concat hdrs1 ++ concat hdrs2 ++ post).
Proof.
  intros H1 H2 Hl.
  rewrite !decode_result_skip_all by assumption.
  rewrite decode_result_skip by assumption.
  rewrite decode_result_skip_all by assumption. reflexivity.
Qed.

Lemma extra_header_before_witness :
  decode_result ref_runtime
    (concat [ct_line] ++ extra_header ++ concat []
     ++ cl_line 10 ++ CRLF ++ short_body)
  = decode_result ref_runtime
      (concat [ct_line] ++ concat [] ++ cl_line 10 ++ CRLF ++ short_body).
Proof.
  apply (extra_header_before ref_runtime [ct_line] [] extra_header
           (cl_line 10 ++ CRLF ++ short_body));
    vm_compute; reflexivity.
Defined.

(** The same line put after the [Content-Length] line is read in place of
    the blank line, the body read starts two bytes early, and parsing
    fails. *)
Lemma extra_header_after_counterexample :
  skippable extra_header = true /\
  decode_result ref_runtime (cl_line 10 ++ CRLF ++ short_body)
  = (Ret tt, [ADecoded (JObj [(lit "id", JInt 123)]);
              APrint (PRecvResp (Some (JInt 123)))]) /\
  decode_result ref_runtime (cl_line 10 ++ extra_header ++ CRLF ++ short_body)
  = (Raise JSONDecodeError, []).
Proof. vm_compute. repeat split; reflexivity. Qed.

(** ** The scenario: what is sent, and when *)

Lemma calls_app (l1 l2 : list action) : calls (l1 ++ l2) = calls l1 ++ calls l2.
Proof.
  induction l1 as [|a l1 IH]; [reflexivity|].
  destruct a; cbn [app calls]; rewrite ?IH; reflexivity.
Qed.

Lemma calls_none (l : list action) :
  forallb (fun a => negb (is_call a)) l = true -> calls l = [].
Proof.
  induction l as [|a l IH]; [reflexivity|]. cbn [forallb]. intros H.
  apply andb_true_iff in H. destruct H as [Ha Hl].
  destruct a; try discriminate; cbn [calls]; apply IH; assumption.
Qed.

Lemma Sends_bind_ret {A B} (P : action -> bool) (cs1 cs2 : list json)
    (R : A -> Prop) (m : M A) (k : A -> M B) :
  (forall w a, fst (m w) = Ret a -> R a) ->
  Sends P cs1 m -> (forall a, R a -> Sends P cs2 (k a)) ->
  Sends P (cs1 ++ cs2) (m ≫= k).
Proof.
  intros HR Hm Hk w. destruct (Hm w) as (d1 & Hl1 & HP1 & Hpre1 & Hret1).
  specialize (HR w). unfold mbind, M_bind.
  destruct (m w) as [[a|e|] w1] eqn:E; cbn [fst snd] in *.
  - destruct (Hk a (HR a eq_refl) w1) as (d2 & Hl2 & HP2 & Hpre2 & Hret2).
    exists (d1 ++ d2). rewrite Hl2, Hl1, app_assoc, forallb_app, HP1, HP2, calls_app.
    rewrite (Hret1 a eq_refl).
    split; [reflexivity|]. split; [reflexivity|]. split.
    + apply prefix_app. assumption.
    + intros b Hb. rewrite (Hret2 b Hb). reflexivity.
  - exists d1. split; [assumption|]. split; [assumption|]. split.
    + apply prefix_app_r. assumption.
    + discriminate.
  - exists d1. split; [assumption|]. split; [assumption|]. split.
    + apply prefix_app_r. assumption.
    + discriminate.
Qed.

Lemma Sends_bind {A B} (P : action -> bool) (cs1 cs2 : list json)
    (m : M A) (k : A -> M B) :
  Sends P cs1 m -> (forall a, Sends P cs2 (k a)) ->
  Sends P (cs1 ++ cs2) (m ≫= k).
Proof.
  intros Hm Hk. apply (Sends_bind_ret P cs1 cs2 (fun _ => True)); auto.
Qed.

Lemma Sends_quiet {A} (P : action -> bool) (m : M A) (d : world -> list action) :
  (forall w, log (snd (m w)) = log w ++ d w) ->
  (forall w, forallb P (d w) = true) -> (forall w, calls (d w) = []) ->
  Sends P [] m.
Proof.
  intros Hl HP Hc w. exists (d w). rewrite Hc.
  split; [apply Hl|]. split; [apply HP|]. split; [reflexivity|]. reflexivity.
Qed.

Lemma Sends_lift {A} (P : action -> bool) (r : res A) : Sends P [] (lift r).
Proof.
  apply (Sends_quiet P _ (fun _ => [])); try reflexivity.
  intros w. cbn. rewrite app_nil_r. reflexivity.
Qed.

Lemma Sends_ret {A} (P : action -> bool) (a : A) : Sends P [] (mret a : M A).
Proof.
  apply (Sends_quiet P _ (fun _ => [])); try reflexivity.
  intros w. cbn. rewrite app_nil_r. reflexivity.
Qed.

Lemma Sends_emit (P : action -> bool) (a : action) :
  P a = true -> is_call a = false -> Sends P [] (emit a).
Proof.
  intros HP Hc. apply (Sends_quiet P _ (fun _ => [a])).
  - reflexivity.
  - intros _. cbn. rewrite HP. reflexivity.
  - intros _. destruct a; try discriminate; reflexivity.
Qed.

Lemma Sends_call (P : action -> bool) (msg : json) :
  P (ACallSend msg) = true -> Sends P [msg] (emit (ACallSend msg)).
Proof.
  intros HP w. exists [ACallSend msg]. cbn [forallb]. rewrite HP.
  repeat split; reflexivity.
Qed.

Lemma Sends_stdin_op (P : action -> bool) (ev : env) (a : action) :
  P a = true -> is_call a = false -> Sends P [] (stdin_op ev a).
Proof.
  intros HP Hc.
  apply (Sends_quiet P _
           (fun w => if stdin_fault ev (stdin_ops w) then [] else [a])).
  - intros w. unfold stdin_op. destruct (stdin_fault ev (stdin_ops w)); cbn.
    + rewrite app_nil_r. reflexivity.
    + reflexivity.
  - intros w. destruct (stdin_fault ev (stdin_ops w)); cbn; rewrite ?HP; reflexivity.
  - intros w. destruct (stdin_fault ev (stdin_ops w)); [reflexivity|].
    destruct a; try discriminate; reflexivity.
Qed.

Lemma Sends_stdout_readline (P : action -> bool) :
  (forall l, P (AStdoutReadline l) = true) -> Sends P [] stdout_readline.
Proof.
  intros HP.
  apply (Sends_quiet P _
           (fun w => [AStdoutReadline (fst (readline (stdout_rest w)))])).
  - intros w. unfold stdout_readline. destruct (readline (stdout_rest w)). reflexivity.
  - intros w. cbn. rewrite HP. reflexivity.
  - reflexivity.
Qed.

Lemma Sends_stdout_read (P : action -> bool) (n : Z) :
  (forall k l, P (AStdoutRead k l) = true) -> Sends P [] (stdout_read n).
Proof.
  intros HP.
  apply (Sends_quiet P _
           (fun w => if n <? -1 then []
                     else [AStdoutRead n
                             (take (if n =? -1 then length (stdout_rest w)
                                    else Z.to_nat n) (stdout_rest w))])).
  - intros w. unfold stdout_read. destruct (n <? -1); cbn.
    + rewrite app_nil_r. reflexivity.
    + reflexivity.
  - intros w. destruct (n <? -1); cbn; rewrite ?HP; reflexivity.
  - intros w. destruct (n <? -1); reflexivity.
Qed.

Lemma Sends_send (rt : runtime) (ev : env) (msg : json) :
  Sends sending [msg] (send rt ev msg).
Proof.
  unfold send. apply (Sends_bind sending [msg] []); [apply Sends_call; reflexivity|].
  intros _. unfold stdin_write, stdin_flush, print.
  repeat first [ apply (Sends_bind sending [] []); [|intros ?]
               | apply Sends_lift
               | apply Sends_stdin_op; reflexivity
               | apply Sends_emit; reflexivity ].
Qed.

Lemma Sends_open_input (ev : env) : Sends sending [] (open_input ev).
Proof.
  unfold open_input. apply (Sends_bind sending [] []).
  - apply Sends_emit; reflexivity.
  - intros _. apply Sends_lift.
Qed.

Lemma open_input_ret (ev : env) (w : world) (txt : list Z) :
  fst (open_input ev w) = Ret txt -> input_file ev = inr txt.
Proof.
  unfold open_input, mbind, M_bind, emit, lift. cbn.
  destruct (input_file ev); cbn; congruence.
Qed.

Lemma Sends_scenario_sends (rt : runtime) (ev : env) :
  Sends sending (script_of ev) (scenario_sends rt ev).
Proof.
  unfold scenario_sends.
  assert (Hscript : script_of ev =
            [msg_initialize] ++ [msg_initialized] ++
            match input_file ev with
            | inr txt => [msg_didOpen txt] ++ [msg_semanticTokens]
                         ++ [msg_documentSymbol] ++ [msg_definition]
            | inl _ => []
            end).
  { unfold script_of, script. destruct (input_file ev); reflexivity. }
  rewrite Hscript.
  apply Sends_bind; [apply Sends_send | intros _].
  apply Sends_bind; [apply Sends_send | intros _].
  apply (Sends_bind_ret sending [] _ (fun txt => input_file ev = inr txt)).
  - apply open_input_ret.
  - apply Sends_open_input.
  - intros txt ->.
    apply Sends_bind; [apply Sends_send | intros _].
    apply Sends_bind; [apply Sends_send | intros _].
    apply Sends_bind; [apply Sends_send | intros _].
    apply (Sends_bind sending [] [msg_definition]);
      [apply Sends_emit; reflexivity | intros _].
    apply (Sends_bind sending [msg_definition] []); [apply Sends_send | intros _].
    apply Sends_emit; reflexivity.
Qed.

Lemma scenario_sends_ret (rt : runtime) (ev : env) (w : world) :
  fst (scenario_sends rt ev w) = Ret tt ->
  exists txt, input_file ev = inr txt /\ script_of ev = script txt.
Proof.
  unfold scenario_sends, script_of. unfold mbind at 1 2, M_bind at 1 2.
  destruct (send rt ev msg_initialize w) as [[[]|e|] w1]; try discriminate.
  destruct (send rt ev msg_initialized w1) as [[[]|e|] w2]; try discriminate.
  unfold mbind at 1, M_bind at 1. unfold open_input at 1.
  unfold mbind at 1, M_bind at 1, emit at 1, lift at 1.
  destruct (input_file ev) as [e|txt]; cbn [of_sum]; try discriminate.
  intros _. exists txt. split; reflexivity.
Qed.

Lemma Sends_handle_body (rt : runtime) (data : list Z) :
  Sends reading [] (handle_body rt data).
Proof.
  unfold handle_body, print.
  repeat first [ apply (Sends_bind reading [] []); [|intros ?]
               | apply Sends_lift
               | apply Sends_emit; reflexivity ].
Qed.

Lemma Sends_read_turn (rt : runtime) : Sends reading [] (read_turn rt).
Proof.
  unfold read_turn.
  apply (Sends_bind reading [] []); [apply Sends_stdout_readline; reflexivity|].
  intros line. destruct (is_empty line); [apply Sends_ret|].
  apply (Sends_bind reading [] []); [|intros _; apply Sends_ret].
  unfold handle_line.
  apply (Sends_bind reading [] []); [apply Sends_lift|]. intros s.
  destruct (startswith s _); [|apply Sends_ret].
  repeat first [ apply Sends_handle_body
               | apply (Sends_bind reading [] []); [|intros ?]
               | apply Sends_lift
               | apply Sends_stdout_readline; reflexivity
               | apply Sends_stdout_read; reflexivity ].
Qed.

Lemma Sends_read_loop (rt : runtime) (fuel : nat) :
  Sends reading [] (read_loop rt fuel).
Proof.
  induction fuel as [|fuel IH]; [apply Sends_lift|].
  assert (H : Sends reading [] (b ← read_turn rt;
                                if (b : bool) then read_loop rt fuel else mret tt)).
  { apply (Sends_bind reading [] []); [apply Sends_read_turn|].
    intros [|]; [assumption | apply Sends_ret]. }
  intros w. destruct (H w) as (d & Hd). exists d.
  rewrite read_loop_unfold. exact Hd.
Qed.

Lemma utf8_encode_returns (s : list Z) : utf8_encode s <> OutOfFuel.
Proof.
  induction s as [|c s IH]; [discriminate|]. cbn [utf8_encode].
  assert (Hcp : utf8_encode_cp c <> OutOfFuel).
  { unfold utf8_encode_cp. repeat case_match; discriminate. }
  destruct (utf8_encode_cp c); [|discriminate|contradiction].
  destruct (utf8_encode s); [discriminate|discriminate|contradiction].
Qed.

Lemma py_get_returns (msg : json) (key : list Z) : py_get msg key <> OutOfFuel.
Proof. destruct msg; discriminate. Qed.

Lemma Steady_stdin_op (ev : env) (a : action) : Steady (stdin_op ev a).
Proof.
  intros w. unfold stdin_op. destruct (stdin_fault ev (stdin_ops w)); cbn.
  - split; [discriminate | lia].
  - split; [discriminate | lia].
Qed.

Lemma Steady_send (rt : runtime) (ev : env) (msg : json) : Steady (send rt ev msg).
Proof.
  unfold send, stdin_write, stdin_flush, print.
  repeat first [ apply Steady_bind; [|intros ?] | apply Steady_emit
               | apply Steady_stdin_op | apply Steady_lift ];
    auto using utf8_encode_returns, of_sum_returns, py_get_returns.
Qed.

Lemma Steady_scenario_sends (rt : runtime) (ev : env) :
  Steady (scenario_sends rt ev).
Proof.
  unfold scenario_sends, open_input, print.
  repeat first [ apply Steady_send | apply Steady_bind; [|intros ?]
               | apply Steady_emit | apply Steady_lift, of_sum_returns ].
Qed.

(** The log of the [try] statement: the sending phase, the reading phase
    and the cleanup. *)
Lemma scenario_log (rt : runtime) (ev : env) (fuel : nat) (w : world) :
  exists d_pre d_loop tail,
    log (snd (scenario rt ev fuel w)) = log w ++ d_pre ++ d_loop ++ tail /\
    forallb sending d_pre = true /\ calls d_pre `prefix_of` script_of ev /\
    forallb reading d_loop = true /\
    (d_loop <> [] ->
     exists txt, input_file ev = inr txt /\ calls d_pre = script txt) /\
    (tail = [] \/ tail = [ATerminate] \/
     exists e, tail = [APrint (PError e); ATerminate]) /\
    (fst (scenario rt ev fuel w) <> OutOfFuel ->
     fst (scenario rt ev fuel w) = Ret tt /\ tail <> []).
Proof.
  destruct (Sends_scenario_sends rt ev w) as (d_pre & Hl1 & HP1 & Hpre1 & Hret1).
  pose proof (scenario_sends_ret rt ev w) as Htxt.
  unfold scenario, scenario_body, mbind, M_bind.
  destruct (scenario_sends rt ev w) as [[[]|e|] w1]; cbn [fst snd] in *.
  - destruct (Sends_read_loop rt fuel w1) as (d_loop & Hl2 & HP2 & _).
    destruct (Htxt eq_refl) as (txt & Hin & Hscript).
    assert (Hfull : d_loop <> [] ->
              exists txt, input_file ev = inr txt /\ calls d_pre = script txt).
    { intros _. exists txt. split; [assumption|].
      rewrite (Hret1 tt eq_refl). assumption. }
    destruct (read_loop rt fuel w1) as [[[]|e|] w2]; cbn [fst snd] in *.
    + exists d_pre, d_loop, [ATerminate]. cbn [terminate print emit fst snd log].
      rewrite Hl2, Hl1, <- !app_assoc.
      repeat split; auto; discriminate.
    + exists d_pre, d_loop, [APrint (PError e); ATerminate].
      unfold print, emit, terminate. cbn [fst snd log].
      rewrite Hl2, Hl1, <- !app_assoc.
      repeat split; eauto; discriminate.
    + exists d_pre, d_loop, []. rewrite Hl2, Hl1, app_nil_r, <- !app_assoc.
      repeat split; auto; contradiction.
  - exists d_pre, [], [APrint (PError e); ATerminate].
    unfold print, emit, terminate. cbn [fst snd log app].
    rewrite Hl1, <- !app_assoc.
    repeat split; eauto; try discriminate; contradiction.
  - exists d_pre, [], []. rewrite Hl1, !app_nil_r.
    repeat split; auto; contradiction.
Qed.


Lemma run_unfold (rt : runtime) (ev : env) (fuel : nat) :
  run rt ev fuel =
  if spawn_ok ev then
    scenario rt ev fuel
      (with_out (initial_world ev) [APrint PStarting; ASpawn] (child_stdout ev))
  else
    (Raise OSError,
     with_out (initial_world ev) [APrint PStarting] (child_stdout ev)).
Proof.
  unfold run, spawn, mbind, M_bind, print, emit, lift.
  destruct (spawn_ok ev); reflexivity.
Qed.

Lemma forallb_weaken {A} (p q : A -> bool) (l : list A) :
  (forall x, p x = true -> q x = true) ->
  forallb p l = true -> forallb q l = true.
Proof.
  intros Hpq. induction l as [|x l IH]; [reflexivity|]. cbn [forallb].
  intros H. apply andb_true_iff in H. destruct H as [Hx Hl].
  rewrite (Hpq x Hx), IH by assumption. reflexivity.
Qed.

Lemma sending_facts (a : action) :
  sending a = true -> is_read a = false /\ is_terminate a = false.
Proof. destruct a; cbn; intros H; try discriminate; split; reflexivity. Qed.

Lemma reading_facts (a : action) :
  reading a = true -> is_call a = false /\ is_terminate a = false.
Proof. destruct a; cbn; intros H; try discriminate; split; reflexivity. Qed.

(** ** C8: the cleanup *)



(** ** C5 and C6: the script *)

Lemma run_calls (rt : runtime) (ev : env) (fuel : nat) :
  calls (log (snd (run rt ev fuel))) `prefix_of` script_of ev.
Proof.
  rewrite run_unfold. destruct (spawn_ok ev).
  - set (w1 := with_out _ _ _).
    destruct (scenario_log rt ev fuel w1)
      as (d_pre & d_loop & tail & Hlog & _ & Hpre & Hloop & _ & Htail & _).
    rewrite Hlog, !calls_app.
    rewrite (calls_none d_loop).
    2:{ eapply forallb_weaken; [|exact Hloop].
        intros a Ha. destruct (reading_facts a Ha) as [-> _]. reflexivity. }
    assert (Ht : calls tail = []) by (destruct Htail as [->|[->|[e ->]]]; reflexivity).
    rewrite Ht, !app_nil_r. exact Hpre.
  - apply prefix_nil.
Qed.

Lemma script_of_ids (ev : env) :
  map method_and_id (script_of ev) `prefix_of` script_ids.
Proof.
  unfold script_of. destruct (input_file ev) as [e|txt].
  - exists (drop 2 script_ids). reflexivity.
  - exists []. reflexivity.
Qed.

Lemma prefix_of_map {A B} (f : A -> B) (l1 l2 : list A) :
  l1 `prefix_of` l2 -> map f l1 `prefix_of` map f l2.
Proof. intros [k ->]. exists (map f k). apply map_app. Qed.

Lemma sent_identifiers (sent : list json) :
  map method_and_id sent `prefix_of` script_ids ->
  exists k, omap msg_id sent = map JInt (seqZ 1 k).
Proof.
  intros [r Hr]. unfold script_ids, method_and_id in Hr.
  destruct sent as [|m1 sent]; [exists 0; reflexivity|].
  cbn [map app] in Hr. injection Hr as _ H1 Hr.
  destruct sent as [|m2 sent]; [exists 1; cbn; rewrite <- H1; reflexivity|].
  cbn [map app] in Hr. injection Hr as _ H2 Hr.
  destruct sent as [|m3 sent]; [exists 1; cbn; rewrite <- H1, <- H2; reflexivity|].
  cbn [map app] in Hr. injection Hr as _ H3 Hr.
  destruct sent as [|m4 sent];
    [exists 1; cbn; rewrite <- H1, <- H2, <- H3; reflexivity|].
  cbn [map app] in Hr. injection Hr as _ H4 Hr.
  destruct sent as [|m5 sent];
    [exists 2; cbn; rewrite <- H1, <- H2, <- H3, <- H4; reflexivity|].
  cbn [map app] in Hr. injection Hr as _ H5 Hr.
  destruct sent as [|m6 sent];
    [exists 3; cbn; rewrite <- H1, <- H2, <- H3, <- H4, <- H5; reflexivity|].
  cbn [map app] in Hr. injection Hr as _ H6 Hr.
  destruct sent as [|m7 sent]; [|discriminate].
  exists 4. cbn. rewrite <- H1, <- H2, <- H3, <- H4, <- H5, <- H6. reflexivity.
Qed.

(** C5: the messages handed to [send], in order, carry the methods and
    identifiers of the first so many lines of the script: the requests
    carry 1, 2, 3, 4 in this order and the two notifications carry none;
    so the identifiers sent are 1, 2, ..., k for some k, and no two of
    them are the same. *)
Theorem request_identifiers (rt : runtime) (ev : env) (fuel : nat) :
  map method_and_id (calls (log (snd (run rt ev fuel))))
    `prefix_of` script_ids /\
  exists k, omap msg_id (calls (log (snd (run rt ev fuel))))
            = map JInt (seqZ 1 k) /\
            NoDup (omap msg_id (calls (log (snd (run rt ev fuel))))).
Proof.
  assert (H : map method_and_id (calls (log (snd (run rt ev fuel))))
                `prefix_of` script_ids).
  { etransitivity; [apply prefix_of_map, run_calls | apply script_of_ids]. }
  split; [exact H|].
  destruct (sent_identifiers _ H) as [k Hk]. exists k.
  split; [exact Hk|]. rewrite Hk.
  assert (Hinj : Inj eq eq JInt) by (intros x y [= ->]; reflexivity).
  apply (NoDup_fmap_2 JInt), NoDup_seqZ.
Qed.




(** ** C7: the error-stream reader *)

Lemma reader_loop_spec (fuel : nat) (pipe : nat -> read_result) (name : list Z)
    (k : nat) (out : list event) :
  exists (n : nat) (diags : list event),
    (n <= fuel)%nat /\ length diags = n /\
    (forall i, (i < n)%nat ->
       exists line s, pipe (k + i)%nat = Line line /\ line <> [] /\
                      utf8_decode line = Ret s /\
                      diags !! i = Some (PDiag name (py_strip s))) /\
    ((n = fuel /\ reader_loop fuel pipe name k out = (OutOfFuel, out ++ diags)) \/
     (pipe (k + n)%nat = Line [] /\
      reader_loop fuel pipe name k out = (Ret tt, out ++ diags)) \/
     (exists e, (pipe (k + n)%nat = Fails e \/
                 exists line, pipe (k + n)%nat = Line line /\
                              utf8_decode line = Raise e) /\
                reader_loop fuel pipe name k out = (Raise e, out ++ diags))).
Proof.
  revert k out. induction fuel as [|fuel IH]; intros k out.
  - exists 0%nat, []. split; [lia|]. split; [reflexivity|]. split; [intros i Hi; lia|].
    left. rewrite app_nil_r. split; reflexivity.
  - cbn [reader_loop]. destruct (pipe k) as [line|e] eqn:Ek.
    + destruct line as [|c line].
      * exists 0%nat, []. split; [lia|]. split; [reflexivity|].
        split; [intros i Hi; lia|]. right. left.
        rewrite Nat.add_0_r, app_nil_r. split; [assumption | reflexivity].
      * pose proof (utf8_decode_returns (c :: line)) as Hne.
        destruct (utf8_decode (c :: line)) as [s|e|] eqn:Ed; [| |contradiction].
        -- destruct (IH (S k) (out ++ [PDiag name (py_strip s)]))
             as (n & diags & Hn & Hlen & Hlines & Hend).
           exists (S n), (PDiag name (py_strip s) :: diags).
           split; [lia|]. split; [cbn; lia|]. split.
           ++ intros [|i] Hi.
              ** exists (c :: line), s. rewrite Nat.add_0_r.
                 repeat split; try assumption; discriminate.
              ** destruct (Hlines i ltac:(lia)) as (l' & s' & H1 & H2 & H3 & H4).
                 exists l', s'. replace (k + S i)%nat with (S k + i)%nat by lia.
                 repeat split; assumption.
           ++ replace (k + S n)%nat with (S k + n)%nat by lia.
              rewrite <- app_assoc in Hend. cbn [app] in Hend.
              destruct Hend as [[-> H]|[[H1 H2]|(e & H1 & H2)]].
              ** left. split; [reflexivity | assumption].
              ** right. left. split; assumption.
              ** right. right. exists e. split; assumption.
        -- exists 0%nat, []. split; [lia|]. split; [reflexivity|].
           split; [intros i Hi; lia|]. right. right. exists e.
           rewrite Nat.add_0_r, app_nil_r. split; [|reflexivity].
           right. exists (c :: line). split; assumption.
    + exists 0%nat, []. split; [lia|]. split; [reflexivity|].
      split; [intros i Hi; lia|]. right. right. exists e.
      rewrite Nat.add_0_r, app_nil_r. split; [|reflexivity]. left. assumption.
Qed.

(** C7: whatever the error stream does, [reader] does not raise.  It
    forwards the lines it reads, each decoded and stripped; at the first
    call that fails, or line that does not decode, it logs that failure,
    once and last, and returns; at end-of-stream it returns; otherwise it
    is still reading when the fuel is spent. *)
Theorem reader_contained (fuel : nat) (pipe : nat -> read_result) (name : list Z) :
  (forall e, fst (reader fuel pipe name) <> Raise e) /\
  exists (n : nat) (diags : list event),
    (n <= fuel)%nat /\ length diags = n /\
    (forall i, (i < n)%nat ->
       exists line s, pipe i = Line line /\ line <> [] /\
                      utf8_decode line = Ret s /\
                      diags !! i = Some (PDiag name (py_strip s))) /\
    ((n = fuel /\ reader fuel pipe name = (OutOfFuel, diags)) \/
     (pipe n = Line [] /\ reader fuel pipe name = (Ret tt, diags)) \/
     (exists e, (pipe n = Fails e \/
                 exists line, pipe n = Line line /\ utf8_decode line = Raise e) /\
                reader fuel pipe name
                = (Ret tt, diags ++ [PReaderError name e]))).
Proof.
  destruct (reader_loop_spec fuel pipe name 0 [])
    as (n & diags & Hn & Hlen & Hlines & Hend).
  split.
  { intros e0. unfold reader. cbn [app Nat.add] in Hend.
    destruct Hend as [[-> H]|[[H1 H2]|(e & H1 & H2)]]; rewrite ?H, ?H2;
      discriminate. }
  exists n, diags. split; [assumption|]. split; [assumption|].
  split; [exact Hlines|]. unfold reader. cbn [app Nat.add] in Hend.
  destruct Hend as [[-> H]|[[H1 H2]|(e & H1 & H2)]]; rewrite ?H, ?H2.
  - left. split; reflexivity.
  - right. left. split; [assumption | reflexivity].
  - right. right. exists e. split; [assumption | reflexivity].
Qed.

(** A stream whose second line is not UTF-8: one line forwarded, the
    failure logged, the reader has returned. *)
Example reader_decode_failure :
  reader 10 (fun k => match k with
                      | O => Line (lit "warning: x" ++ [10])
                      | _ => Line [255; 10]
                      end) (lit "STDERR")
  = (Ret tt, [PDiag (lit "STDERR") (lit "warning: x");
              PReaderError (lit "STDERR") UnicodeDecodeError]).
Proof. vm_compute. reflexivity. Qed.

(** ** The reference runtime: the parser's fuel *)

Lemma skip_ws_length (s : list Z) : (length (skip_ws s) <= length s)%nat.
Proof.
  induction s as [|c s IH]; [reflexivity|]. cbn [skip_ws].
  destruct (json_ws c); cbn [length]; lia.
Qed.

Lemma scan_string_length (s acc str rest : list Z) :
  scan_string s acc = Some (str, rest) -> (length rest < length s)%nat.
Proof.
  remember (length s) as n eqn:Hn. revert s acc Hn.
  induction n as [n IH] using lt_wf_ind. intros s acc Hn.
  assert (Hrec : forall s' acc', (length s' < n)%nat ->
            scan_string s' acc' = Some (str, rest) ->
            (length rest < length s')%nat).
  { intros s' acc' Hlt. apply (IH _ Hlt s' acc' eq_refl). }
  destruct s as [|c s]; [discriminate|]. cbn [scan_string].
  cbn [length] in Hn. subst n.
  repeat case_match; try discriminate;
    try (intros [= <- <-]; cbn [length]; lia);
    intros Hscan; apply Hrec in Hscan; subst; cbn [length] in *; lia.
Qed.

Lemma scan_digits_length (s : list Z) (acc : Z) :
  (length (snd (scan_digits s acc)) <= length s)%nat.
Proof.
  revert acc. induction s as [|c s IH]; intros acc; [reflexivity|].
  cbn [scan_digits]. destruct (is_digit c); cbn [snd length]; [|lia].
  specialize (IH (acc * 10 + (c - 48))). lia.
Qed.

Lemma scan_int_length (s : list Z) (n : Z) (rest : list Z) :
  scan_int s = Some (n, rest) -> (length rest < length s)%nat.
Proof.
  unfold scan_int. destruct s as [|c s]; [discriminate|].
  destruct (c =? 48).
  - cbn [snd]. repeat case_match; try discriminate; intros [= <- <-]; cbn; lia.
  - destruct (in_range 49 58 c) eqn:Ec; [|discriminate].
    assert (Hc : 49 <= c < 58) by (apply in_range_spec; exact Ec).
    assert (Hd : is_digit c = true) by (apply in_range_true; lia).
    cbn [scan_digits]. rewrite Hd.
    pose proof (scan_digits_length s (0 * 10 + (c - 48))) as Hlen.
    destruct (scan_digits s (0 * 10 + (c - 48))) as [m r]. cbn [snd] in *.
    repeat case_match; try discriminate; intros [= <- <-]; cbn [length] in *; lia.
Qed.

Lemma strip_prefix_length (p s rest : list Z) :
  strip_prefix p s = Some rest -> (length rest + length p <= length s)%nat \/ p = [].
Proof.
  unfold strip_prefix. destruct (startswith s p) eqn:E; [|discriminate].
  intros [= <-]. rewrite length_drop.
  assert (H : (length p <= length s)%nat).
  { clear -E. revert s E. induction p as [|x p IH]; intros s E; [cbn; lia|].
    destruct s as [|y s]; [discriminate|]. cbn [startswith] in E.
    apply andb_true_iff in E. destruct E as [_ E]. apply IH in E.
    cbn [length]. lia. }
  left. lia.
Qed.

(** With fuel above twice the length of the text the parser ends, and
    what it leaves is shorter than what it was given. *)
Lemma parse_fuel (fuel : nat) :
  (forall s, (2 * length s < fuel)%nat ->
     parse_value fuel s <> OutOfFuel /\
     forall v r, parse_value fuel s = Ret (v, r) -> (length r < length s)%nat) /\
  (forall s acc, (2 * length s + 1 < fuel)%nat ->
     parse_members fuel s acc <> OutOfFuel /\
     forall v r, parse_members fuel s acc = Ret (v, r) ->
                 (length r < length s)%nat) /\
  (forall s acc, (2 * length s + 1 < fuel)%nat ->
     parse_elements fuel s acc <> OutOfFuel /\
     forall v r, parse_elements fuel s acc = Ret (v, r) ->
                 (length r < length s)%nat).
Proof.
  induction fuel as [|fuel (IHv & IHm & IHe)].
  { repeat split; intros; lia. }
  split; [|split].
  - intros s Hf. cbn [parse_value]. destruct s as [|c s']; [split; discriminate|].
    cbn [length] in Hf.
    destruct (c =? 34).
    { destruct (scan_string s' []) as [[str rest]|] eqn:Es; [|split; discriminate].
      apply scan_string_length in Es.
      split; [discriminate|]. intros v r [= <- <-]. cbn [length]. lia. }
    destruct (c =? 123).
    { pose proof (skip_ws_length s') as Hws.
      destruct (skip_ws s') as [|c1 s1] eqn:E1.
      - destruct (IHm [] [] ltac:(cbn; lia)) as [H1 H2]. split; [exact H1|].
        intros v r Hr. apply H2 in Hr. cbn in Hr. lia.
      - destruct (IHm (c1 :: s1) [] ltac:(cbn [length] in *; lia)) as [H1 H2].
        repeat case_match; subst;
          (split; [first [discriminate | exact H1]|]);
          intros v r Hr;
          first [ injection Hr as <- <-; cbn [length] in *; lia
                | apply H2 in Hr; cbn [length] in *; lia ]. }
    destruct (c =? 91).
    { pose proof (skip_ws_length s') as Hws.
      destruct (skip_ws s') as [|c1 s1] eqn:E1.
      - destruct (IHe [] [] ltac:(cbn; lia)) as [H1 H2]. split; [exact H1|].
        intros v r Hr. apply H2 in Hr. cbn in Hr. lia.
      - destruct (IHe (c1 :: s1) [] ltac:(cbn [length] in *; lia)) as [H1 H2].
        repeat case_match; subst;
          (split; [first [discriminate | exact H1]|]);
          intros v r Hr;
          first [ injection Hr as <- <-; cbn [length] in *; lia
                | apply H2 in Hr; cbn [length] in *; lia ]. }
    destruct (c =? 45).
    { destruct (scan_int s') as [[n rest]|] eqn:Ei; [|split; discriminate].
      apply scan_int_length in Ei.
      split; [discriminate|]. intros v r [= <- <-]. cbn [length]. lia. }
    destruct (strip_prefix (lit "null") (c :: s')) as [r0|] eqn:E0.
    { apply strip_prefix_length in E0. destruct E0 as [E0|E0]; [|discriminate].
      split; [discriminate|]. intros v r [= <- <-].
      change (length (lit "null")) with 4%nat in E0. lia. }
    destruct (strip_prefix (lit "true") (c :: s')) as [r1|] eqn:E1.
    { apply strip_prefix_length in E1. destruct E1 as [E1|E1]; [|discriminate].
      split; [discriminate|]. intros v r [= <- <-].
      change (length (lit "true")) with 4%nat in E1. lia. }
    destruct (strip_prefix (lit "false") (c :: s')) as [r2|] eqn:E2.
    { apply strip_prefix_length in E2. destruct E2 as [E2|E2]; [|discriminate].
      split; [discriminate|]. intros v r [= <- <-].
      change (length (lit "false")) with 5%nat in E2. lia. }
    destruct (scan_int (c :: s')) as [[n rest]|] eqn:Ei; [|split; discriminate].
    apply scan_int_length in Ei.
    split; [discriminate|]. intros v r [= <- <-]. lia.
  - intros s acc Hf. cbn [parse_members].
    destruct s as [|c s']; [split; discriminate|].
    destruct c as [|c|c]; try (split; discriminate).
    do 6 (destruct c as [c|c|]; try (split; discriminate)).
    cbn [length] in Hf.
    destruct (scan_string s' []) as [[key s1]|] eqn:Es; [|split; discriminate].
    apply scan_string_length in Es.
    pose proof (skip_ws_length s1) as Hws1.
    destruct (skip_ws s1) as [|c1 s2] eqn:E1; [split; discriminate|].
    destruct c1 as [|c1|c1]; try (split; discriminate).
    do 6 (destruct c1 as [c1|c1|]; try (split; discriminate)).
    cbn [length] in Hws1.
    pose proof (skip_ws_length s2) as Hws2.
    destruct (IHv (skip_ws s2) ltac:(lia)) as [Hv1 Hv2].
    destruct (parse_value fuel (skip_ws s2)) as [[v s3]| |] eqn:Ev;
      cbn [mbind res_bind]; [|split; discriminate|contradiction].
    specialize (Hv2 v s3 eq_refl).
    pose proof (skip_ws_length s3) as Hws3.
    destruct (skip_ws s3) as [|c3 s4] eqn:E3; [split; discriminate|].
    cbn [length] in Hws3.
    pose proof (skip_ws_length s4) as Hws4.
    destruct (IHm (skip_ws s4) (dict_set acc key v) ltac:(lia)) as [Hm1 Hm2].
    repeat case_match; subst; try (split; discriminate);
      (split; [first [discriminate | exact Hm1]|]);
      intros v' r Hr;
      first [ injection Hr as <- <-; cbn [length] in *; lia
            | apply Hm2 in Hr; cbn [length] in *; lia ].
  - intros s acc Hf. cbn [parse_elements].
    destruct (IHv s ltac:(lia)) as [Hv1 Hv2].
    destruct (parse_value fuel s) as [[v s1]| |] eqn:Ev;
      cbn [mbind res_bind]; [|split; discriminate|contradiction].
    specialize (Hv2 v s1 eq_refl).
    pose proof (skip_ws_length s1) as Hws1.
    destruct (skip_ws s1) as [|c1 s2] eqn:E1; [split; discriminate|].
    cbn [length] in Hws1.
    pose proof (skip_ws_length s2) as Hws2.
    destruct (IHe (skip_ws s2) (acc ++ [v]) ltac:(lia)) as [He1 He2].
    repeat case_match; subst; try (split; discriminate);
      (split; [first [discriminate | exact He1]|]);
      intros v' r Hr;
      first [ injection Hr as <- <-; cbn [length] in *; lia
            | apply He2 in Hr; cbn [length] in *; lia ].
Qed.

Lemma ref_loads_fuel (s : list Z) :
  parse_value (S (2 * length s)) (skip_ws s) <> OutOfFuel.
Proof.
  apply (proj1 (parse_fuel (S (2 * length s)))).
  pose proof (skip_ws_length s). lia.
Qed.

(* ===================================================================== *)
(** * Part III: further properties of the code                            *)
(* ===================================================================== *)

(** ** Sieve: the helpers on their own *)

Lemma py_index_out (arr : list Z) (i : Z) :
  Z.of_nat (length arr) <= i -> py_index arr i = Raise IndexError.
Proof.
  intros Hi. unfold py_index.
  rewrite (proj2 (Z.ltb_ge i (Z.of_nat (length arr)))) by assumption.
  rewrite andb_false_r.
  rewrite (proj2 (Z.ltb_ge i 0)) by lia. rewrite andb_false_r. reflexivity.
Qed.

Lemma py_setitem_out (arr : list Z) (i v : Z) :
  Z.of_nat (length arr) <= i -> py_setitem arr i v = Raise IndexError.
Proof. intros Hi. unfold py_setitem. rewrite py_index_out by assumption. reflexivity. Qed.

Lemma py_getitem_out (arr : list Z) (i : Z) :
  Z.of_nat (length arr) <= i -> py_getitem arr i = Raise IndexError.
Proof. intros Hi. unfold py_getitem. rewrite py_index_out by assumption. reflexivity. Qed.

(** A store through any index the list has, negative ones included,
    returns a list of the same length. *)
Lemma py_setitem_valid (arr : list Z) (i v : Z) :
  - Z.of_nat (length arr) <= i < Z.of_nat (length arr) ->
  exists arr', py_setitem arr i v = Ret arr' /\ length arr' = length arr.
Proof.
  intros Hi. unfold py_setitem, py_index.
  destruct ((0 <=? i) && (i <? Z.of_nat (length arr))) eqn:E1.
  - eexists. split; [reflexivity|]. apply length_insert.
  - destruct ((- Z.of_nat (length arr) <=? i) && (i <? 0)) eqn:E2.
    + eexists. split; [reflexivity|]. apply length_insert.
    + exfalso. apply andb_false_iff in E1, E2. lia.
Qed.

(** X1: [init_sieve] on a list that has every index below [size]: the
    entries from [i] up to [size] become 1, every other entry and the
    length stay. *)
Theorem init_sieve_fills (fuel : nat) (arr : list Z) (i size : Z) :
  0 <= i -> size <= Z.of_nat (length arr) ->
  (0 < fuel)%nat -> size - i < Z.of_nat fuel ->
  exists arr', init_sieve fuel arr i size = Ret arr' /\
    length arr' = length arr /\
    forall j : nat,
      arr' !! j = if decide (i <= Z.of_nat j < size) then Some 1 else arr !! j.
Proof.
  revert arr i. induction fuel as [|fuel IH]; intros arr i Hi Hsz Hf0 Hf; [lia|].
  cbn [init_sieve]. destruct (i <? size) eqn:E.
  - apply Z.ltb_lt in E. rewrite py_setitem_in by lia. cbn [mbind res_bind].
    destruct (IH (<[Z.to_nat i := 1]> arr) (i + 1)) as (arr' & Hr & Hl & Hp).
    + lia.
    + rewrite length_insert. assumption.
    + lia.
    + lia.
    + exists arr'. rewrite length_insert in Hl.
      split; [assumption|]. split; [assumption|].
      intros j. rewrite Hp.
      destruct (decide (i + 1 <= Z.of_nat j < size)),
               (decide (i <= Z.of_nat j < size)); try lia; try reflexivity.
      * assert (j = Z.to_nat i) by lia. subst j.
        apply list_lookup_insert_eq. lia.
      * apply list_lookup_insert_ne. lia.
  - apply Z.ltb_ge in E. exists arr. split; [reflexivity|]. split; [reflexivity|].
    intros j. destruct (decide (i <= Z.of_nat j < size)); [lia | reflexivity].
Qed.

Lemma init_sieve_fills_witness :
  exists arr', init_sieve 4 [0; 5; 7; 9] 1 3 = Ret arr' /\
    length arr' = length [0; 5; 7; 9] /\
    forall j : nat,
      arr' !! j = if decide (1 <= Z.of_nat j < 3) then Some 1
                  else [0; 5; 7; 9] !! j.
Proof. apply (init_sieve_fills 4 [0; 5; 7; 9] 1 3); cbn; lia. Defined.

(** X2: [init_sieve] asked to fill beyond the end of the list raises
    [IndexError]. *)
Theorem init_sieve_overrun (fuel : nat) (arr : list Z) (i size : Z) :
  0 <= i < size -> Z.of_nat (length arr) < size ->
  (0 < fuel)%nat -> Z.of_nat (length arr) - i < Z.of_nat fuel ->
  init_sieve fuel arr i size = Raise IndexError.
Proof.
  revert arr i. induction fuel as [|fuel IH]; intros arr i Hi Hsz Hf0 Hf; [lia|].
  cbn [init_sieve]. rewrite (proj2 (Z.ltb_lt i size)) by lia.
  destruct (Z_lt_le_dec i (Z.of_nat (length arr))) as [Hin|Hout].
  - rewrite py_setitem_in by lia. cbn [mbind res_bind].
    apply IH; rewrite ?length_insert; lia.
  - rewrite py_setitem_out by assumption. reflexivity.
Qed.

Lemma init_sieve_overrun_witness : init_sieve 3 [0; 0] 0 3 = Raise IndexError.
Proof. apply (init_sieve_overrun 3 [0; 0] 0 3); cbn; lia. Defined.

(** X3: [clear_multiples] with a positive step on a list that has every index
    below [size]: the entries at [num], [num + factor], ... below [size]
    become 0, every other entry and the length stay. *)
Theorem clear_multiples_clears (fuel : nat) (arr : list Z) (factor num size : Z) :
  0 < factor -> 0 <= num -> size <= Z.of_nat (length arr) ->
  (0 < fuel)%nat -> size - num < Z.of_nat fuel ->
  exists arr', clear_multiples fuel arr factor num size = Ret arr' /\
    length arr' = length arr /\
    forall j : nat,
      arr' !! j =
        if decide (cleared factor num (Z.of_nat j) /\ Z.of_nat j < size)
        then Some 0 else arr !! j.
Proof.
  intros Hfac. revert arr num.
  induction fuel as [|fuel IH]; intros arr num Hn Hsz Hf0 Hf; [lia|].
  cbn [clear_multiples]. destruct (num <? size) eqn:E.
  - apply Z.ltb_lt in E. rewrite py_setitem_in by lia. cbn [mbind res_bind].
    destruct (IH (<[Z.to_nat num := 0]> arr) (num + factor)) as (arr' & Hr & Hl & Hp).
    + lia.
    + rewrite length_insert. assumption.
    + lia.
    + lia.
    + exists arr'. rewrite length_insert in Hl.
      split; [assumption|]. split; [assumption|].
      intros j. rewrite Hp. unfold cleared.
      destruct (decide (Z.of_nat j = num)) as [Heq|Hne].
      * assert (Hj : j = Z.to_nat num) by lia.
        rewrite (decide_True (P := (num <= Z.of_nat j /\ _) /\ _)).
        2:{ rewrite Heq. split; [split; [lia|]|lia].
            replace (num - num) with 0 by lia. apply Z.mod_0_l. lia. }
        rewrite decide_False.
        2:{ intros [[H1 _] _]. lia. }
        subst j. apply list_lookup_insert_eq. lia.
      * rewrite list_lookup_insert_ne by lia.
        assert (Hiff : (num + factor <= Z.of_nat j /\
                        (Z.of_nat j - (num + factor)) mod factor = 0) <->
                       (num <= Z.of_nat j /\ (Z.of_nat j - num) mod factor = 0)).
        { replace (Z.of_nat j - (num + factor))
            with ((Z.of_nat j - num) + (-1) * factor) by lia.
          rewrite Z_mod_plus_full. split; intros [H1 H2]; (split; [|assumption]).
          - lia.
          - destruct (Z_lt_le_dec (Z.of_nat j - num) factor) as [Hlt|]; [|lia].
            rewrite Z.mod_small in H2 by lia. lia. }
        destruct (decide ((num + factor <= Z.of_nat j /\ _) /\ _)),
                 (decide ((num <= Z.of_nat j /\ _) /\ _));
          tauto || reflexivity.
  - apply Z.ltb_ge in E. exists arr. split; [reflexivity|]. split; [reflexivity|].
    intros j. rewrite decide_False; [reflexivity|]. unfold cleared. lia.
Qed.

Lemma clear_multiples_clears_witness :
  exists arr', clear_multiples 8 [1; 1; 1; 1; 1; 1; 1; 1] 3 1 7 = Ret arr' /\
    length arr' = length [1; 1; 1; 1; 1; 1; 1; 1] /\
    forall j : nat,
      arr' !! j =
        if decide (cleared 3 1 (Z.of_nat j) /\ Z.of_nat j < 7)
        then Some 0 else [1; 1; 1; 1; 1; 1; 1; 1] !! j.
Proof.
  apply (clear_multiples_clears 8 [1; 1; 1; 1; 1; 1; 1; 1] 3 1 7); cbn; lia.
Defined.

(** X4: [clear_multiples] with step 0 never returns: whatever the fuel, the
    loop is still storing at the same index when it is spent. *)
Theorem clear_multiples_zero_step (fuel : nat) (arr : list Z) (num size : Z) :
  - Z.of_nat (length arr) <= num < Z.of_nat (length arr) -> num < size ->
  clear_multiples fuel arr 0 num size = OutOfFuel.
Proof.
  revert arr. induction fuel as [|fuel IH]; intros arr Hn Hs; [reflexivity|].
  cbn [clear_multiples]. rewrite (proj2 (Z.ltb_lt num size)) by assumption.
  destruct (py_setitem_valid arr num 0 Hn) as (arr' & -> & Hl).
  cbn [mbind res_bind]. rewrite Z.add_0_r. apply IH; [rewrite Hl|]; assumption.
Qed.

Lemma clear_multiples_zero_step_witness :
  clear_multiples 1000 [1; 1; 1] 0 1 3 = OutOfFuel.
Proof. apply (clear_multiples_zero_step 1000 [1; 1; 1] 1 3); cbn; lia. Defined.

(** X5: [find_next_prime] returns the first index from [i] on whose entry is
    1, when there is one up to [limit]; it reads nothing beyond it, so
    [limit] may lie outside the list. *)
Theorem find_next_prime_first (fuel : nat) (arr : list Z) (i limit r : Z) :
  0 <= i <= r -> r <= limit -> arr !! Z.to_nat r = Some 1 ->
  (forall j, i <= j < r -> arr !! Z.to_nat j <> Some 1) ->
  r - i < Z.of_nat fuel ->
  find_next_prime fuel arr i limit = Ret r.
Proof.
  intros Hir Hrl Hone. pose proof (lookup_lt_Some _ _ _ Hone) as Hlen.
  revert i Hir. induction fuel as [|fuel IH]; intros i Hir Hnone Hf; [lia|].
  cbn [find_next_prime]. rewrite (proj2 (Z.leb_le i limit)) by lia.
  destruct (lookup_lt_is_Some_2 arr (Z.to_nat i)) as [v Hv]; [lia|].
  rewrite (py_getitem_in _ _ _ (proj1 Hir) Hv). cbn [mbind res_bind].
  destruct (Z.eqb_spec v 1) as [->|Hv1].
  - destruct (Z.eq_dec i r) as [->|Hne]; [reflexivity|].
    exfalso. apply (Hnone i); [lia | assumption].
  - assert (i <> r) by (intros ->; rewrite Hone in Hv; congruence).
    apply IH; [lia | | lia]. intros j Hj. apply Hnone. lia.
Qed.

Lemma find_next_prime_first_witness :
  find_next_prime 3 [0; 0; 1; 1] 1 100 = Ret 2.
Proof.
  apply (find_next_prime_first 3 [0; 0; 1; 1] 1 100 2); try (cbn; lia).
  - reflexivity.
  - intros j Hj. assert (j = 1) as -> by lia. discriminate.
Defined.

(** X6: [find_next_prime] returns 0 when no entry from [i] to [limit] is 1,
    all of them being in the list. *)
Theorem find_next_prime_none (fuel : nat) (arr : list Z) (i limit : Z) :
  0 <= i -> limit < Z.of_nat (length arr) ->
  (forall j, i <= j <= limit -> arr !! Z.to_nat j <> Some 1) ->
  (0 < fuel)%nat -> limit + 1 - i < Z.of_nat fuel ->
  find_next_prime fuel arr i limit = Ret 0.
Proof.
  intros Hi Hlim. revert i Hi.
  induction fuel as [|fuel IH]; intros i Hi Hnone Hf0 Hf; [lia|].
  cbn [find_next_prime]. destruct (i <=? limit) eqn:E; [|reflexivity].
  apply Z.leb_le in E.
  destruct (lookup_lt_is_Some_2 arr (Z.to_nat i)) as [v Hv]; [lia|].
  rewrite (py_getitem_in _ _ _ Hi Hv). cbn [mbind res_bind].
  destruct (Z.eqb_spec v 1) as [->|Hv1].
  - exfalso. apply (Hnone i); [lia | assumption].
  - apply IH; [lia | | lia | lia]. intros j Hj. apply Hnone. lia.
Qed.

Lemma find_next_prime_none_witness :
  find_next_prime 4 [1; 0; 0; 1] 1 2 = Ret 0.
Proof.
  apply (find_next_prime_none 4 [1; 0; 0; 1] 1 2); try (cbn; lia).
  intros j Hj. assert (j = 1 \/ j = 2) as [-> | ->] by lia; discriminate.
Defined.

(** X7: [find_next_prime] searching up to a [limit] outside the list raises
    [IndexError] when no entry from [i] to the end of the list is 1. *)
Theorem find_next_prime_overrun (fuel : nat) (arr : list Z) (i limit : Z) :
  0 <= i <= limit -> Z.of_nat (length arr) <= limit ->
  (forall j, i <= j < Z.of_nat (length arr) -> arr !! Z.to_nat j <> Some 1) ->
  (0 < fuel)%nat -> Z.of_nat (length arr) - i < Z.of_nat fuel ->
  find_next_prime fuel arr i limit = Raise IndexError.
Proof.
  intros Hi Hlim. revert i Hi.
  induction fuel as [|fuel IH]; intros i Hi Hnone Hf0 Hf; [lia|].
  cbn [find_next_prime]. rewrite (proj2 (Z.leb_le i limit)) by lia.
  destruct (Z_lt_le_dec i (Z.of_nat (length arr))) as [Hin|Hout].
  - destruct (lookup_lt_is_Some_2 arr (Z.to_nat i)) as [v Hv]; [lia|].
    rewrite (py_getitem_in _ _ _ (proj1 Hi) Hv). cbn [mbind res_bind].
    destruct (Z.eqb_spec v 1) as [->|Hv1].
    + exfalso. apply (Hnone i); [lia | assumption].
    + apply IH; [lia | | lia | lia]. intros j Hj. apply Hnone. lia.
  - rewrite py_getitem_out by assumption. reflexivity.
Qed.

Lemma find_next_prime_overrun_witness :
  find_next_prime 3 [1; 0; 0] 1 5 = Raise IndexError.
Proof.
  apply (find_next_prime_overrun 3 [1; 0; 0] 1 5); try (cbn; lia).
  intros j Hj. cbn in Hj. assert (j = 1 \/ j = 2) as [-> | ->] by lia; discriminate.
Defined.

(** X8: [isqrt] on positive arguments returns the smaller of the guess and
    the integer square root: from a guess below the root it returns the
    guess unchanged. *)
Theorem isqrt_min (fuel : nat) (n guess : Z) :
  1 <= n -> 1 <= guess -> guess < Z.of_nat fuel ->
  isqrt fuel n guess = Ret (Z.min guess (Z.sqrt n)).
Proof.
  intros Hn Hg Hf. pose proof (Z.sqrt_spec n ltac:(lia)) as Hs. cbv zeta in Hs.
  pose proof (Z.sqrt_nonneg n) as Hs0.
  destruct (Z_lt_le_dec guess (Z.sqrt n)) as [Hlow|Hhigh].
  - rewrite Z.min_l by lia. destruct fuel as [|fuel]; [lia|].
    cbn [isqrt]. unfold py_floordiv.
    rewrite (proj2 (Z.eqb_neq guess 0)) by lia. cbn [mbind res_bind].
    assert (Hq : guess <= n / guess).
    { apply Z.div_le_lower_bound; [lia|]. nia. }
    assert (Hnext : guess <= (guess + n / guess) / 2).
    { apply Z.div_le_lower_bound; lia. }
    rewrite (proj2 (Z.geb_le _ _)) by assumption. reflexivity.
  - rewrite Z.min_r by assumption. apply isqrt_spec; lia.
Qed.

Lemma isqrt_min_witness : isqrt 4 50 3 = Ret (Z.min 3 (Z.sqrt 50)).
Proof. apply (isqrt_min 4 50 3); lia. Defined.

(** X9: [isqrt] of 0 raises [ZeroDivisionError] from every guess that is not
    negative: the guess is halved down to 0 and then divided by. *)
Theorem isqrt_zero (fuel : nat) (guess : Z) :
  0 <= guess < Z.of_nat fuel ->
  isqrt fuel 0 guess = Raise ZeroDivisionError.
Proof.
  revert guess. induction fuel as [|fuel IH]; intros guess Hg; [lia|].
  cbn [isqrt]. unfold py_floordiv.
  destruct (Z.eqb_spec guess 0) as [->|Hnz]; [reflexivity|].
  cbn [mbind res_bind]. rewrite Z.div_0_l by lia. rewrite Z.add_0_r.
  assert (Hhalf : 0 <= guess / 2 < guess) by dlia.
  destruct (guess / 2 >=? guess) eqn:E.
  - apply Z.geb_le in E. lia.
  - apply IH. lia.
Qed.

Lemma isqrt_zero_witness : isqrt 6 0 5 = Raise ZeroDivisionError.
Proof. apply (isqrt_zero 6 5). lia. Defined.

Lemma count_primes_from_take (fuel : nat) (arr : list Z) (size count i : Z) :
  0 <= i -> size <= Z.of_nat (length arr) ->
  (0 < fuel)%nat -> size - i < Z.of_nat fuel ->
  count_primes_from fuel arr size count i =
    Ret (count + Z.of_nat (length (filter (fun v => v = 1)
                                     (drop (Z.to_nat i) (take (Z.to_nat size) arr))))).
Proof.
  revert count i. induction fuel as [|fuel IH]; intros count i Hi Hsz Hf0 Hf; [lia|].
  cbn [count_primes_from]. destruct (i <? size) eqn:E.
  - apply Z.ltb_lt in E.
    destruct (lookup_lt_is_Some_2 arr (Z.to_nat i)) as [v Hv]; [lia|].
    rewrite (py_getitem_in _ _ _ Hi Hv). cbn [mbind res_bind].
    rewrite IH by lia.
    assert (Hv' : take (Z.to_nat size) arr !! Z.to_nat i = Some v).
    { rewrite lookup_take_lt by lia. assumption. }
    rewrite (drop_S _ _ _ Hv').
    replace (Z.to_nat (i + 1)) with (S (Z.to_nat i)) by lia.
    f_equal. rewrite filter_cons.
    destruct (v =? 1) eqn:Ev.
    + apply Z.eqb_eq in Ev. rewrite decide_True by assumption. cbn [length]. lia.
    + apply Z.eqb_neq in Ev. rewrite decide_False by assumption. lia.
  - apply Z.ltb_ge in E. rewrite drop_ge.
    + cbn. f_equal. lia.
    + rewrite length_take. lia.
Qed.

(** X10: [count_primes] on a list that has every index below [size] returns
    one more than the number of entries equal to 1 among its first
    [size]: the count starts at 1, so an empty range gives 1. *)
Theorem count_primes_counts (fuel : nat) (arr : list Z) (size : Z) :
  size <= Z.of_nat (length arr) -> (0 < fuel)%nat -> size < Z.of_nat fuel ->
  count_primes fuel arr size =
    Ret (1 + Z.of_nat (length (filter (fun v => v = 1) (take (Z.to_nat size) arr)))).
Proof.
  intros Hsz Hf0 Hf. unfold count_primes.
  rewrite count_primes_from_take by lia. reflexivity.
Qed.

Lemma count_primes_counts_witness :
  count_primes 4 [1; 0; 1; 1] 3 =
    Ret (1 + Z.of_nat (length (filter (fun v => v = 1)
                                 (take (Z.to_nat 3) [1; 0; 1; 1])))).
Proof. apply (count_primes_counts 4 [1; 0; 1; 1] 3); cbn; lia. Defined.

Lemma count_primes_from_overrun (fuel : nat) (arr : list Z) (size count i : Z) :
  0 <= i < size -> Z.of_nat (length arr) < size ->
  (0 < fuel)%nat -> Z.of_nat (length arr) - i < Z.of_nat fuel ->
  count_primes_from fuel arr size count i = Raise IndexError.
Proof.
  revert count i. induction fuel as [|fuel IH]; intros count i Hi Hsz Hf0 Hf; [lia|].
  cbn [count_primes_from]. rewrite (proj2 (Z.ltb_lt i size)) by lia.
  destruct (Z_lt_le_dec i (Z.of_nat (length arr))) as [Hin|Hout].
  - destruct (lookup_lt_is_Some_2 arr (Z.to_nat i)) as [v Hv]; [lia|].
    rewrite (py_getitem_in _ _ _ (proj1 Hi) Hv). cbn [mbind res_bind].
    apply IH; lia.
  - rewrite py_getitem_out by assumption. reflexivity.
Qed.

(** X11: [count_primes] asked to count beyond the end of the list raises
    [IndexError]. *)
Theorem count_primes_overrun (fuel : nat) (arr : list Z) (size : Z) :
  Z.of_nat (length arr) < size -> Z.of_nat (length arr) < Z.of_nat fuel ->
  count_primes fuel arr size = Raise IndexError.
Proof.
  intros Hsz Hf. unfold count_primes.
  apply count_primes_from_overrun; lia.
Qed.

Lemma count_primes_overrun_witness :
  count_primes 3 [1; 0] 3 = Raise IndexError.
Proof. apply (count_primes_overrun 3 [1; 0] 3); cbn; lia. Defined.

(** X12: [run_sieve] below 2 does not return a count: for a limit of 0 or
    less the store into the empty list raises [IndexError], for 1 the
    first guess of the square root is 0 and the division raises. *)
Theorem run_sieve_below_two (fuel : nat) (limit : Z) :
  limit < 2 -> (2 <= fuel)%nat ->
  run_sieve fuel limit
  = Raise (if limit <? 1 then IndexError else ZeroDivisionError).
Proof.
  intros Hl Hf. destruct fuel as [|[|fuel]]; try lia.
  destruct (Z.ltb_spec limit 1) as [Hneg|Hone].
  - unfold run_sieve. cbv zeta.
    assert (Hsize : (limit + 1) / 2 <= 0) by dlia.
    replace (Z.to_nat ((limit + 1) / 2)) with 0%nat by lia.
    cbn [replicate init_sieve].
    rewrite (proj2 (Z.ltb_ge 0 ((limit + 1) / 2))) by assumption.
    reflexivity.
  - assert (limit = 1) as -> by lia. reflexivity.
Qed.

Lemma run_sieve_below_two_witness :
  run_sieve 2 1 = Raise (if 1 <? 1 then IndexError else ZeroDivisionError).
Proof. apply (run_sieve_below_two 2 1); lia. Defined.

(** ** The session: one call of [send] *)

Lemma sent_inv (rt : runtime) (m : json) :
  sent rt m <> [] ->
  exists content enc meth,
    json_dumps rt m = inr content /\ utf8_encode content = Ret enc /\
    py_get m (lit "method") = Ret meth /\
    sent rt m = [ACallSend m; AStdinWrite (frame_header (Z.of_nat (length enc)));
                 AStdinWrite enc; AStdinFlush; APrint (PSent meth)].
Proof.
  unfold sent. destruct (json_dumps rt m) as [e|content]; [contradiction|].
  destruct (utf8_encode content) as [enc| |] eqn:He; try contradiction.
  destruct (py_get m (lit "method")) as [meth| |] eqn:Hm; try contradiction.
  intros _. exists content, enc, meth. repeat split; reflexivity || assumption.
Qed.

(** A call of [send] returns when the message can be sent and the three
    operations on the child's input go through. *)
Lemma send_succeeds (rt : runtime) (ev : env) (m : json) (w : world) :
  sent rt m <> [] ->
  stdin_fault ev (stdin_ops w) = false ->
  stdin_fault ev (S (stdin_ops w)) = false ->
  stdin_fault ev (S (S (stdin_ops w))) = false ->
  send rt ev m w = (Ret tt, after_ops w 3 (sent rt m)).
Proof.
  intros Hs H0 H1 H2.
  destruct (sent_inv rt m Hs) as (content & enc & meth & Hd & He & Hm & ->).
  unfold send. unfold mbind, M_bind, lift, print, emit, stdin_write, stdin_flush,
    stdin_op, emit.
  rewrite Hd. cbn [of_sum]. rewrite He.
  rewrite utf8_encode_ascii by (apply frame_header_ascii; lia).
  cbn [log stdout_rest stdin_ops proc]. rewrite H0.
  cbn [log stdout_rest stdin_ops proc]. rewrite H1.
  cbn [log stdout_rest stdin_ops proc]. rewrite H2.
  cbn [log stdout_rest stdin_ops proc]. rewrite Hm.
  unfold after_ops. rewrite <- !app_assoc. reflexivity.
Qed.

(** Conversely, a call that returned could send the message and met no
    failing operation. *)
Lemma send_returned (rt : runtime) (ev : env) (m : json) (w w' : world) :
  send rt ev m w = (Ret tt, w') ->
  sent rt m <> [] /\ w' = after_ops w 3 (sent rt m) /\
  stdin_fault ev (stdin_ops w) = false /\
  stdin_fault ev (S (stdin_ops w)) = false /\
  stdin_fault ev (S (S (stdin_ops w))) = false.
Proof.
  unfold send, sent. unfold mbind, M_bind, lift, print, emit, stdin_write,
    stdin_flush, stdin_op, emit.
  destruct (json_dumps rt m) as [e|content]; cbn [of_sum]; [intros [=]|].
  destruct (utf8_encode content) as [enc| |] eqn:Eenc; [|intros [=]|intros [=]].
  rewrite utf8_encode_ascii by (apply frame_header_ascii; lia).
  cbn [log stdout_rest stdin_ops proc].
  destruct (stdin_fault ev (stdin_ops w)); [intros [=]|].
  cbn [log stdout_rest stdin_ops proc].
  destruct (stdin_fault ev (S (stdin_ops w))); [intros [=]|].
  cbn [log stdout_rest stdin_ops proc].
  destruct (stdin_fault ev (S (S (stdin_ops w)))); [intros [=]|].
  cbn [log stdout_rest stdin_ops proc].
  destruct (py_get m (lit "method")) as [meth| |] eqn:Em; [|intros [=]|intros [=]].
  intros [= <-]. unfold after_ops. cbn [log stdout_rest stdin_ops proc].
  rewrite <- !app_assoc. repeat split; try reflexivity. discriminate.
Qed.

(** X13: what a call of [send] has written when it is over, however it ended:
    nothing, the header of the frame, or the whole frame; the header
    declares the number of bytes of the body.  A call that returns has
    written the whole frame. *)
Theorem send_written_cases (rt : runtime) (ev : env) (m : json) (w : world) :
  let r := send rt ev m w in
  let out := written (drop (length (log w)) (log (snd r))) in
  (out = [] \/
   exists content body,
     json_dumps rt m = inr content /\ utf8_encode content = Ret body /\
     (out = frame_header (Z.of_nat (length body)) \/
      out = frame_header (Z.of_nat (length body)) ++ body)) /\
  (fst r = Ret tt ->
   exists content body,
     json_dumps rt m = inr content /\ utf8_encode content = Ret body /\
     out = frame_header (Z.of_nat (length body)) ++ body).
Proof.
  cbv zeta. unfold send.
  unfold mbind, M_bind, lift, print, emit, stdin_write, stdin_flush, stdin_op, emit.
  destruct (json_dumps rt m) as [e|content]; cbn [of_sum fst snd log].
  { rewrite drop_app_length. split; [left; reflexivity | discriminate]. }
  destruct (utf8_encode content) as [body| |] eqn:Eenc; cbn [fst snd log];
    try (rewrite drop_app_length; split; [left; reflexivity | discriminate]).
  rewrite utf8_encode_ascii by (apply frame_header_ascii; lia).
  cbn [log stdout_rest stdin_ops proc].
  destruct (stdin_fault ev (stdin_ops w)); cbn [fst snd log stdout_rest stdin_ops proc].
  { rewrite drop_app_length. split; [left; reflexivity | discriminate]. }
  destruct (stdin_fault ev (S (stdin_ops w)));
    cbn [fst snd log stdout_rest stdin_ops proc].
  { rewrite <- !app_assoc, drop_app_length. cbn [app written].
    rewrite app_nil_r. split; [|discriminate].
    right. exists content, body. split; [reflexivity|]. split; [exact Eenc|].
    left. reflexivity. }
  assert (Hfull : forall tail,
            forallb (fun a => negb (match a with AStdinWrite _ => true | _ => false end))
              tail = true ->
            written (drop (length (log w))
                       (((log w ++ [ACallSend m])
                         ++ [AStdinWrite (frame_header (Z.of_nat (length body)))])
                        ++ [AStdinWrite body] ++ tail))
            = frame_header (Z.of_nat (length body)) ++ body).
  { intros tail Ht. rewrite <- !app_assoc, drop_app_length. cbn [app written].
    f_equal. rewrite <- (app_nil_r body) at 2. f_equal.
    clear -Ht. induction tail as [|a tail IH]; [reflexivity|].
    cbn [forallb] in Ht. apply andb_true_iff in Ht. destruct Ht as [Ha Ht].
    destruct a; try discriminate; cbn [written]; apply IH; assumption. }
  destruct (stdin_fault ev (S (S (stdin_ops w))));
    cbn [fst snd log stdout_rest stdin_ops proc].
  { split; [|discriminate]. right. exists content, body.
    split; [reflexivity|]. split; [exact Eenc|]. right.
    rewrite <- (app_nil_r (_ ++ [AStdinWrite body])), <- app_assoc.
    apply (Hfull []). reflexivity. }
  destruct (py_get m (lit "method")) as [meth| |];
    cbn [fst snd log stdout_rest stdin_ops proc].
  - assert (Hout : written (drop (length (log w))
                     (((((log w ++ [ACallSend m])
                         ++ [AStdinWrite (frame_header (Z.of_nat (length body)))])
                        ++ [AStdinWrite body]) ++ [AStdinFlush])
                      ++ [APrint (PSent meth)]))
                   = frame_header (Z.of_nat (length body)) ++ body).
    { rewrite <- (Hfull [AStdinFlush; APrint (PSent meth)] eq_refl).
      rewrite <- !app_assoc. reflexivity. }
    rewrite Hout. split.
    + right. exists content, body. split; [reflexivity|]. split; [exact Eenc|].
      right. reflexivity.
    + intros _. exists content, body. split; [reflexivity|]. split; [exact Eenc|].
      reflexivity.
  - split; [|discriminate]. right. exists content, body.
    split; [reflexivity|]. split; [exact Eenc|]. right.
    rewrite <- (Hfull [AStdinFlush] eq_refl). rewrite <- !app_assoc. reflexivity.
  - split; [|discriminate]. right. exists content, body.
    split; [reflexivity|]. split; [exact Eenc|]. right.
    rewrite <- (Hfull [AStdinFlush] eq_refl). rewrite <- !app_assoc. reflexivity.
Qed.

(** ** The session: the sending phase, step by step *)

Lemma bind_ret_inv {A B} (m : M A) (k : A -> M B) (w w' : world) (b : B) :
  (m ≫= k) w = (Ret b, w') ->
  exists a w1, m w = (Ret a, w1) /\ k a w1 = (Ret b, w').
Proof.
  unfold mbind, M_bind. destruct (m w) as [[a|e|] w1]; try discriminate.
  intros H. exists a, w1. split; [reflexivity | assumption].
Qed.

Lemma bind_ret_step {A B} (m : M A) (k : A -> M B) (w w1 : world) (a : A) :
  m w = (Ret a, w1) -> (m ≫= k) w = k a w1.
Proof. intros H. unfold mbind, M_bind. rewrite H. reflexivity. Qed.

Lemma bind_raise_step {A B} (m : M A) (k : A -> M B) (w w1 : world) (e : exn) :
  m w = (Raise e, w1) -> (m ≫= k) w = (Raise e, w1).
Proof. intros H. unfold mbind, M_bind. rewrite H. reflexivity. Qed.

Lemma after_ops_after_ops (w : world) (k1 k2 : nat) (a1 a2 : list action) :
  after_ops (after_ops w k1 a1) k2 a2 = after_ops w (k2 + k1) (a1 ++ a2).
Proof.
  unfold after_ops. cbn [log stdout_rest stdin_ops proc].
  rewrite <- app_assoc, Nat.add_assoc. reflexivity.
Qed.

Lemma emit_after_ops (a : action) (w : world) :
  emit a w = (Ret tt, after_ops w 0 [a]).
Proof. reflexivity. Qed.

Lemma open_input_returned (ev : env) (w w' : world) (txt : list Z) :
  open_input ev w = (Ret txt, w') ->
  input_file ev = inr txt /\ w' = after_ops w 0 [AOpenInput].
Proof.
  unfold open_input, mbind, M_bind, emit, lift.
  destruct (input_file ev) as [e|t]; cbn [of_sum]; intros [=]. subst.
  split; reflexivity.
Qed.

(** The sending phase, when it returns, has done exactly this; every one
    of its eighteen operations on the child's input went through. *)
Lemma scenario_sends_returned (rt : runtime) (ev : env) (w w' : world) :
  scenario_sends rt ev w = (Ret tt, w') ->
  exists txt,
    input_file ev = inr txt /\
    w' = after_ops w 18 (sending_phase rt txt) /\
    Forall (fun m => sent rt m <> []) (script txt) /\
    forallb (fun k => negb (stdin_fault ev (k + stdin_ops w))) (seq 0 18) = true.
Proof.
  unfold scenario_sends. intros H.
  apply bind_ret_inv in H as ([] & w1 & H1 & H).
  apply bind_ret_inv in H as ([] & w2 & H2 & H).
  apply bind_ret_inv in H as (txt & w3 & H3 & H).
  apply bind_ret_inv in H as ([] & w4 & H4 & H).
  apply bind_ret_inv in H as ([] & w5 & H5 & H).
  apply bind_ret_inv in H as ([] & w6 & H6 & H).
  apply bind_ret_inv in H as ([] & w7 & H7 & H).
  apply bind_ret_inv in H as ([] & w8 & H8 & H).
  apply send_returned in H1 as (S1 & -> & F1 & F2 & F3).
  apply send_returned in H2 as (S2 & -> & F4 & F5 & F6).
  apply open_input_returned in H3 as (Hin & ->).
  apply send_returned in H4 as (S3 & -> & F7 & F8 & F9).
  apply send_returned in H5 as (S4 & -> & F10 & F11 & F12).
  apply send_returned in H6 as (S5 & -> & F13 & F14 & F15).
  unfold print in H7, H. rewrite emit_after_ops in H7, H.
  injection H7 as <-.
  apply send_returned in H8 as (S6 & -> & F16 & F17 & F18).
  injection H as <-.
  exists txt. split; [assumption|]. split; [|split].
  - rewrite !after_ops_after_ops. unfold sending_phase.
    rewrite <- ?app_assoc. reflexivity.
  - unfold script. repeat constructor; assumption.
  - cbn [after_ops stdin_ops Nat.add] in *. cbn [seq forallb Nat.add].
    rewrite F1, F2, F3, F4, F5, F6, F7, F8, F9, F10, F11, F12, F13, F14, F15,
      F16, F17, F18. reflexivity.
Qed.

Lemma calls_sent (rt : runtime) (m : json) : sent rt m <> [] -> calls (sent rt m) = [m].
Proof.
  intros H. destruct (sent_inv rt m H) as (content & enc & meth & _ & _ & _ & ->).
  reflexivity.
Qed.

Lemma length_sent (rt : runtime) (m : json) :
  sent rt m <> [] -> length (sent rt m) = 5%nat.
Proof.
  intros H. destruct (sent_inv rt m H) as (content & enc & meth & _ & _ & _ & ->).
  reflexivity.
Qed.

(** X14: when the sending phase of [run] returns, it has done exactly this, in
    order: for [initialize] and for [initialized] the call, the write of
    the header, the write of the body, the flush and the [Sent:] line;
    the opening of the sample file; the same five steps for [didOpen],
    for [semanticTokens] and for [documentSymbol], then the line
    [Sent documentSymbol]; the five steps for [definition], then the line
    [Sent definition].  Nothing was read from the child, and none of the
    eighteen operations on its input failed. *)
Theorem sending_phase_log (rt : runtime) (ev : env) (w w' : world) :
  scenario_sends rt ev w = (Ret tt, w') ->
  exists txt,
    input_file ev = inr txt /\
    log w' = log w ++ sending_phase rt txt /\
    calls (sending_phase rt txt) = script txt /\
    length (sending_phase rt txt) = 33%nat /\
    stdout_rest w' = stdout_rest w /\
    forall k, (k < 18)%nat -> stdin_fault ev (k + stdin_ops w) = false.
Proof.
  intros H. destruct (scenario_sends_returned rt ev w w' H)
    as (txt & Hin & -> & Hall & Hops).
  exists txt. split; [assumption|]. split; [reflexivity|].
  unfold script in Hall.
  repeat match goal with
         | H : Forall _ (_ :: _) |- _ =>
             apply Forall_cons_1 in H; destruct H as [? H]
         end.
  split; [|split; [|split]].
  - unfold sending_phase, script. rewrite !calls_app, !calls_sent by assumption.
    reflexivity.
  - unfold sending_phase. rewrite !length_app, !length_sent by assumption.
    reflexivity.
  - reflexivity.
  - intros k Hk. rewrite forallb_forall in Hops.
    specialize (Hops k). rewrite in_seq in Hops.
    apply negb_true_iff. apply Hops. lia.
Qed.

Lemma sending_phase_log_witness :
  exists txt,
    input_file demo_env = inr txt /\
    log (snd (scenario_sends ref_runtime demo_env (initial_world demo_env)))
    = log (initial_world demo_env) ++ sending_phase ref_runtime txt /\
    calls (sending_phase ref_runtime txt) = script txt /\
    length (sending_phase ref_runtime txt) = 33%nat /\
    stdout_rest (snd (scenario_sends ref_runtime demo_env (initial_world demo_env)))
    = stdout_rest (initial_world demo_env) /\
    forall k, (k < 18)%nat ->
              stdin_fault demo_env (k + stdin_ops (initial_world demo_env)) = false.
Proof.
  apply (sending_phase_log ref_runtime demo_env (initial_world demo_env)).
  vm_compute. reflexivity.
Defined.

(** ** The session: what failures do to a run *)

(** X15: when the executable cannot be started, [run] raises: the [try]
    statement is not entered, so nothing is sent, no [Error:] line is
    printed and [terminate] is not called; the only thing done is the
    [Starting:] line. *)
Theorem run_spawn_failure (rt : runtime) (ev : env) (fuel : nat) :
  spawn_ok ev = false ->
  fst (run rt ev fuel) = Raise OSError /\
  log (snd (run rt ev fuel)) = [APrint PStarting].
Proof.
  intros H. rewrite run_unfold, H. split; reflexivity.
Qed.

Lemma run_spawn_failure_witness :
  fst (run ref_runtime no_child_env 5) = Raise OSError /\
  log (snd (run ref_runtime no_child_env 5)) = [APrint PStarting].
Proof. apply (run_spawn_failure ref_runtime no_child_env 5). reflexivity. Defined.

Lemma scenario_raised (rt : runtime) (ev : env) (fuel : nat) (w w1 : world)
    (e : exn) :
  scenario_sends rt ev w = (Raise e, w1) ->
  fst (scenario rt ev fuel w) = Ret tt /\
  log (snd (scenario rt ev fuel w)) = log w1 ++ [APrint (PError e); ATerminate].
Proof.
  intros H. unfold scenario, scenario_body.
  rewrite (bind_raise_step _ _ _ _ _ H).
  unfold mbind, M_bind, print, emit, terminate.
  cbn [log stdout_rest stdin_ops proc fst snd]. rewrite <- app_assoc.
  split; reflexivity.
Qed.

(** A run whose sending phase does not return: nothing is read from the
    child, an [Error:] line is printed, the child is asked to terminate
    and [run] returns. *)
Lemma run_sending_failed (rt : runtime) (ev : env) (fuel : nat) :
  spawn_ok ev = true ->
  fst (scenario_sends rt ev
         (with_out (initial_world ev) [APrint PStarting; ASpawn] (child_stdout ev)))
  <> Ret tt ->
  fst (run rt ev fuel) = Ret tt /\
  forallb (fun a => negb (is_read a)) (log (snd (run rt ev fuel))) = true /\
  calls (log (snd (run rt ev fuel))) `prefix_of` script_of ev /\
  exists before e,
    log (snd (run rt ev fuel)) = before ++ [APrint (PError e); ATerminate].
Proof.
  intros Hspawn Hne. rewrite run_unfold, Hspawn.
  set (w0 := with_out (initial_world ev) [APrint PStarting; ASpawn] (child_stdout ev)) in *.
  destruct (Sends_scenario_sends rt ev w0) as (d & Hlog & Hsending & Hpre & _).
  destruct (Steady_scenario_sends rt ev w0) as [Hfuel _].
  destruct (scenario_sends rt ev w0) as [[[]|e|] w1] eqn:E; cbn [fst snd] in *;
    [contradiction | | contradiction].
  destruct (scenario_raised rt ev fuel w0 w1 e E) as [Hret Hl].
  split; [assumption|]. rewrite Hl, Hlog.
  split; [|split].
  - rewrite !forallb_app. cbn [log w0 with_out initial_world app forallb is_read negb].
    rewrite andb_true_r. cbn [andb].
    eapply forallb_weaken; [|exact Hsending].
    intros a Ha. destruct (sending_facts a Ha) as [-> _]. reflexivity.
  - rewrite !calls_app. cbn [log w0 with_out initial_world app calls].
    rewrite app_nil_r. assumption.
  - exists (log w0 ++ d), e. reflexivity.
Qed.

Lemma open_input_raised (ev : env) (w : world) (e : exn) :
  input_file ev = inl e ->
  open_input ev w = (Raise e, after_ops w 0 [AOpenInput]).
Proof.
  intros H. unfold open_input, mbind, M_bind, emit, lift. rewrite H. reflexivity.
Qed.

(** X16: when the sample file cannot be read, [run] reads nothing from the
    child and sends at most [initialize] and [initialized]; it prints an
    [Error:] line, asks the child to terminate and returns.  When those
    two messages went out, the log is exactly: start, the two messages,
    the attempt to open the file, the line [Error:] with the error of the
    file, the cleanup. *)
Theorem input_file_missing (rt : runtime) (ev : env) (fuel : nat) (e : exn) :
  spawn_ok ev = true -> input_file ev = inl e ->
  fst (run rt ev fuel) = Ret tt /\
  forallb (fun a => negb (is_read a)) (log (snd (run rt ev fuel))) = true /\
  calls (log (snd (run rt ev fuel))) `prefix_of` [msg_initialize; msg_initialized] /\
  (exists before e',
     log (snd (run rt ev fuel)) = before ++ [APrint (PError e'); ATerminate]) /\
  (sent rt msg_initialize <> [] -> sent rt msg_initialized <> [] ->
   (forall k, (k < 6)%nat -> stdin_fault ev k = false) ->
   log (snd (run rt ev fuel))
   = [APrint PStarting; ASpawn] ++ sent rt msg_initialize
     ++ sent rt msg_initialized
     ++ [AOpenInput; APrint (PError e); ATerminate]).
Proof.
  intros Hspawn Hin.
  set (w0 := with_out (initial_world ev) [APrint PStarting; ASpawn] (child_stdout ev)).
  assert (Hne : fst (scenario_sends rt ev w0) <> Ret tt).
  { intros Hret. destruct (scenario_sends_ret rt ev w0 Hret) as (txt & Htxt & _).
    congruence. }
  destruct (run_sending_failed rt ev fuel Hspawn Hne) as (H1 & H2 & H3 & H4).
  split; [assumption|]. split; [assumption|]. split.
  { unfold script_of in H3. rewrite Hin in H3. assumption. }
  split; [assumption|].
  intros S1 S2 Hops. rewrite run_unfold, Hspawn. fold w0.
  assert (E : scenario_sends rt ev w0 =
              (Raise e, after_ops w0 6 (sent rt msg_initialize
                                        ++ sent rt msg_initialized ++ [AOpenInput]))).
  { unfold scenario_sends.
    rewrite (bind_ret_step _ _ _ _ _
               (send_succeeds rt ev msg_initialize w0 S1
                  (Hops 0%nat ltac:(lia)) (Hops 1%nat ltac:(lia))
                  (Hops 2%nat ltac:(lia)))).
    rewrite (bind_ret_step _ _ _ _ _
               (send_succeeds rt ev msg_initialized
                  (after_ops w0 3 (sent rt msg_initialize)) S2
                  (Hops 3%nat ltac:(lia)) (Hops 4%nat ltac:(lia))
                  (Hops 5%nat ltac:(lia)))).
    rewrite (bind_raise_step _ _ _ _ _
               (open_input_raised ev
                  (after_ops (after_ops w0 3 (sent rt msg_initialize)) 3
                     (sent rt msg_initialized)) e Hin)).
    rewrite !after_ops_after_ops. reflexivity. }
  destruct (scenario_raised rt ev fuel w0 _ e E) as [_ ->].
  cbn [log after_ops w0 with_out initial_world app]. rewrite <- !app_assoc.
  reflexivity.
Qed.

Lemma input_file_missing_witness :
  fst (run ref_runtime no_file_env 0) = Ret tt /\
  forallb (fun a => negb (is_read a)) (log (snd (run ref_runtime no_file_env 0)))
  = true /\
  calls (log (snd (run ref_runtime no_file_env 0)))
    `prefix_of` [msg_initialize; msg_initialized] /\
  (exists before e',
     log (snd (run ref_runtime no_file_env 0))
     = before ++ [APrint (PError e'); ATerminate]) /\
  (sent ref_runtime msg_initialize <> [] ->
   sent ref_runtime msg_initialized <> [] ->
   (forall k, (k < 6)%nat -> stdin_fault no_file_env k = false) ->
   log (snd (run ref_runtime no_file_env 0))
   = [APrint PStarting; ASpawn] ++ sent ref_runtime msg_initialize
     ++ sent ref_runtime msg_initialized
     ++ [AOpenInput; APrint (PError OSError); ATerminate]).
Proof.
  apply (input_file_missing ref_runtime no_file_env 0 OSError); reflexivity.
Defined.

(** X17: when one of the eighteen writes and flushes of the script fails,
    [run] reads nothing from the child: it prints an [Error:] line, asks
    the child to terminate and returns. *)
Theorem write_fault_no_read (rt : runtime) (ev : env) (fuel k : nat) :
  spawn_ok ev = true -> (k < 18)%nat -> stdin_fault ev k = true ->
  fst (run rt ev fuel) = Ret tt /\
  forallb (fun a => negb (is_read a)) (log (snd (run rt ev fuel))) = true /\
  exists before e,
    log (snd (run rt ev fuel)) = before ++ [APrint (PError e); ATerminate].
Proof.
  intros Hspawn Hk Hfault.
  set (w0 := with_out (initial_world ev) [APrint PStarting; ASpawn] (child_stdout ev)).
  assert (Hne : fst (scenario_sends rt ev w0) <> Ret tt).
  { intros Hret.
    destruct (scenario_sends rt ev w0) as [r w1] eqn:E. cbn [fst] in Hret. subst r.
    destruct (scenario_sends_returned rt ev w0 w1 E) as (txt & _ & _ & _ & Hops).
    rewrite forallb_forall in Hops. specialize (Hops k).
    rewrite in_seq in Hops. specialize (Hops ltac:(lia)).
    cbn [stdin_ops w0 with_out initial_world] in Hops.
    rewrite Nat.add_0_r, Hfault in Hops. discriminate. }
  destruct (run_sending_failed rt ev fuel Hspawn Hne) as (H1 & H2 & _ & H4).
  split; [assumption|]. split; assumption.
Qed.

Lemma write_fault_no_read_witness :
  fst (run ref_runtime broken_pipe_env 100) = Ret tt /\
  forallb (fun a => negb (is_read a))
    (log (snd (run ref_runtime broken_pipe_env 100))) = true /\
  exists before e,
    log (snd (run ref_runtime broken_pipe_env 100))
    = before ++ [APrint (PError e); ATerminate].
Proof.
  apply (write_fault_no_read ref_runtime broken_pipe_env 100 7);
    [reflexivity | lia | reflexivity].
Defined.

(** ** The read loop: frames one after another *)

Lemma decode_result_nil (rt : runtime) : decode_result rt [] = (Ret tt, []).
Proof. reflexivity. Qed.

Lemma filter_reads (lg : list action) :
  forallb is_read lg = true ->
  List.filter (fun a => negb (is_read a)) lg = [].
Proof.
  induction lg as [|a lg IH]; [reflexivity|].
  cbn [forallb]. intros H. apply andb_true_iff in H. destruct H as [Ha Hl].
  cbn [List.filter]. rewrite Ha. cbn [negb]. apply IH. assumption.
Qed.

(** Running the loop from a world that has some log already and [rest]
    to read shows what that log shows, then what [rest] gives. *)
Lemma run_loop_relog (rt : runtime) (lg : list action) (rest : list Z) :
  (fst (run_loop rt (relog lg (world_of rest))),
   List.filter (fun a => negb (is_read a))
     (log (snd (run_loop rt (relog lg (world_of rest))))))
  = (fst (decode_result rt rest),
     List.filter (fun a => negb (is_read a)) lg ++ snd (decode_result rt rest)).
Proof.
  rewrite decode_result_run_loop.
  destruct (Framed_log (run_loop rt) (world_of rest) (Framed_run_loop rt))
    as (d & Hd & Hre).
  rewrite Hre, Hd. cbn [fst snd relog log world_of app].
  rewrite List.filter_app. reflexivity.
Qed.

Lemma report_ret (m : json) (line : event) :
  classify_incoming m = Ret line -> report m = [ADecoded m; APrint line].
Proof. intros H. unfold report. rewrite H. reflexivity. Qed.

Lemma decode_result_frame_ok (rt : runtime) (body : list Z) (m : json)
    (rest : list Z) :
  reads_as rt body m ->
  decode_result rt (frame body ++ rest)
  = (fst (decode_result rt rest), report m ++ snd (decode_result rt rest)).
Proof.
  intros (s & line & Hdec & Hload & Hcls).
  rewrite (report_ret m line Hcls).
  rewrite decode_result_run_loop. unfold frame. rewrite <- !app_assoc.
  rewrite (decode_result_frame rt (Z.of_nat (length body)) (body ++ rest)
             ltac:(lia)).
  rewrite Nat2Z.id, take_app_length, drop_app_length.
  unfold mbind, M_bind.
  rewrite (handle_body_ok rt body s m line _ Hdec Hload Hcls).
  exact (run_loop_relog rt
           [AStdoutReadline (cl_line (Z.of_nat (length body)));
            AStdoutReadline CRLF; AStdoutRead (Z.of_nat (length body)) body;
            ADecoded m; APrint line] rest).
Qed.




(** X19: a frame whose body is not UTF-8, or is not accepted by the JSON
    library, ends the loop with that error: nothing is reported for it,
    and what follows it in the stream is not read. *)
Theorem frame_failure_stops (rt : runtime) (body rest : list Z) (e : exn) :
  utf8_decode body = Raise e \/
  (exists s, utf8_decode body = Ret s /\ json_loads rt s = inl e) ->
  fst (run_loop rt (world_of (frame body ++ rest))) = Raise e /\
  stdout_rest (snd (run_loop rt (world_of (frame body ++ rest)))) = rest /\
  decode_result rt (frame body ++ rest) = (Raise e, []).
Proof.
  intros H. rewrite decode_result_run_loop. unfold frame. rewrite <- !app_assoc.
  assert (Hrun : run_loop rt (world_of (cl_line (Z.of_nat (length body)) ++ CRLF
                                        ++ body ++ rest))
                 = (Raise e,
                    relog [AStdoutReadline (cl_line (Z.of_nat (length body)));
                           AStdoutReadline CRLF;
                           AStdoutRead (Z.of_nat (length body)) body]
                      (world_of rest))).
  { rewrite (decode_result_frame rt (Z.of_nat (length body)) (body ++ rest)
               ltac:(lia)).
    rewrite Nat2Z.id, take_app_length, drop_app_length.
    unfold mbind at 1, M_bind at 1. unfold handle_body.
    destruct H as [Hdec | (s & Hdec & Hload)].
    - rewrite Hdec. reflexivity.
    - rewrite Hdec, bind_lift_ret, Hload. reflexivity. }
  rewrite Hrun. repeat split; reflexivity.
Qed.

Lemma frame_failure_stops_witness :
  fst (run_loop ref_runtime (world_of (frame [255] ++ frame short_body)))
  = Raise UnicodeDecodeError /\
  stdout_rest (snd (run_loop ref_runtime (world_of (frame [255] ++ frame short_body))))
  = frame short_body /\
  decode_result ref_runtime (frame [255] ++ frame short_body)
  = (Raise UnicodeDecodeError, []).
Proof.
  apply (frame_failure_stops ref_runtime [255] (frame short_body) UnicodeDecodeError).
  left. reflexivity.
Defined.

(** ** The session: the script read back *)

Lemma written_sent (rt : runtime) (m : json) :
  sent rt m <> [] ->
  exists body fields,
    m = JObj fields /\
    written (sent rt m) = ct_line ++ frame body /\
    ((forall content, json_dumps rt m = inr content ->
                      json_loads rt content = inr m) ->
     reads_as rt body m).
Proof.
  intros H. destruct (sent_inv rt m H) as (content & enc & meth & Hd & He & Hm & ->).
  destruct (py_get_obj _ _ _ Hm) as [fields ->].
  exists enc, fields. split; [reflexivity|]. split.
  - cbn [written]. rewrite app_nil_r, frame_header_split. unfold frame.
    rewrite <- !app_assoc. reflexivity.
  - intros Hrt. exists content, (classify_fields fields).
    split; [exact (utf8_decode_encode _ _ He)|]. split.
    + apply Hrt. assumption.
    + apply classify_incoming_obj.
Qed.

Lemma decode_result_sent (rt : runtime) (m : json) (rest : list Z) :
  sent rt m <> [] ->
  (forall content, json_dumps rt m = inr content -> json_loads rt content = inr m) ->
  decode_result rt (written (sent rt m) ++ rest)
  = (fst (decode_result rt rest), report m ++ snd (decode_result rt rest)).
Proof.
  intros Hs Hrt. destruct (written_sent rt m Hs) as (body & fields & -> & -> & Hr).
  rewrite <- app_assoc.
  rewrite (decode_result_skip rt ct_line _ ct_line_skippable).
  apply decode_result_frame_ok. apply Hr. assumption.
Qed.

Lemma written_quiet (a : action) (l : list action) :
  match a with AStdinWrite _ => False | _ => True end ->
  written (a :: l) = written l.
Proof. destruct a; intros H; try contradiction; reflexivity. Qed.

(** X20: the bytes the sending phase has written to the child, given to the
    read loop as if the child echoed them, are read back as the six
    messages of the script, in the order they were sent; the loop shows
    each of them, as a notification with its method since each carries a
    [method], and ends at the end of the stream. *)
Theorem script_echo_read_back (rt : runtime) (ev : env) (w w' : world) :
  scenario_sends rt ev w = (Ret tt, w') ->
  (forall m content, In m (script_of ev) -> json_dumps rt m = inr content ->
                     json_loads rt content = inr m) ->
  decode_result rt (written (drop (length (log w)) (log w')))
  = (Ret tt, concat (map report (script_of ev))) /\
  Forall (fun m => exists v, msg_method m = Some v /\
                             report m = [ADecoded m; APrint (PRecvNotif v)])
    (script_of ev).
Proof.
  intros H Hrt.
  destruct (scenario_sends_returned rt ev w w' H) as (txt & Hin & -> & Hall & _).
  unfold script_of in *. rewrite Hin in *. split.
  - cbn [log after_ops]. rewrite drop_app_length.
    unfold script in Hall.
    repeat match goal with
           | H : Forall _ (_ :: _) |- _ =>
               apply Forall_cons_1 in H; destruct H as [? H]
           end.
    unfold sending_phase. rewrite !written_app.
    change (written [AOpenInput]) with (@nil Z).
    change (written [APrint PSentDocumentSymbol]) with (@nil Z).
    change (written [APrint PSentDefinition]) with (@nil Z).
    rewrite !app_nil_l, app_nil_r.
    rewrite <- (app_nil_r (written (sent rt msg_definition))).
    unfold script in Hrt.
    rewrite !decode_result_sent; try assumption;
      try (intros content; apply Hrt; cbn [In]; tauto).
    rewrite decode_result_nil. cbn [fst snd script map concat].
    rewrite <- ?app_assoc, ?app_nil_r. reflexivity.
  - unfold script. repeat constructor; eexists; split; reflexivity.
Qed.

Lemma script_echo_read_back_witness :
  decode_result ref_runtime
    (written (drop (length (log (initial_world demo_env)))
                (log (snd (scenario_sends ref_runtime demo_env
                             (initial_world demo_env))))))
  = (Ret tt, concat (map report (script_of demo_env))) /\
  Forall (fun m => exists v, msg_method m = Some v /\
                             report m = [ADecoded m; APrint (PRecvNotif v)])
    (script_of demo_env).
Proof.
  apply (script_echo_read_back ref_runtime demo_env (initial_world demo_env)).
  - vm_compute. reflexivity.
  - intros m content Hm Hd.
    apply (script_read_back (lit "fn main() = 0;") m content); [reflexivity | exact Hm | exact Hd].
Defined.

(** ** The read loop: a negative length *)


Lemma forallb_digits (p : Z -> bool) (ds : list Z) :
  (forall c, is_digit c = true -> p c = true) ->
  forallb is_digit ds = true -> forallb p ds = true.
Proof. apply forallb_weaken. Qed.









(** What a computation shows does not depend on the reads that were
    logged before it. *)
Lemma shown_relog {A} (m : M A) (w : world) (lg : list action) :
  Framed m -> forallb is_read lg = true -> log w = [] ->
  (fst (m (relog lg w)),
   List.filter (fun a => negb (is_read a)) (log (snd (m (relog lg w)))))
  = (fst (m w), List.filter (fun a => negb (is_read a)) (log (snd (m w)))).
Proof.
  intros Hm Hlg Hw. destruct (Framed_log m w Hm) as (d & Hd & Hre).
  rewrite Hre, Hd, Hw. cbn [fst snd relog log app].
  rewrite List.filter_app, (filter_reads lg Hlg). reflexivity.
Qed.



(** ** Classification: messages that are not objects *)

(** X22: a decoded message that is not an object is never reported as a
    notification or as a response.  A string that contains [error], or a
    list that has the string [error] among its items, is reported as an
    error reply; on every other message the classification raises
    [TypeError] or [AttributeError], which ends the loop. *)
Theorem classify_non_object (msg : json) :
  (forall fields, msg <> JObj fields) ->
  match classify_incoming msg with
  | Ret line =>
      line = PRecvError msg /\ py_contains (lit "error") msg = Ret true
  | Raise e =>
      (e = TypeError \/ e = AttributeError) /\
      py_contains (lit "error") msg <> Ret true
  | OutOfFuel => False
  end.
Proof.
  intros Hobj. unfold classify_incoming.
  destruct msg as [|b|n|bits|s|items|fields];
    try (cbn; split; [left; reflexivity | discriminate]).
  - cbn [py_contains mbind res_bind].
    destruct (is_substring (lit "error") s); [split; reflexivity|].
    destruct (is_substring (lit "method") s); cbn.
    + split; [left; reflexivity | discriminate].
    + split; [right; reflexivity | discriminate].
  - cbn [py_contains mbind res_bind].
    destruct (existsb _ items); [split; reflexivity|].
    destruct (existsb _ items); cbn.
    + split; [left; reflexivity | discriminate].
    + split; [right; reflexivity | discriminate].
  - exfalso. apply (Hobj fields). reflexivity.
Qed.

Lemma classify_non_object_witness :
  match classify_incoming (JStr (lit "no error here")) with
  | Ret line =>
      line = PRecvError (JStr (lit "no error here")) /\
      py_contains (lit "error") (JStr (lit "no error here")) = Ret true
  | Raise e =>
      (e = TypeError \/ e = AttributeError) /\
      py_contains (lit "error") (JStr (lit "no error here")) <> Ret true
  | OutOfFuel => False
  end.
Proof.
  apply (classify_non_object (JStr (lit "no error here"))).
  intros fields. discriminate.
Defined.

(** ** The session: a whole run *)






(** ** The read loop: what it accepts as a header *)

Lemma blank_facts (c : Z) :
  blank c = true ->
  py_isspace c = true /\ is_ascii c = true /\
  (c =? 10) = false /\ (c =? 58) = false.
Proof.
  unfold blank. intros H.
  repeat (apply orb_true_iff in H; destruct H as [H|H]);
    apply Z.eqb_eq in H; subst c; repeat split; reflexivity.
Qed.

Lemma lstrip_blanks (pad s : list Z) :
  forallb py_isspace pad = true -> lstrip (pad ++ s) = lstrip s.
Proof.
  induction pad as [|c pad IH]; intros H; [reflexivity|].
  cbn [forallb] in H. apply andb_true_iff in H. destruct H as [Hc Hp].
  cbn [app lstrip]. rewrite Hc. apply IH. assumption.
Qed.

Lemma py_strip_padded (pad1 pad2 ds : list Z) :
  forallb blank pad1 = true -> forallb blank pad2 = true ->
  ds <> [] -> forallb is_digit ds = true ->
  py_strip (pad1 ++ ds ++ pad2 ++ [10]) = ds.
Proof.
  intros H1 H2 Hne Hd. unfold py_strip.
  assert (Hsp : forall pad, forallb blank pad = true -> forallb py_isspace pad = true).
  { intros pad. apply forallb_weaken. intros c Hc. apply blank_facts. assumption. }
  rewrite lstrip_blanks by (apply Hsp; assumption).
  rewrite lstrip_digits by assumption.
  rewrite !reverse_app. change (reverse [10]) with [10]. rewrite <- !app_assoc.
  change (lstrip ([10] ++ reverse pad2 ++ reverse ds))
    with (lstrip (reverse pad2 ++ reverse ds)).
  rewrite lstrip_blanks by (rewrite forallb_reverse; apply Hsp; assumption).
  pose proof (lstrip_digits (reverse ds) []) as H. rewrite !app_nil_r in H.
  rewrite H.
  - apply reverse_involutive.
  - intros E. apply Hne. rewrite <- (reverse_involutive ds), E. reflexivity.
  - rewrite forallb_reverse. assumption.
Qed.

Lemma lax_line_facts (ud : Z -> option Z) (pad1 pad2 : list Z) (n : Z) :
  forallb blank pad1 = true -> forallb blank pad2 = true -> 0 <= n ->
  lax_line pad1 pad2 n <> [] /\
  (forall rest, readline (lax_line pad1 pad2 n ++ rest) = (lax_line pad1 pad2 n, rest)) /\
  utf8_decode (lax_line pad1 pad2 n) = Ret (lax_line pad1 pad2 n) /\
  startswith (lax_line pad1 pad2 n) (lit "Content-Length:") = true /\
  (field ← py_item (py_split 58 (lax_line pad1 pad2 n)) 1;
   py_int ud (py_strip field)) = Ret n.
Proof.
  intros H1 H2 Hn. destruct (py_str_int_nonneg n Hn) as (Hne & Hd & Hv).
  assert (Hpad : forall (p : Z -> bool) pad,
            (forall c, blank c = true -> p c = true) ->
            forallb blank pad = true -> forallb p pad = true).
  { intros p pad. apply forallb_weaken. }
  unfold lax_line. split; [discriminate|]. split; [|split; [|split]].
  - intros rest.
    replace ((lit "Content-Length:" ++ pad1 ++ py_str_int n ++ pad2 ++ [10]) ++ rest)
      with ((lit "Content-Length:" ++ pad1 ++ py_str_int n ++ pad2) ++ 10 :: rest).
    2:{ rewrite <- !app_assoc. reflexivity. }
    rewrite readline_line.
    + rewrite <- !app_assoc. reflexivity.
    + rewrite !forallb_app.
      rewrite (Hpad (fun c => negb (c =? 10)) pad1), (Hpad (fun c => negb (c =? 10)) pad2);
        try assumption;
        try (intros c Hc; destruct (blank_facts c Hc) as (_ & _ & -> & _); reflexivity).
      rewrite (forallb_digits (fun c => negb (c =? 10)) (py_str_int n));
        [reflexivity| |assumption].
      intros c Hc. destruct (is_digit_facts c Hc) as (_&_&_&_&_&_&_&->&_). reflexivity.
  - apply utf8_decode_ascii. rewrite !forallb_app.
    rewrite (Hpad is_ascii pad1), (Hpad is_ascii pad2); try assumption;
      try (intros c Hc; apply blank_facts; assumption).
    rewrite (forallb_digits is_ascii (py_str_int n)); [reflexivity| |assumption].
    intros c Hc. apply is_digit_facts. assumption.
  - apply startswith_app.
  - change (lit "Content-Length:" ++ pad1 ++ py_str_int n ++ pad2 ++ [10])
      with (lit "Content-Length" ++ 58 :: (pad1 ++ py_str_int n ++ pad2 ++ [10])).
    rewrite py_split_first by reflexivity.
    rewrite py_split_none.
    + cbn [py_item lookup list_lookup mbind res_bind].
      rewrite py_strip_padded, py_int_digits by assumption.
      rewrite Hv. reflexivity.
    + rewrite !forallb_app.
      rewrite (Hpad (fun c => negb (c =? 58)) pad1), (Hpad (fun c => negb (c =? 58)) pad2);
        try assumption;
        try (intros c Hc; destruct (blank_facts c Hc) as (_ & _ & _ & ->); reflexivity).
      rewrite (forallb_digits (fun c => negb (c =? 58)) (py_str_int n));
        [reflexivity| |assumption].
      intros c Hc. destruct (is_digit_facts c Hc) as (_&_&_&_&_&_&->&_). reflexivity.
Qed.

(** One turn of the loop on a line that is read as a [Content-Length]
    header with the number [n], followed by any line and the bytes
    [rest]. *)
Lemma read_turn_header (rt : runtime) (h sp rest : list Z) (n : Z) :
  h <> [] ->
  (forall x, readline (h ++ x) = (h, x)) ->
  utf8_decode h = Ret h ->
  startswith h (lit "Content-Length:") = true ->
  (field ← py_item (py_split 58 h) 1;
   py_int (unicode_decimal rt) (py_strip field)) = Ret n ->
  0 <= n ->
  (forall x, readline (sp ++ x) = (sp, x)) ->
  read_turn rt (world_of (h ++ sp ++ rest)) =
  (_ ← handle_body rt (take (Z.to_nat n) rest); mret true)
    (relog [AStdoutReadline h; AStdoutReadline sp;
            AStdoutRead n (take (Z.to_nat n) rest)]
       (world_of (drop (Z.to_nat n) rest))).
Proof.
  intros Hne Hrl Hdec Hsw Hint Hn Hsp.
  unfold read_turn. rewrite bind_stdout_readline.
  cbn [stdout_rest world_of]. rewrite Hrl. cbn [fst snd].
  assert (Hnz : is_empty h = false) by (destruct h; [contradiction | reflexivity]).
  rewrite Hnz. unfold mbind at 1. unfold M_bind at 1.
  unfold handle_line. rewrite Hdec, bind_lift_ret, Hsw.
  destruct (py_item (py_split 58 h) 1) as [field| |] eqn:Ef;
    cbn [mbind res_bind] in Hint; try discriminate.
  rewrite bind_lift_ret, Hint, bind_lift_ret.
  rewrite bind_stdout_readline. cbn [stdout_rest with_out].
  rewrite Hsp. cbn [fst snd].
  rewrite bind_stdout_read by assumption.
  cbn [stdout_rest with_out log stdin_ops proc app]. reflexivity.
Qed.

Lemma run_loop_header (rt : runtime) (h sp rest : list Z) (n : Z) :
  h <> [] ->
  (forall x, readline (h ++ x) = (h, x)) ->
  utf8_decode h = Ret h ->
  startswith h (lit "Content-Length:") = true ->
  (field ← py_item (py_split 58 h) 1;
   py_int (unicode_decimal rt) (py_strip field)) = Ret n ->
  0 <= n ->
  (forall x, readline (sp ++ x) = (sp, x)) ->
  run_loop rt (world_of (h ++ sp ++ rest)) =
  (_ ← handle_body rt (take (Z.to_nat n) rest); run_loop rt)
    (relog [AStdoutReadline h; AStdoutReadline sp;
            AStdoutRead n (take (Z.to_nat n) rest)]
       (world_of (drop (Z.to_nat n) rest))).
Proof.
  intros Hne Hrl Hdec Hsw Hint Hn Hsp.
  rewrite run_loop_unfold. unfold mbind at 1. unfold M_bind at 1.
  rewrite (read_turn_header rt h sp rest n Hne Hrl Hdec Hsw Hint Hn Hsp).
  unfold mbind, M_bind, mret, M_ret.
  destruct (handle_body rt _ _) as [[[]|e|] w1]; reflexivity.
Qed.

(** X24: the loop does not insist on the exact form of the header that
    [send] writes.  A [Content-Length:] line with any blanks around the
    number and a bare newline at its end, followed by any one line in the
    place of the blank line (its bytes are not looked at), then the body,
    is read like the frame with the same body; so frames whose lines end
    in a bare newline are read like those whose lines end in a carriage
    return and a newline. *)
Theorem lax_frame (rt : runtime) (pad1 pad2 sep body rest : list Z) :
  forallb blank pad1 = true -> forallb blank pad2 = true ->
  forallb (fun c => negb (c =? 10)) sep = true ->
  decode_result rt
    (lax_line pad1 pad2 (Z.of_nat (length body)) ++ (sep ++ [10]) ++ body ++ rest)
  = decode_result rt (frame body ++ rest).
Proof.
  intros H1 H2 Hsep.
  destruct (lax_line_facts (unicode_decimal rt) pad1 pad2 (Z.of_nat (length body))
              H1 H2 ltac:(lia)) as (Hne & Hrl & Hdec & Hsw & Hint).
  rewrite !decode_result_run_loop.
  rewrite (run_loop_header rt (lax_line pad1 pad2 (Z.of_nat (length body)))
             (sep ++ [10]) (body ++ rest) (Z.of_nat (length body))
             Hne Hrl Hdec Hsw Hint ltac:(lia)).
  2:{ intros x. rewrite <- app_assoc. apply readline_line. assumption. }
  unfold frame. rewrite <- !app_assoc.
  rewrite (decode_result_frame rt (Z.of_nat (length body)) (body ++ rest) ltac:(lia)).
  rewrite Nat2Z.id, take_app_length, drop_app_length.
  assert (Hfr : Framed (_ ← handle_body rt body; run_loop rt)).
  { apply Framed_bind; [apply Framed_handle_body | intros _; apply Framed_run_loop]. }
  rewrite (shown_relog _ (world_of rest)
             [AStdoutReadline (lax_line pad1 pad2 (Z.of_nat (length body)));
              AStdoutReadline (sep ++ [10]);
              AStdoutRead (Z.of_nat (length body)) body] Hfr eq_refl eq_refl).
  rewrite (shown_relog _ (world_of rest)
             [AStdoutReadline (cl_line (Z.of_nat (length body)));
              AStdoutReadline CRLF;
              AStdoutRead (Z.of_nat (length body)) body] Hfr eq_refl eq_refl).
  reflexivity.
Qed.

Lemma lax_frame_witness :
  decode_result ref_runtime
    (lax_line [] [32; 9] (Z.of_nat (length short_body)) ++ ([] ++ [10])
     ++ short_body ++ [])
  = decode_result ref_runtime (frame short_body ++ []).
Proof.
  apply (lax_frame ref_runtime [] [32; 9] [] short_body []); reflexivity.
Defined.
